(** * clinic-manager: the financial report, the appointment-type guard and
      the password form, embedded from the TypeScript sources.

    - [FinancialReport] (fetchAppointments, calculateTotals, handleExportExcel)
    - [AppointmentScheduling] (handleDeleteAppointmentType, the rendered list)
    - [ChangePassword] (passwordSchema, onSubmit)

    JavaScript numbers are IEEE-754 binary64 values: they are modelled by the
    kernel's primitive floats, whose addition is the same round-to-nearest-even
    operation.  A plain object used as a dictionary is modelled by its own
    properties in creation order, together with the properties it inherits
    from Object.prototype and the order in which Object.values enumerates. *)

From Stdlib Require Import List String Ascii Bool ZArith Lia Permutation Sorted.
From Stdlib Require Import PrimFloat FloatOps SpecFloat FloatAxioms.
Import ListNotations.

Local Open Scope string_scope.
Local Open Scope list_scope.

(* Decimal literals such as 0.1 denote the nearest binary64 value, as they do
   in JavaScript source text. *)
Set Warnings "-inexact-float".

(** ** JavaScript numbers *)

Module JsNumber.

Definition number := float.

Definition add (x y : number) : number := PrimFloat.add x y.

(** ToBoolean on a number: +0, -0 and NaN are falsy. *)
Definition truthy (x : number) : bool :=
  match Prim2SF x with
  | S754_zero _ => false
  | S754_nan => false
  | _ => true
  end.

(** [x || 0] *)
Definition or_zero (x : number) : number :=
  if truthy x then x else zero.

(** The decimal digits of a non-negative integer, most significant first. *)
Definition digit (d : Z) : ascii := ascii_of_nat (48 + Z.to_nat d).

Fixpoint digits_fuel (fuel : nat) (n : Z) (acc : string) : string :=
  match fuel with
  | O => acc
  | S fuel' =>
      let acc' := String (digit (n mod 10)) acc in
      if (n / 10 =? 0)%Z then acc' else digits_fuel fuel' (n / 10) acc'
  end.

Definition digits (n : Z) : string :=
  digits_fuel (S (Z.to_nat (Z.log2 n))) n EmptyString.

(** Number.prototype.toFixed(2), step by step:
    a non-finite number prints as Number::toString does; a negative one
    prints a minus sign and its opposite; below 10^21 the digits are those
    of the integer n for which n / 100 - x is closest to zero, the larger
    n on a tie, computed on the exact value m * 2^e of the float; at and
    above 10^21 the result is Number::toString(x), which the caller
    supplies. *)
Inductive fixed :=
| FixedNaN
| FixedInfinity (negative : bool)
| FixedHundredths (negative : bool) (n : Z)
| FixedLarge (negative : bool).

Definition hundredths (m : positive) (e : Z) : Z :=
  if (0 <=? e)%Z then (Z.pos m * 100 * 2 ^ e)%Z
  else ((Z.pos m * 200 + 2 ^ (- e)) / 2 ^ (- e + 1))%Z.

Definition toFixed2_parts (x : number) : fixed :=
  match Prim2SF x with
  | S754_nan => FixedNaN
  | S754_infinity s => FixedInfinity s
  | S754_zero _ => FixedHundredths false 0
  | S754_finite s m e =>
      let n := hundredths m e in
      if (0 <=? e)%Z && (10 ^ 21 <=? Z.pos m * 2 ^ e)%Z
      then FixedLarge s
      else FixedHundredths s n
  end.

Definition pad3 (s : string) : string :=
  match String.length s with
  | 0 => "000"
  | 1 => ("00" ++ s)%string
  | 2 => ("0" ++ s)%string
  | _ => s
  end.

Definition point2 (s : string) : string :=
  let k := String.length s in
  (substring 0 (k - 2) s ++ "." ++ substring (k - 2) 2 s)%string.

Section ToFixed.
(** Number::toString on a number of magnitude at least 10^21 (exponent
    notation with the shortest digits that round-trip). *)
Variable toString_large : number -> string.

Definition toFixed2 (x : number) : string :=
  match toFixed2_parts x with
  | FixedNaN => "NaN"
  | FixedInfinity false => "Infinity"
  | FixedInfinity true => "-Infinity"
  | FixedHundredths s n =>
      ((if s then "-" else EmptyString) ++ point2 (pad3 (digits n)))%string
  | FixedLarge s =>
      ((if s then "-" else EmptyString) ++ toString_large (abs x))%string
  end.
End ToFixed.

End JsNumber.

(** ** Plain objects used as dictionaries *)

Module JsObject.

(** The property names every object literal inherits from Object.prototype.
    Each holds a function, or for __proto__ the prototype object itself:
    all are truthy. *)
Definition prototype_keys : list string :=
  [ "constructor"; "__defineGetter__"; "__defineSetter__"; "hasOwnProperty";
    "__lookupGetter__"; "__lookupSetter__"; "isPrototypeOf";
    "propertyIsEnumerable"; "toString"; "valueOf"; "__proto__";
    "toLocaleString" ].

Definition inherited (k : string) : bool :=
  existsb (String.eqb k) prototype_keys.

(** Array indices: the canonical decimal spelling of an integer between 0
    and 2^32 - 2.  Own properties with such names are enumerated first. *)
Definition is_digit (c : ascii) : bool :=
  let n := nat_of_ascii c in (48 <=? n)%nat && (n <=? 57)%nat.

Fixpoint all_digits (s : string) : bool :=
  match s with
  | EmptyString => true
  | String c r => is_digit c && all_digits r
  end.

Fixpoint decimal (s : string) (acc : N) : N :=
  match s with
  | EmptyString => acc
  | String c r => decimal r (acc * 10 + N.of_nat (nat_of_ascii c - 48))%N
  end.

Definition array_index (k : string) : option N :=
  match k with
  | EmptyString => None
  | String c r =>
      if all_digits k
         && (negb (Ascii.eqb c "0"%char)
             || match r with EmptyString => true | _ => false end)
         && (decimal k 0 <=? 4294967294)%N
      then Some (decimal k 0)
      else None
  end.

Definition is_index (k : string) : bool :=
  match array_index k with Some _ => true | None => false end.

Definition index_of (k : string) : N :=
  match array_index k with Some n => n | None => 0%N end.

Section Dict.
Variable V : Type.

(** Own properties in creation order. *)
Definition t := list (string * V).

Definition empty : t := [].

Fixpoint own (o : t) (k : string) : option V :=
  match o with
  | [] => None
  | (k', v) :: r => if String.eqb k' k then Some v else own r k
  end.

(** What [o[k]] evaluates to. *)
Inductive property :=
| Own (v : V)
| Inherited
| Undefined.

Definition get (o : t) (k : string) : property :=
  match own o k with
  | Some v => Own v
  | None => if inherited k then Inherited else Undefined
  end.

(** [o[k] = v] for a key that is own or not inherited: an existing
    property keeps its place, a new one is created last. *)
Fixpoint set (o : t) (k : string) (v : V) : t :=
  match o with
  | [] => [(k, v)]
  | (k', v') :: r =>
      if String.eqb k' k then (k', v) :: r else (k', v') :: set r k v
  end.

(** OrdinaryOwnPropertyKeys: array indices in ascending numeric order,
    then the other names in creation order. *)
Fixpoint insert_by_index (p : string * V) (l : t) : t :=
  match l with
  | [] => [p]
  | q :: r =>
      if (index_of (fst p) <=? index_of (fst q))%N then p :: l
      else q :: insert_by_index p r
  end.

Fixpoint sort_by_index (l : t) : t :=
  match l with
  | [] => []
  | p :: r => insert_by_index p (sort_by_index r)
  end.

Definition entries (o : t) : t :=
  sort_by_index (filter (fun p => is_index (fst p)) o)
  ++ filter (fun p => negb (is_index (fst p))) o.

Definition keys (o : t) : list string := map fst (entries o).

Definition values (o : t) : list V := map snd (entries o).
End Dict.

Arguments Own {V} v.
Arguments Inherited {V}.
Arguments Undefined {V}.
Arguments empty {V}.
Arguments own {V} o k.
Arguments get {V} o k.
Arguments set {V} o k v.
Arguments entries {V} o.
Arguments keys {V} o.
Arguments values {V} o.
Arguments sort_by_index {V} l.
Arguments insert_by_index {V} p l.

End JsObject.

(** ** Notifications *)

Record Toast := {
  title : string;
  description : option string;
  variant : option string
}.

Definition destructive : option string := Some "destructive".

(** A call either returns or throws an error with a message. *)
Inductive completion (A : Type) :=
| Returned (a : A)
| Threw (message : string).
Arguments Returned {A} a.
Arguments Threw {A} message.

(** ** FinancialReport *)

Module FinancialReport.
Import JsNumber.

Record AppointmentWithPatient := {
  app_id : string;
  app_date : string;
  app_patientName : string;
  app_value : number
}.

Record PatientTotal := {
  patientName : string;
  totalValue : number;
  appointments : list AppointmentWithPatient
}.

Definition TypeError_push : string :=
  "TypeError: Cannot read properties of undefined (reading 'push')".

(** The reducer of calculateTotals:
<<
    if (!acc[app.patientName]) {
      acc[app.patientName] = { patientName: app.patientName, totalValue: 0, appointments: [] }
    }
    acc[app.patientName].totalValue += app.value
    acc[app.patientName].appointments.push(app)
    return acc
>>
    When the name is inherited from Object.prototype the guard is false,
    the inherited object gets a totalValue property, and its appointments
    property is undefined: push throws. *)
Definition reducer (acc : JsObject.t PatientTotal) (app : AppointmentWithPatient)
  : completion (JsObject.t PatientTotal) :=
  let k := app_patientName app in
  let acc1 :=
    match JsObject.get acc k with
    | JsObject.Undefined =>
        JsObject.set acc k
          {| patientName := k; totalValue := zero; appointments := [] |}
    | _ => acc
    end in
  match JsObject.get acc1 k with
  | JsObject.Own p =>
      Returned
        (JsObject.set acc1 k
           {| patientName := patientName p;
              totalValue := add (totalValue p) (app_value app);
              appointments := appointments p ++ [app] |})
  | _ => Threw TypeError_push
  end.

(** Array.prototype.reduce with an initial value. *)
Fixpoint reduce (apps : list AppointmentWithPatient) (acc : JsObject.t PatientTotal)
  : completion (JsObject.t PatientTotal) :=
  match apps with
  | [] => Returned acc
  | app :: rest =>
      match reducer acc app with
      | Returned acc' => reduce rest acc'
      | Threw e => Threw e
      end
  end.

Definition grandTotal (l : list PatientTotal) : number :=
  fold_left (fun sum patient => add sum (totalValue patient)) l zero.

(** The component's state. *)
Record State := {
  st_appointments : list AppointmentWithPatient;
  st_patientTotals : list PatientTotal;
  st_totalValue : number;
  st_isLoading : bool
}.

Definition initial : State :=
  {| st_appointments := []; st_patientTotals := [];
     st_totalValue := zero; st_isLoading := true |}.

(** calculateTotals, as the pair it stores with setPatientTotals and
    setTotalValue. *)
Definition calculateTotals (apps : list AppointmentWithPatient)
  : completion (list PatientTotal * number) :=
  match reduce apps JsObject.empty with
  | Returned totals =>
      let patientTotalsList := JsObject.values totals in
      Returned (patientTotalsList, grandTotal patientTotalsList)
  | Threw e => Threw e
  end.

Definition setTotals (r : list PatientTotal * number) (st : State) : State :=
  {| st_appointments := st_appointments st;
     st_patientTotals := fst r;
     st_totalValue := snd r;
     st_isLoading := st_isLoading st |}.

(** *** fetchAppointments *)

(** A row of the select: id, date, value and the joined patient's name. *)
Record PatientJoin := { pj_name : string }.

Record FetchedAppointment := {
  f_id : string;
  f_date : string;
  f_value : option number;
  f_patients : option PatientJoin
}.

(** [app.patients && app.patients.name] as a filter condition. *)
Definition has_patient_name (app : FetchedAppointment) : bool :=
  match f_patients app with
  | Some p => negb (String.eqb (pj_name p) EmptyString)
  | None => false
  end.

Definition format_row (app : FetchedAppointment) : AppointmentWithPatient :=
  {| app_id := f_id app;
     app_date := f_date app;
     app_patientName :=
       match f_patients app with
       | Some p =>
           if String.eqb (pj_name p) EmptyString
           then "Paciente Desconhecido" else pj_name p
       | None => "Paciente Desconhecido"
       end;
     app_value :=
       match f_value app with
       | Some v => or_zero v
       | None => zero
       end |}.

Definition formattedAppointments (data : list FetchedAppointment)
  : list AppointmentWithPatient :=
  map format_row (filter has_patient_name data).

(** The answer of the store: an error message or the rows. *)
Definition Response := (string + list FetchedAppointment)%type.

Record Fetched := {
  fetched_state : State;
  fetched_toasts : list Toast;
  fetched_rejection : option string
}.

Definition fetchAppointments (response : Response) (st : State) : Fetched :=
  let st1 :=
    {| st_appointments := st_appointments st;
       st_patientTotals := st_patientTotals st;
       st_totalValue := st_totalValue st;
       st_isLoading := true |} in
  match response with
  | inl message =>
      {| fetched_state :=
           {| st_appointments := st_appointments st1;
              st_patientTotals := st_patientTotals st1;
              st_totalValue := st_totalValue st1;
              st_isLoading := false |};
         fetched_toasts :=
           [ {| title := "Erro ao carregar consultas";
                description := Some message;
                variant := destructive |} ];
         fetched_rejection := None |}
  | inr data =>
      let formatted := formattedAppointments data in
      let st2 :=
        {| st_appointments := formatted;
           st_patientTotals := st_patientTotals st1;
           st_totalValue := st_totalValue st1;
           st_isLoading := true |} in
      match calculateTotals formatted with
      | Returned r =>
          let st3 := setTotals r st2 in
          {| fetched_state :=
               {| st_appointments := st_appointments st3;
                  st_patientTotals := st_patientTotals st3;
                  st_totalValue := st_totalValue st3;
                  st_isLoading := false |};
             fetched_toasts := [];
             fetched_rejection := None |}
      | Threw e =>
          {| fetched_state := st2;
             fetched_toasts := [];
             fetched_rejection := Some e |}
      end
  end.

(** *** handleExportExcel *)

Section Exporter.
(** Number::toString for magnitudes from 10^21 on. *)
Variable toString_large : number -> string.
(** [format(new Date(s), 'dd/MM/yyyy')] of date-fns. *)
Variable format_ddMMyyyy : string -> string.
(** The wide month names of the pt-BR locale of date-fns, by month
    number from 0. *)
Variable monthName : nat -> string.

(** The local calendar month and year of [new Date()]. *)
Record Today := { today_month : nat; today_year : Z }.

Definition money (x : number) : string :=
  ("R$ " ++ toFixed2 toString_large x)%string.

(** date-fns pattern 'yyyy': the year, or for a year before 1 the count
    1 - year, on at least four digits. *)
Definition yyyy (y : Z) : string :=
  let d := digits (if (0 <? y)%Z then y else (1 - y)%Z) in
  match String.length d with
  | 1 => ("000" ++ d)%string
  | 2 => ("00" ++ d)%string
  | 3 => ("0" ++ d)%string
  | _ => d
  end.

(** [format(new Date(), 'MMMM-yyyy', { locale: ptBR })] *)
Definition format_MMMM_yyyy (now : Today) : string :=
  (monthName (today_month now) ++ "-" ++ yyyy (today_year now))%string.

Definition Row := list string.

(** The object built for each appointment: keys Paciente, Data, Valor. *)
Definition appointmentRow (app : AppointmentWithPatient) : Row :=
  [ app_patientName app; format_ddMMyyyy (app_date app); money (app_value app) ].

Definition header : Row := [ "Paciente"; "Data"; "Valor" ].

(** XLSX.utils.json_to_sheet on objects that all have the keys of
    [header]: a header row, then one row per object; on no object at
    all the sheet is the single empty cell A1. *)
Definition json_to_sheet (objects : list Row) : list Row :=
  match objects with
  | [] => [ [] ]
  | _ => header :: objects
  end.

(** XLSX.utils.sheet_add_aoa with origin -1: the rows are appended below
    the last row of the sheet. *)
Definition sheet_add_aoa (worksheet rows : list Row) : list Row :=
  worksheet ++ rows.

Definition patientTotalRow (patient : PatientTotal) : Row :=
  [ ("Total " ++ patientName patient ++ ":")%string; EmptyString;
    money (totalValue patient) ].

Definition grandTotalRow (total : number) : Row :=
  [ "Total Geral:"; EmptyString; money total ].

Record Exported := {
  sheetName : string;
  worksheet : list Row;
  columnsWidths : list nat;
  filename : string;
  export_toast : Toast
}.

Definition handleExportExcel (now : Today) (st : State) : Exported :=
  let worksheet :=
    json_to_sheet
      (flat_map (fun patient => map appointmentRow (appointments patient))
                (st_patientTotals st)) in
  let totalRows :=
    map patientTotalRow (st_patientTotals st)
    ++ [ grandTotalRow (st_totalValue st) ] in
  let currentMonth := format_MMMM_yyyy now in
  let name := ("relatorio-financeiro-" ++ currentMonth ++ ".xlsx")%string in
  {| sheetName := "Relatório Financeiro";
     worksheet := sheet_add_aoa worksheet totalRows;
     columnsWidths := [30; 15; 15]%nat;
     filename := name;
     export_toast :=
       {| title := "Relatório exportado com sucesso";
          description := Some ("O relatório foi salvo como " ++ name)%string;
          variant := None |} |}.
End Exporter.

End FinancialReport.

(** ** AppointmentScheduling *)

Module AppointmentScheduling.
Import JsNumber.

Record Patient := { patient_id : string; patient_name : string }.

Record AppointmentType := {
  type_id : string;
  type_name : string;
  type_value : number;
  type_user_id : string
}.

(** A row of the table appointments. *)
Record AppointmentRow := {
  row_id : string;
  row_patient_id : string;
  row_date : string;
  row_time : string;
  row_value : number;
  row_appointment_type_id : option string;
  row_user_id : string
}.

Record TypeJoin := { tj_id : string; tj_name : string; tj_value : number }.

(** An element of the appointments state: a row with its joined patient
    and appointment type, either of which may be null. *)
Record Appointment := {
  id : string;
  a_patient_id : string;
  date : string;
  time : string;
  value : number;
  appointment_type_id : option string;
  patient : option Patient;
  appointment_type : option TypeJoin
}.

(** *** The record store, as the queries of this component see it *)

Record Store := {
  patients : list Patient;
  appointment_types : list AppointmentType;
  appointment_rows : list AppointmentRow
}.

Inductive Request :=
| SelectAppointmentsUsing (typeId : string)
| DeleteAppointmentType (typeId : string)
| SelectAppointmentTypes (user : string)
| SelectAppointments (user : string).

(** Which of the remote calls fail, and with which message. *)
Record Faults := {
  check_fault : option string;
  delete_fault : option string;
  types_fault : option string;
  appointments_fault : option string
}.

Definition references (typeId : string) (r : AppointmentRow) : bool :=
  match row_appointment_type_id r with
  | Some t => String.eqb t typeId
  | None => false
  end.

(** from('appointments').select('id').eq('appointment_type_id', typeId).limit(1) *)
Definition select_appointments_using (typeId : string) (s : Store) : list string :=
  firstn 1 (map row_id (filter (references typeId) (appointment_rows s))).

(** from('appointment_types').delete().eq('id', typeId) *)
Definition delete_appointment_type (typeId : string) (s : Store) : Store :=
  {| patients := patients s;
     appointment_types :=
       filter (fun t => negb (String.eqb (type_id t) typeId)) (appointment_types s);
     appointment_rows := appointment_rows s |}.

Definition join (s : Store) (r : AppointmentRow) : Appointment :=
  {| id := row_id r;
     a_patient_id := row_patient_id r;
     date := row_date r;
     time := row_time r;
     value := row_value r;
     appointment_type_id := row_appointment_type_id r;
     patient :=
       find (fun p => String.eqb (patient_id p) (row_patient_id r)) (patients s);
     appointment_type :=
       match row_appointment_type_id r with
       | Some t =>
           option_map
             (fun ty => {| tj_id := type_id ty; tj_name := type_name ty;
                           tj_value := type_value ty |})
             (find (fun ty => String.eqb (type_id ty) t) (appointment_types s))
       | None => None
       end |}.

(** *** The component: state, effects and handlers *)

Record View := {
  currentUser : option string;
  appointmentTypes : list AppointmentType;
  appointments : list Appointment;
  toasts : list Toast;
  console : list string
}.

Record World := {
  store : Store;
  view : View;
  requests : list Request
}.

Definition M (A : Type) : Type := World -> completion A * World.

Definition ret {A} (a : A) : M A := fun w => (Returned a, w).

Definition throw {A} (message : string) : M A := fun w => (Threw message, w).

Definition bind {A B} (m : M A) (k : A -> M B) : M B :=
  fun w =>
    match m w with
    | (Returned a, w') => k a w'
    | (Threw e, w') => (Threw e, w')
    end.

Definition try_catch {A} (body : M A) (handler : string -> M A) : M A :=
  fun w =>
    match body w with
    | (Returned a, w') => (Returned a, w')
    | (Threw e, w') => handler e w'
    end.

Notation "x <- m ;; k" := (bind m (fun x => k))
  (at level 61, m at next level, right associativity).
Notation "m ;;; k" := (bind m (fun _ => k))
  (at level 61, right associativity).

Definition with_view (f : View -> View) : M unit :=
  fun w => (Returned tt,
            {| store := store w; view := f (view w); requests := requests w |}).

Definition toast (t : Toast) : M unit :=
  with_view (fun v =>
    {| currentUser := currentUser v; appointmentTypes := appointmentTypes v;
       appointments := appointments v; toasts := toasts v ++ [t];
       console := console v |}).

Definition console_error (line : string) : M unit :=
  with_view (fun v =>
    {| currentUser := currentUser v; appointmentTypes := appointmentTypes v;
       appointments := appointments v; toasts := toasts v;
       console := console v ++ [line] |}).

Definition setAppointmentTypes (l : list AppointmentType) : M unit :=
  with_view (fun v =>
    {| currentUser := currentUser v; appointmentTypes := l;
       appointments := appointments v; toasts := toasts v;
       console := console v |}).

Definition setAppointments (l : list Appointment) : M unit :=
  with_view (fun v =>
    {| currentUser := currentUser v; appointmentTypes := appointmentTypes v;
       appointments := l; toasts := toasts v; console := console v |}).

Definition getCurrentUser : M (option string) :=
  fun w => (Returned (currentUser (view w)), w).

(** A remote call: the request is issued; when the call fails the store is
    left as it was and the error is the answer, otherwise the store runs
    the operation. *)
Definition remote {A} (r : Request) (fault : option string)
    (run : Store -> A * Store) : M (string + A) :=
  fun w =>
    let issued := requests w ++ [r] in
    match fault with
    | Some e =>
        (Returned (inl e),
         {| store := store w; view := view w; requests := issued |})
    | None =>
        let '(a, s') := run (store w) in
        (Returned (inr a),
         {| store := s'; view := view w; requests := issued |})
    end.

(** [error.message || 'Ocorreu um erro desconhecido'] *)
Definition message_or_unknown (message : string) : string :=
  if String.eqb message EmptyString
  then "Ocorreu um erro desconhecido" else message.

Section Handlers.
Variable faults : Faults.
(** order('name') and order('date').order('time') of the store. *)
Variable order_types : list AppointmentType -> list AppointmentType.
Variable order_appointments : list Appointment -> list Appointment.

Definition fetchAppointmentTypes : M unit :=
  u <- getCurrentUser ;;
  match u with
  | None => ret tt
  | Some user =>
      try_catch
        (r <- remote (SelectAppointmentTypes user) (types_fault faults)
                (fun s =>
                   (order_types
                      (filter (fun t => String.eqb (type_user_id t) user)
                              (appointment_types s)), s)) ;;
         match r with
         | inl e => throw e
         | inr data => setAppointmentTypes data
         end)
        (fun e =>
           console_error "Erro ao carregar tipos de consulta:" ;;;
           toast {| title := "Erro ao carregar tipos de consulta";
                    description := Some (message_or_unknown e);
                    variant := destructive |})
  end.

Definition fetchAppointments : M unit :=
  u <- getCurrentUser ;;
  match u with
  | None => ret tt
  | Some user =>
      try_catch
        (r <- remote (SelectAppointments user) (appointments_fault faults)
                (fun s =>
                   (order_appointments
                      (map (join s)
                           (filter (fun a => String.eqb (row_user_id a) user)
                                   (appointment_rows s))), s)) ;;
         match r with
         | inl e => throw e
         | inr data => setAppointments data
         end)
        (fun e =>
           toast {| title := "Erro ao carregar consultas";
                    description := Some e;
                    variant := destructive |})
  end.

Definition in_use_toast : Toast :=
  {| title := "Não é possível excluir o tipo de consulta";
     description :=
       Some "Existem consultas agendadas com este tipo. Remova ou altere essas consultas primeiro.";
     variant := destructive |}.

(** The two fetches at the end are started in this order and not awaited;
    each catches its own errors.  The model runs them one after the other. *)
Definition handleDeleteAppointmentType (typeId : string) : M unit :=
  try_catch
    (check <- remote (SelectAppointmentsUsing typeId) (check_fault faults)
                (fun s => (select_appointments_using typeId s, s)) ;;
     match check with
     | inl checkError => throw checkError
     | inr appointmentsUsingType =>
         if (0 <? List.length appointmentsUsingType)%nat
         then toast in_use_toast
         else
           del <- remote (DeleteAppointmentType typeId) (delete_fault faults)
                    (fun s => (tt, delete_appointment_type typeId s)) ;;
           match del with
           | inl error => throw error
           | inr _ =>
               toast {| title := "Tipo de consulta excluído com sucesso";
                        description := None; variant := None |} ;;;
               fetchAppointmentTypes ;;;
               fetchAppointments
           end
     end)
    (fun e =>
       console_error "Erro ao excluir tipo de consulta:" ;;;
       toast {| title := "Erro ao excluir tipo de consulta";
                description := Some (message_or_unknown e);
                variant := destructive |}).
End Handlers.

(** The rows of the card Consultas Agendadas:
    [appointments.filter(appointment => appointment.patient !== null)]. *)
Definition has_patient (a : Appointment) : bool :=
  match patient a with Some _ => true | None => false end.

Definition scheduledConsultations (v : View) : list Appointment :=
  filter has_patient (appointments v).

End AppointmentScheduling.

(** ** ChangePassword *)

Module ChangePassword.

Record PasswordFormData := {
  currentPassword : string;
  newPassword : string;
  confirmPassword : string
}.

(** passwordSchema: three fields of at least six characters (code units),
    and the refinement newPassword === confirmPassword. *)
Definition passwordSchema (data : PasswordFormData) : bool :=
  (6 <=? String.length (currentPassword data))%nat
  && (6 <=? String.length (newPassword data))%nat
  && (6 <=? String.length (confirmPassword data))%nat
  && String.eqb (newPassword data) (confirmPassword data).

(** The argument of supabase.auth.updateUser. *)
Record UpdateUser := { password : string }.

Record State := {
  isLoading : bool;
  successMessage : string;
  toasts : list Toast;
  console : list string
}.

Record Outcome := {
  issued : list UpdateUser;
  after : State;
  form_reset : bool
}.

Section OnSubmit.
(** The auth service: the error it answers a request with, if any.  It
    sees the request and the session, never the form. *)
Variable updateUser : UpdateUser -> option string.

Definition onSubmit (data : PasswordFormData) (st : State) : Outcome :=
  let request := {| password := newPassword data |} in
  match updateUser request with
  | None =>
      {| issued := [request];
         after :=
           {| isLoading := false;
              successMessage := "Senha alterada com sucesso!";
              toasts :=
                toasts st
                ++ [ {| title := "Senha alterada com sucesso";
                        description := Some "Sua senha foi atualizada.";
                        variant := None |} ];
              console := console st |};
         form_reset := true |}
  | Some message =>
      {| issued := [request];
         after :=
           {| isLoading := false;
              successMessage := EmptyString;
              toasts :=
                toasts st
                ++ [ {| title := "Erro ao alterar senha";
                        description := Some message;
                        variant := destructive |} ];
              console := console st ++ ["Error changing password:"] |};
         form_reset := false |}
  end.

(** handleSubmit(onSubmit): the handler runs only on data the schema
    accepts; otherwise the field errors are shown and nothing is sent. *)
Definition handleSubmit (data : PasswordFormData) (st : State) : Outcome :=
  if passwordSchema data then onSubmit data st
  else {| issued := []; after := st; form_reset := false |}.
End OnSubmit.

End ChangePassword.

(** ** Vocabulary of the statements about the report *)

Module Grouping.
Import JsNumber FinancialReport.

Definition names (apps : list AppointmentWithPatient) : list string :=
  map app_patientName apps.

Definition named (k : string) (app : AppointmentWithPatient) : bool :=
  String.eqb (app_patientName app) k.

(** The records bearing a name, in input order. *)
Definition records_of (k : string) (apps : list AppointmentWithPatient) :=
  filter (named k) apps.

(** The sum as the program computes it: from 0, left to right, with the
    binary64 addition. *)
Definition sum (l : list number) : number := fold_left add l zero.

Definition subtotal (k : string) (apps : list AppointmentWithPatient) : number :=
  sum (map app_value (records_of k apps)).

Definition group (apps : list AppointmentWithPatient) (k : string) : PatientTotal :=
  {| patientName := k;
     totalValue := subtotal k apps;
     appointments := records_of k apps |}.

(** The distinct names of a list, each at the place of its first
    appearance. *)
Fixpoint first_appearances (l : list string) : list string :=
  match l with
  | [] => []
  | k :: r => k :: filter (fun x => negb (String.eqb x k)) (first_appearances r)
  end.

(** The place of the first occurrence of a name. *)
Fixpoint position (k : string) (l : list string) : option nat :=
  match l with
  | [] => None
  | x :: r =>
      if String.eqb x k then Some O else option_map S (position k r)
  end.

(** [x] first occurs in [l] before [y] first does. *)
Definition before (x y : string) (l : list string) : Prop :=
  exists i j, position x l = Some i /\ position y l = Some j /\ i < j.

(** The same as a test: the list is read up to the first of the two. *)
Fixpoint beforeb (x y : string) (l : list string) : bool :=
  match l with
  | [] => false
  | z :: r =>
      if String.eqb z y then false
      else if String.eqb z x then existsb (String.eqb y) r
      else beforeb x y r
  end.

(** No name of the input is a property inherited from Object.prototype. *)
Definition plain_names (apps : list AppointmentWithPatient) : Prop :=
  forall app, In app apps -> JsObject.inherited (app_patientName app) = false.

(** The exact value of a finite binary64 number, in units of 2^-1074. *)
Definition exact (x : number) : option Z :=
  match Prim2SF x with
  | S754_zero _ => Some 0%Z
  | S754_finite s m e =>
      let v := (Z.pos m * 2 ^ (e + 1074))%Z in
      Some (if s then (- v)%Z else v)
  | _ => None
  end.

Fixpoint exact_sum (l : list number) : option Z :=
  match l with
  | [] => Some 0%Z
  | x :: r =>
      match exact x, exact_sum r with
      | Some a, Some b => Some (a + b)%Z
      | _, _ => None
      end
  end.

(** The amount toFixed(2) displays for a finite number below 10^21, in
    hundredths. *)
Definition displayed (x : number) : option Z :=
  match toFixed2_parts x with
  | FixedHundredths s n => Some (if s then (- n)%Z else n)
  | _ => None
  end.

Fixpoint displayed_sum (l : list number) : option Z :=
  match l with
  | [] => Some 0%Z
  | x :: r =>
      match displayed x, displayed_sum r with
      | Some a, Some b => Some (a + b)%Z
      | _, _ => None
      end
  end.

(** The object that holds, under each of the names [ks], the group of that
    name. *)
Definition tabulate (apps : list AppointmentWithPatient) (ks : list string)
  : JsObject.t PatientTotal :=
  map (fun k => (k, group apps k)) ks.

(** Entries compared by the array index of their names. *)
Definition index_le {V : Type} (p q : string * V) : Prop :=
  (JsObject.index_of (fst p) <= JsObject.index_of (fst q))%N.

Definition record (i n : string) (v : number) : AppointmentWithPatient :=
  {| app_id := i; app_date := "2024-03-01"; app_patientName := n; app_value := v |}.
Arguments record i n v%_float.

End Grouping.

(** ** Vocabulary of the statements about array indices and the guard *)

Module Decimal.
Import JsObject.
Local Open Scope N_scope.

Definition digit_value (c : ascii) : N := N.of_nat (nat_of_ascii c - 48).

Definition width (s : string) : N := N.of_nat (String.length s).

End Decimal.

Module Guarding.
Import AppointmentScheduling.

(** Some appointment of the store references the type. *)
Definition referenced (typeId : string) (s : Store) : Prop :=
  exists r, In r (appointment_rows s) /\ row_appointment_type_id r = Some typeId.




End Guarding.

(** ** Example data *)

Module Examples.
Import JsNumber FinancialReport Grouping.

(** The spec's example: Ana twice, Bruno once. *)
Definition example_input : list AppointmentWithPatient :=
  [ record "a1" "Ana" 100.00; record "a2" "Ana" 50.50; record "a3" "Bruno" 75.25 ].


Definition no_faults : AppointmentScheduling.Faults :=
  {| AppointmentScheduling.check_fault := None;
     AppointmentScheduling.delete_fault := None;
     AppointmentScheduling.types_fault := None;
     AppointmentScheduling.appointments_fault := None |}.

Definition consulta_padrao : AppointmentScheduling.AppointmentType :=
  {| AppointmentScheduling.type_id := "t1";
     AppointmentScheduling.type_name := "Consulta Padrão";
     AppointmentScheduling.type_value := 150%float;
     AppointmentScheduling.type_user_id := "u1" |}.

Definition appointment_row : AppointmentScheduling.AppointmentRow :=
  {| AppointmentScheduling.row_id := "a1";
     AppointmentScheduling.row_patient_id := "p1";
     AppointmentScheduling.row_date := "2024-03-01";
     AppointmentScheduling.row_time := "09:00";
     AppointmentScheduling.row_value := 150%float;
     AppointmentScheduling.row_appointment_type_id := Some "t1";
     AppointmentScheduling.row_user_id := "u1" |}.

Definition world_of (rows : list AppointmentScheduling.AppointmentRow)
  : AppointmentScheduling.World :=
  {| AppointmentScheduling.store :=
       {| AppointmentScheduling.patients :=
            [ {| AppointmentScheduling.patient_id := "p1";
                 AppointmentScheduling.patient_name := "Ana" |} ];
          AppointmentScheduling.appointment_types := [ consulta_padrao ];
          AppointmentScheduling.appointment_rows := rows |};
     AppointmentScheduling.view :=
       {| AppointmentScheduling.currentUser := Some "u1";
          AppointmentScheduling.appointmentTypes := [ consulta_padrao ];
          AppointmentScheduling.appointments := [];
          AppointmentScheduling.toasts := [];
          AppointmentScheduling.console := [] |};
     AppointmentScheduling.requests := [] |}.

Definition world_in_use : AppointmentScheduling.World := world_of [ appointment_row ].

Definition world_unused : AppointmentScheduling.World := world_of [].

End Examples.

(** * The other handlers of the components *)

(** ** State, exceptions and cleanup *)

Module Effects.

Section Eff.
Variable St : Type.

(** A computation over a state that returns or throws. *)
Definition Eff (A : Type) : Type := St -> completion A * St.

Definition ret {A} (a : A) : Eff A := fun s => (Returned a, s).

Definition throw {A} (message : string) : Eff A := fun s => (Threw message, s).

Definition bind {A B} (m : Eff A) (k : A -> Eff B) : Eff B :=
  fun s =>
    match m s with
    | (Returned a, s') => k a s'
    | (Threw e, s') => (Threw e, s')
    end.

(** try { body } catch (e) { handler e } *)
Definition try_catch {A} (body : Eff A) (handler : string -> Eff A) : Eff A :=
  fun s =>
    match body s with
    | (Returned a, s') => (Returned a, s')
    | (Threw e, s') => handler e s'
    end.

(** try { body } finally { cleanup } *)
Definition finally {A} (body : Eff A) (cleanup : Eff unit) : Eff A :=
  fun s =>
    match body s with
    | (r, s') =>
        match cleanup s' with
        | (Returned _, s'') => (r, s'')
        | (Threw e, s'') => (Threw e, s'')
        end
    end.

Definition get : Eff St := fun s => (Returned s, s).

Definition modify (f : St -> St) : Eff unit := fun s => (Returned tt, f s).
End Eff.

Arguments ret {St A} a.
Arguments throw {St A} message.
Arguments bind {St A B} m k.
Arguments try_catch {St A} body handler.
Arguments finally {St A} body cleanup.
Arguments get {St}.
Arguments modify {St} f.

Declare Scope eff_scope.
Delimit Scope eff_scope with eff.
Notation "x <~ m ;; k" := (bind m (fun x => k))
  (at level 61, m at next level, right associativity) : eff_scope.
Notation "m >> k" := (bind m (fun _ => k))
  (at level 61, right associativity) : eff_scope.

End Effects.

(** ** PatientManagement *)

Module PatientManagement.
Import Effects.
Local Open Scope eff_scope.

(** z.infer<typeof patientSchema> *)
Record PatientData := {
  d_name : string;
  d_phone : string;
  d_email : string
}.

Record Patient := {
  id : string;
  name : string;
  phone : string;
  email : string;
  created_at : string;
  created_by : string
}.

Inductive Request :=
| GetUser
| SelectPatients
| UpdatePatient (patientId : string) (data : PatientData)
| InsertPatient (data : PatientData) (createdBy : string)
| DeletePatient (patientId : string).

Record State := {
  patients : list Patient;
  isLoading : bool;
  editingPatient : option Patient;
  form : PatientData;
  toasts : list Toast;
  console : list string
}.

(** The table patients, the signed-in user of the session, the component,
    and the calls made so far. *)
Record World := {
  table : list Patient;
  session : option string;
  ui : State;
  log : list Request
}.

(** Which remote calls fail, and with which message. *)
Record Faults := {
  fetch_fault : option string;
  save_fault : option string;
  delete_fault : option string
}.

Definition blank : PatientData :=
  {| d_name := EmptyString; d_phone := EmptyString; d_email := EmptyString |}.

Definition with_ui (f : State -> State) : Eff World unit :=
  modify (fun w =>
    {| table := table w; session := session w; ui := f (ui w); log := log w |}).

Definition setIsLoading (b : bool) : Eff World unit :=
  with_ui (fun s =>
    {| patients := patients s; isLoading := b; editingPatient := editingPatient s;
       form := form s; toasts := toasts s; console := console s |}).

Definition setPatients (f : list Patient -> list Patient) : Eff World unit :=
  with_ui (fun s =>
    {| patients := f (patients s); isLoading := isLoading s;
       editingPatient := editingPatient s; form := form s;
       toasts := toasts s; console := console s |}).

Definition setEditingPatient (p : option Patient) : Eff World unit :=
  with_ui (fun s =>
    {| patients := patients s; isLoading := isLoading s; editingPatient := p;
       form := form s; toasts := toasts s; console := console s |}).

Definition setForm (d : PatientData) : Eff World unit :=
  with_ui (fun s =>
    {| patients := patients s; isLoading := isLoading s;
       editingPatient := editingPatient s; form := d;
       toasts := toasts s; console := console s |}).

Definition toast (t : Toast) : Eff World unit :=
  with_ui (fun s =>
    {| patients := patients s; isLoading := isLoading s;
       editingPatient := editingPatient s; form := form s;
       toasts := toasts s ++ [t]; console := console s |}).

Definition console_error (line : string) : Eff World unit :=
  with_ui (fun s =>
    {| patients := patients s; isLoading := isLoading s;
       editingPatient := editingPatient s; form := form s;
       toasts := toasts s; console := console s ++ [line] |}).

Definition call (r : Request) : Eff World unit :=
  modify (fun w =>
    {| table := table w; session := session w; ui := ui w; log := log w ++ [r] |}).

Definition setTable (t : list Patient) : Eff World unit :=
  modify (fun w =>
    {| table := t; session := session w; ui := ui w; log := log w |}).

(** supabase.auth.getUser(): the user of the session, or null. *)
Definition getUser : Eff World (option string) :=
  call GetUser >> (w <~ get ;; ret (session w)).

Definition has_id (patientId : string) (p : Patient) : bool :=
  String.eqb (id p) patientId.

(** update({ name, phone, email }) on a row. *)
Definition updated (data : PatientData) (p : Patient) : Patient :=
  {| id := id p; name := d_name data; phone := d_phone data; email := d_email data;
     created_at := created_at p; created_by := created_by p |}.

Section Handlers.
Variable faults : Faults.
(** order('created_at', { ascending: false }) of the store. *)
Variable order_patients : list Patient -> list Patient.
(** What the store gives a new row: its id and its creation time. *)
Variable new_id : string.
Variable now : string.
(** The error of .single() when the rows are not exactly one. *)
Variable not_single : string.
(** The check of z.string().email(). *)
Variable is_email : string -> bool.
(** What the inputs on the page hold once the form is reset.  useForm is
    given no defaultValues: reset() resets the form element, which puts each
    input back to its defaultValue attribute (the values of the row in an
    edit dialog, nothing in the form of the card), and the values of the
    form are read from the inputs again. *)
Variable inputs_after_reset : State -> PatientData.

(** reset() of the form. *)
Definition reset : Eff World unit :=
  w <~ get ;; setForm (inputs_after_reset (ui w)).

(** patientSchema *)
Definition patientSchema (data : PatientData) : bool :=
  (2 <=? String.length (d_name data))%nat
  && (10 <=? String.length (d_phone data))%nat
  && is_email (d_email data).

(** from('patients').select('*').order('created_at', { ascending: false }) *)
Definition select_patients : Eff World (string + list Patient) :=
  call SelectPatients >>
  match fetch_fault faults with
  | Some e => ret (inl e)
  | None => w <~ get ;; ret (inr (order_patients (table w)))
  end.

(** from('patients').update({...}).eq('id', patientId).select().single():
    the row of that id is changed and returned; when the rows of that id
    are not exactly one, nothing is changed and the answer is an error. *)
Definition update_patient (patientId : string) (data : PatientData)
  : Eff World (string + Patient) :=
  call (UpdatePatient patientId data) >>
  match save_fault faults with
  | Some e => ret (inl e)
  | None =>
      w <~ get ;;
      match filter (has_id patientId) (table w) with
      | [p] =>
          setTable (map (fun r => if has_id patientId r then updated data r else r)
                        (table w)) >>
          ret (inr (updated data p))
      | _ => ret (inl not_single)
      end
  end.

(** from('patients').insert({ ...data, created_by }).select().single() *)
Definition insert_patient (data : PatientData) (createdBy : string)
  : Eff World (string + Patient) :=
  call (InsertPatient data createdBy) >>
  match save_fault faults with
  | Some e => ret (inl e)
  | None =>
      let row :=
        {| id := new_id; name := d_name data; phone := d_phone data;
           email := d_email data; created_at := now; created_by := createdBy |} in
      w <~ get ;;
      setTable (table w ++ [row]) >>
      ret (inr row)
  end.

(** from('patients').delete().eq('id', patientId) *)
Definition delete_patient (patientId : string) : Eff World (option string) :=
  call (DeletePatient patientId) >>
  match delete_fault faults with
  | Some e => ret (Some e)
  | None =>
      w <~ get ;;
      setTable (filter (fun p => negb (has_id patientId p)) (table w)) >>
      ret None
  end.

Definition fetchPatients : Eff World unit :=
  setIsLoading true >>
  r <~ select_patients ;;
  match r with
  | inl message =>
      console_error "Error fetching patients:" >>
      toast {| title := "Erro ao carregar pacientes";
               description := Some message;
               variant := destructive |}
  | inr data => setPatients (fun _ => data)
  end >>
  setIsLoading false.

Definition onSubmit (data : PatientData) : Eff World unit :=
  setIsLoading true >>
  finally
    (try_catch
       (user <~ getUser ;;
        match user with
        | None => throw "Usuário não autenticado"
        | Some userId =>
            w <~ get ;;
            let editing := editingPatient (ui w) in
            newPatient <~
              match editing with
              | Some edited =>
                  r <~ update_patient (id edited) data ;;
                  match r with
                  | inl error => throw error
                  | inr updatedPatient =>
                      toast {| title := "Paciente atualizado com sucesso";
                               description := Some "Os dados do paciente foram atualizados";
                               variant := None |} >>
                      ret updatedPatient
                  end
              | None =>
                  r <~ insert_patient data userId ;;
                  match r with
                  | inl error => throw error
                  | inr createdPatient =>
                      toast {| title := "Paciente cadastrado com sucesso";
                               description := Some "O novo paciente foi adicionado à lista";
                               variant := None |} >>
                      ret createdPatient
                  end
              end ;;
            setPatients (fun prevPatients =>
              match editing with
              | Some edited =>
                  map (fun p => if has_id (id edited) p then newPatient else p)
                      prevPatients
              | None => newPatient :: prevPatients
              end) >>
            reset >>
            setEditingPatient None
        end)
       (fun message =>
          console_error "Error saving patient:" >>
          toast {| title := "Erro ao salvar paciente";
                   description := Some message;
                   variant := destructive |}))
    (setIsLoading false).

(** handleSubmit(onSubmit): the handler runs on the values of the form when
    the schema accepts them. *)
Definition handleSubmit : Eff World unit :=
  w <~ get ;;
  if patientSchema (form (ui w)) then onSubmit (form (ui w)) else ret tt.

Definition handleEdit (patient : Patient) : Eff World unit :=
  setEditingPatient (Some patient) >>
  setForm {| d_name := name patient; d_phone := phone patient;
             d_email := email patient |}.

Definition handleDelete (patientId : string) : Eff World unit :=
  setIsLoading true >>
  finally
    (try_catch
       (error <~ delete_patient patientId ;;
        match error with
        | Some message => throw message
        | None =>
            setPatients (filter (fun p => negb (has_id patientId p))) >>
            toast {| title := "Paciente excluído com sucesso";
                     description := Some "O paciente foi removido da lista";
                     variant := None |}
        end)
       (fun message =>
          console_error "Error deleting patient:" >>
          toast {| title := "Erro ao excluir paciente";
                   description := Some message;
                   variant := destructive |}))
    (setIsLoading false).
End Handlers.

End PatientManagement.

(** ** Vocabulary of the statements about the patient list *)

Module PatientList.
Import PatientManagement.

(** The rows of the table have distinct ids (its primary key) and the list
    the component shows holds the same rows, in some order. *)
Definition in_step (w : World) : Prop :=
  NoDup (map id (table w)) /\ Permutation (patients (ui w)) (table w).

(** The last notification shown is a destructive one with this text. *)
Definition failed_with (message : string) (before after : list Toast) : Prop :=
  exists t, after = before ++ [t]
            /\ description t = Some message /\ variant t = destructive.

Definition as_data (p : Patient) : PatientData :=
  {| d_name := name p; d_phone := phone p; d_email := email p |}.

End PatientList.

(** ** Auth *)

Module Auth.
Import Effects.
Local Open Scope eff_scope.

(** z.infer<typeof authSchema>, as the values the one form of the three
    tabs holds. *)
Record AuthFormData := {
  email : string;
  password : string
}.

Inductive AuthMode := login | register | reset.

Inductive AuthRequest :=
| SignInWithPassword (email password : string)
| SignUp (email password : string)
| ResetPasswordForEmail (email : string).

(** What the component reads of an answer: the error, and whether
    data.user is there, with the length of its identities when it has
    them. *)
Record AuthAnswer := {
  error : option string;
  user : option (option nat)
}.

(** The table of getErrorMessage, an object literal. *)
Definition errorMessages : JsObject.t string :=
  [ ("Invalid login credentials", "E-mail ou senha incorretos");
    ("User already registered", "E-mail já cadastrado");
    ("Password should be at least 6 characters",
     "A senha deve ter pelo menos 6 caracteres");
    ("Invalid email", "E-mail inválido");
    ("Email not confirmed",
     "E-mail não confirmado. Por favor, verifique sua caixa de entrada.");
    ("Missing Supabase environment variables",
     "Erro de configuração. Por favor, contate o suporte.") ].

(** What getErrorMessage returns, and what the state errorMessage holds: a
    text; what is found under a name inherited from Object.prototype (a
    function, or for __proto__ the prototype object); what the function
    inherited under a name returns when React calls it on the previous
    state. *)
#[warnings="-register-all"]
Inductive Shown :=
| Text (s : string)
| InheritedObject (key : string)
| UpdaterResult (key : string) (previous : option Shown).

(** errorMessages[error] || error || 'Ocorreu um erro. Tente novamente.' *)
Definition getErrorMessage (error : string) : Shown :=
  match JsObject.get errorMessages error with
  | JsObject.Own translated =>
      if String.eqb translated EmptyString
      then (if String.eqb error EmptyString
            then Text "Ocorreu um erro. Tente novamente." else Text error)
      else Text translated
  | JsObject.Inherited => InheritedObject error
  | JsObject.Undefined =>
      if String.eqb error EmptyString
      then Text "Ocorreu um erro. Tente novamente." else Text error
  end.

Record State := {
  isLoading : bool;
  authMode : AuthMode;
  errorMessage : option Shown;
  form : AuthFormData;
  toasts : list Toast;
  console : list string;
  pushed : list string;
  issued : list AuthRequest
}.

Definition setIsLoading (b : bool) : Eff State unit :=
  modify (fun s =>
    {| isLoading := b; authMode := authMode s; errorMessage := errorMessage s;
       form := form s; toasts := toasts s; console := console s;
       pushed := pushed s; issued := issued s |}).

(** setErrorMessage(value), the setter of useState: a value that is a
    function is taken for an updater, and the state becomes what it returns
    for the previous state; any other value becomes the state.  Of the
    names inherited from Object.prototype only __proto__ holds an object,
    the others hold functions. *)
Definition setErrorMessage (m : option Shown) : Eff State unit :=
  modify (fun s =>
    {| isLoading := isLoading s; authMode := authMode s;
       errorMessage :=
         match m with
         | Some (InheritedObject key) =>
             if String.eqb key "__proto__" then m
             else Some (UpdaterResult key (errorMessage s))
         | _ => m
         end;
       form := form s; toasts := toasts s; console := console s;
       pushed := pushed s; issued := issued s |}).

Definition setAuthMode (m : AuthMode) : Eff State unit :=
  modify (fun s =>
    {| isLoading := isLoading s; authMode := m; errorMessage := errorMessage s;
       form := form s; toasts := toasts s; console := console s;
       pushed := pushed s; issued := issued s |}).

(** reset() of the form: useForm is given no defaultValues and the inputs
    of the tabs no defaultValue, so both fields are empty again. *)
Definition form_reset : Eff State unit :=
  modify (fun s =>
    {| isLoading := isLoading s; authMode := authMode s;
       errorMessage := errorMessage s;
       form := {| email := EmptyString; password := EmptyString |};
       toasts := toasts s; console := console s;
       pushed := pushed s; issued := issued s |}).

Definition toast (t : Toast) : Eff State unit :=
  modify (fun s =>
    {| isLoading := isLoading s; authMode := authMode s;
       errorMessage := errorMessage s; form := form s;
       toasts := toasts s ++ [t]; console := console s;
       pushed := pushed s; issued := issued s |}).

Definition console_error (line : string) : Eff State unit :=
  modify (fun s =>
    {| isLoading := isLoading s; authMode := authMode s;
       errorMessage := errorMessage s; form := form s;
       toasts := toasts s; console := console s ++ [line];
       pushed := pushed s; issued := issued s |}).

(** router.push *)
Definition push (route : string) : Eff State unit :=
  modify (fun s =>
    {| isLoading := isLoading s; authMode := authMode s;
       errorMessage := errorMessage s; form := form s;
       toasts := toasts s; console := console s;
       pushed := pushed s ++ [route]; issued := issued s |}).

Section Handlers.
(** The auth service: its answer to a request. *)
Variable service : AuthRequest -> AuthAnswer.
(** The check of z.string().email(). *)
Variable is_email : string -> bool.

Definition authSchema (data : AuthFormData) : bool :=
  is_email (email data) && (6 <=? String.length (password data))%nat.

Definition send (r : AuthRequest) : Eff State AuthAnswer :=
  modify (fun s =>
    {| isLoading := isLoading s; authMode := authMode s;
       errorMessage := errorMessage s; form := form s;
       toasts := toasts s; console := console s;
       pushed := pushed s; issued := issued s ++ [r] |}) >>
  ret (service r).

Definition onSubmit (data : AuthFormData) : Eff State unit :=
  setIsLoading true >>
  setErrorMessage None >>
  finally
    (try_catch
       (s <~ get ;;
        let mode := authMode s in
        result <~
          match mode with
          | login => send (SignInWithPassword (email data) (password data))
          | register => send (SignUp (email data) (password data))
          | reset => send (ResetPasswordForEmail (email data))
          end ;;
        match error result with
        | Some message => throw message
        | None =>
            match mode with
            | register =>
                match user result with
                | Some (Some O) =>
                    setErrorMessage
                      (Some (Text "E-mail já cadastrado. Por favor, faça login ou use a opção de recuperar senha."))
                | _ =>
                    toast {| title := "Cadastro realizado com sucesso";
                             description :=
                               Some "Verifique seu e-mail para confirmar o cadastro.";
                             variant := None |}
                end
            | login =>
                match user result with
                | Some _ =>
                    toast {| title := "Login realizado com sucesso";
                             description := Some "Bem-vindo ao Clinic Manager!";
                             variant := None |} >>
                    push "/dashboard"
                | None => ret tt
                end
            | reset =>
                toast {| title := "E-mail de recuperação enviado";
                         description :=
                           Some "Verifique sua caixa de entrada para redefinir sua senha.";
                         variant := None |}
            end >>
            form_reset
        end)
       (fun message =>
          console_error "Auth error:" >>
          setErrorMessage (Some (getErrorMessage message))))
    (setIsLoading false).

(** handleSubmit(onSubmit), the same in the three tabs: the handler runs
    on the values of the form when authSchema accepts them. *)
Definition handleSubmit : Eff State unit :=
  s <~ get ;;
  if authSchema (form s) then onSubmit (form s) else ret tt.
End Handlers.

End Auth.

(** ** The pages *)

Module Pages.

Record User := {
  user_id : string;
  user_email : option string
}.

(** What a page shows. *)
Inductive Rendered :=
| Spinner
| AuthForm
| Nothing
| DashboardFor (userEmail : string)
| Authenticating.

(** The state a page is left in by its effect, and the route it pushed. *)
Record Visit := {
  rendered : Rendered;
  redirect : option string
}.

(** Home: checkUser, then what the page renders. *)
Definition Home (user : option User) : Visit :=
  match user with
  | Some _ => {| rendered := Spinner; redirect := Some "/dashboard" |}
  | None => {| rendered := AuthForm; redirect := None |}
  end.

(** DashboardPage: getUser, then what the page renders; an e-mail that is
    undefined or empty is falsy. *)
Definition DashboardPage (user : option User) : Visit :=
  match user with
  | Some u =>
      {| rendered :=
           match user_email u with
           | Some e =>
               if String.eqb e EmptyString then Nothing else DashboardFor e
           | None => Nothing
           end;
         redirect := None |}
  | None => {| rendered := Spinner; redirect := Some "/" |}
  end.

(** AuthCallbackPage: handleAuthCallback on the answer of getSession. *)
Definition AuthCallbackPage (error : option string) (session : bool) : Visit :=
  match error with
  | Some _ => {| rendered := Authenticating; redirect := Some "/" |}
  | None =>
      if session
      then {| rendered := Authenticating; redirect := Some "/dashboard" |}
      else {| rendered := Authenticating; redirect := None |}
  end.

(** What the auth service answers to the pages: getUser, and the error and
    the session of getSession. *)
Record Session := {
  getUser : option User;
  getSession_error : option string;
  getSession : bool
}.

(** The page of a route of the app directory. *)
Definition page (route : string) (s : Session) : option Visit :=
  if String.eqb route "/" then Some (Home (getUser s))
  else if String.eqb route "/dashboard" then Some (DashboardPage (getUser s))
  else if String.eqb route "/auth/callback"
       then Some (AuthCallbackPage (getSession_error s) (getSession s))
  else None.

(** Where a visit of the route ends: the route pushed, or the route itself. *)
Definition lands (route : string) (s : Session) : string :=
  match page route s with
  | Some v => match redirect v with Some r => r | None => route end
  | None => route
  end.

End Pages.

(** ** Vocabulary of the statements about the auth form *)

Module AuthFacts.
Import Auth.

(** The request a submission makes in each mode. *)
Definition request_for (mode : AuthMode) (data : AuthFormData) : AuthRequest :=
  match mode with
  | login => SignInWithPassword (email data) (password data)
  | register => SignUp (email data) (password data)
  | reset => ResetPasswordForEmail (email data)
  end.

(** The message is one of the keys of the table of getErrorMessage. *)
Definition known (message : string) : bool :=
  match JsObject.own errorMessages message with Some _ => true | None => false end.

End AuthFacts.

(** ** Vocabulary of the statements about the references of the store *)

Module References.
Import AppointmentScheduling.

(** Every appointment that names a type names one of the table. *)
Definition references_resolve (s : Store) : Prop :=
  forall r t,
    In r (appointment_rows s) -> row_appointment_type_id r = Some t ->
    exists ty, In ty (appointment_types s) /\ type_id ty = t.

End References.

(** ** AppointmentScheduling: the forms and the other handlers *)

Module SchedulingScreen.
Import JsNumber Effects.
Module AS := AppointmentScheduling.
Local Open Scope eff_scope.

(** The values the appointment form holds.  handleEdit can set the type to
    null. *)
Record FormValues := {
  v_patient : string;
  v_date : string;
  v_time : string;
  v_value : number;
  v_appointmentType : option string
}.

(** z.infer<typeof appointmentSchema> *)
Record AppointmentFormData := {
  patient : string;
  date : string;
  time : string;
  value : number;
  appointmentType : string
}.

(** z.infer<typeof appointmentTypeSchema> *)
Record AppointmentTypeFormData := {
  t_name : string;
  t_value : number
}.

Record Ui := {
  isLoading : bool;
  editingAppointment : option AS.Appointment;
  editingAppointmentType : option AS.AppointmentType;
  isAddingAppointmentType : bool;
  isCreatingAppointment : bool;
  isEditDialogOpen : bool;
  isEditTypeDialogOpen : bool;
  patients : list AS.Patient;
  formValues : FormValues;
  typeFormValues : option AppointmentTypeFormData;
  typeDefaultValues : option AppointmentTypeFormData
}.

(** The store, the lists and the notifications of the component as before,
    with the rest of its state. *)
Record Screen := {
  world : AS.World;
  ui : Ui
}.

(** Which of the other remote calls fail, and with which message. *)
Record Faults := {
  fetches : AS.Faults;
  patients_fault : option string;
  submit_fault : option string;
  delete_fault : option string;
  add_type_fault : option string;
  update_type_fault : option string
}.

(** A computation of the component as written before, run on the world. *)
Definition lift {A} (m : AS.M A) : Eff Screen A :=
  fun s =>
    let '(r, w') := m (world s) in
    (r, {| world := w'; ui := ui s |}).

Definition with_ui (f : Ui -> Ui) : Eff Screen unit :=
  modify (fun s => {| world := world s; ui := f (ui s) |}).

Definition setIsLoading (b : bool) : Eff Screen unit :=
  with_ui (fun u =>
    {| isLoading := b; editingAppointment := editingAppointment u;
       editingAppointmentType := editingAppointmentType u;
       isAddingAppointmentType := isAddingAppointmentType u;
       isCreatingAppointment := isCreatingAppointment u;
       isEditDialogOpen := isEditDialogOpen u;
       isEditTypeDialogOpen := isEditTypeDialogOpen u;
       patients := patients u; formValues := formValues u;
       typeFormValues := typeFormValues u;
       typeDefaultValues := typeDefaultValues u |}).

Definition setEditingAppointment (a : option AS.Appointment) : Eff Screen unit :=
  with_ui (fun u =>
    {| isLoading := isLoading u; editingAppointment := a;
       editingAppointmentType := editingAppointmentType u;
       isAddingAppointmentType := isAddingAppointmentType u;
       isCreatingAppointment := isCreatingAppointment u;
       isEditDialogOpen := isEditDialogOpen u;
       isEditTypeDialogOpen := isEditTypeDialogOpen u;
       patients := patients u; formValues := formValues u;
       typeFormValues := typeFormValues u;
       typeDefaultValues := typeDefaultValues u |}).

Definition setEditingAppointmentType (t : option AS.AppointmentType)
  : Eff Screen unit :=
  with_ui (fun u =>
    {| isLoading := isLoading u; editingAppointment := editingAppointment u;
       editingAppointmentType := t;
       isAddingAppointmentType := isAddingAppointmentType u;
       isCreatingAppointment := isCreatingAppointment u;
       isEditDialogOpen := isEditDialogOpen u;
       isEditTypeDialogOpen := isEditTypeDialogOpen u;
       patients := patients u; formValues := formValues u;
       typeFormValues := typeFormValues u;
       typeDefaultValues := typeDefaultValues u |}).

Definition setIsAddingAppointmentType (b : bool) : Eff Screen unit :=
  with_ui (fun u =>
    {| isLoading := isLoading u; editingAppointment := editingAppointment u;
       editingAppointmentType := editingAppointmentType u;
       isAddingAppointmentType := b;
       isCreatingAppointment := isCreatingAppointment u;
       isEditDialogOpen := isEditDialogOpen u;
       isEditTypeDialogOpen := isEditTypeDialogOpen u;
       patients := patients u; formValues := formValues u;
       typeFormValues := typeFormValues u;
       typeDefaultValues := typeDefaultValues u |}).

Definition setIsCreatingAppointment (b : bool) : Eff Screen unit :=
  with_ui (fun u =>
    {| isLoading := isLoading u; editingAppointment := editingAppointment u;
       editingAppointmentType := editingAppointmentType u;
       isAddingAppointmentType := isAddingAppointmentType u;
       isCreatingAppointment := b;
       isEditDialogOpen := isEditDialogOpen u;
       isEditTypeDialogOpen := isEditTypeDialogOpen u;
       patients := patients u; formValues := formValues u;
       typeFormValues := typeFormValues u;
       typeDefaultValues := typeDefaultValues u |}).

Definition setIsEditDialogOpen (b : bool) : Eff Screen unit :=
  with_ui (fun u =>
    {| isLoading := isLoading u; editingAppointment := editingAppointment u;
       editingAppointmentType := editingAppointmentType u;
       isAddingAppointmentType := isAddingAppointmentType u;
       isCreatingAppointment := isCreatingAppointment u;
       isEditDialogOpen := b;
       isEditTypeDialogOpen := isEditTypeDialogOpen u;
       patients := patients u; formValues := formValues u;
       typeFormValues := typeFormValues u;
       typeDefaultValues := typeDefaultValues u |}).

Definition setIsEditTypeDialogOpen (b : bool) : Eff Screen unit :=
  with_ui (fun u =>
    {| isLoading := isLoading u; editingAppointment := editingAppointment u;
       editingAppointmentType := editingAppointmentType u;
       isAddingAppointmentType := isAddingAppointmentType u;
       isCreatingAppointment := isCreatingAppointment u;
       isEditDialogOpen := isEditDialogOpen u;
       isEditTypeDialogOpen := b;
       patients := patients u; formValues := formValues u;
       typeFormValues := typeFormValues u;
       typeDefaultValues := typeDefaultValues u |}).

Definition setPatients (l : list AS.Patient) : Eff Screen unit :=
  with_ui (fun u =>
    {| isLoading := isLoading u; editingAppointment := editingAppointment u;
       editingAppointmentType := editingAppointmentType u;
       isAddingAppointmentType := isAddingAppointmentType u;
       isCreatingAppointment := isCreatingAppointment u;
       isEditDialogOpen := isEditDialogOpen u;
       isEditTypeDialogOpen := isEditTypeDialogOpen u;
       patients := l; formValues := formValues u;
       typeFormValues := typeFormValues u;
       typeDefaultValues := typeDefaultValues u |}).

Definition setFormValues (v : FormValues) : Eff Screen unit :=
  with_ui (fun u =>
    {| isLoading := isLoading u; editingAppointment := editingAppointment u;
       editingAppointmentType := editingAppointmentType u;
       isAddingAppointmentType := isAddingAppointmentType u;
       isCreatingAppointment := isCreatingAppointment u;
       isEditDialogOpen := isEditDialogOpen u;
       isEditTypeDialogOpen := isEditTypeDialogOpen u;
       patients := patients u; formValues := v;
       typeFormValues := typeFormValues u;
       typeDefaultValues := typeDefaultValues u |}).

(** resetAppointmentType(values): the values given become the values of
    the form and its default values; without values the form goes back to
    its default values, which are those of the last reset with values, or
    none (useForm is given no defaultValues). *)
Definition resetAppointmentType (v : option AppointmentTypeFormData)
  : Eff Screen unit :=
  with_ui (fun u =>
    let defaults :=
      match v with
      | Some _ => v
      | None => typeDefaultValues u
      end in
    {| isLoading := isLoading u; editingAppointment := editingAppointment u;
       editingAppointmentType := editingAppointmentType u;
       isAddingAppointmentType := isAddingAppointmentType u;
       isCreatingAppointment := isCreatingAppointment u;
       isEditDialogOpen := isEditDialogOpen u;
       isEditTypeDialogOpen := isEditTypeDialogOpen u;
       patients := patients u; formValues := formValues u;
       typeFormValues := defaults;
       typeDefaultValues := defaults |}).

Definition toast (t : Toast) : Eff Screen unit := lift (AS.toast t).

Definition console_error (line : string) : Eff Screen unit :=
  lift (AS.console_error line).

Definition currentUser : Eff Screen (option string) := lift AS.getCurrentUser.

(** A call that changes the store: on a failure the store is as it was and
    the error is the answer. *)
Definition mutate (fault : option string) (run : AS.Store -> option string * AS.Store)
  : Eff Screen (option string) :=
  fun s =>
    match fault with
    | Some e => (Returned (Some e), s)
    | None =>
        let '(answer, store') := run (AS.store (world s)) in
        (Returned answer,
         {| world :=
              {| AS.store := store';
                 AS.view := AS.view (world s);
                 AS.requests := AS.requests (world s) |};
            ui := ui s |})
    end.

(** The object sent by onSubmit. *)
Record AppointmentData := {
  patient_id : string;
  data_date : string;
  data_time : string;
  data_value : number;
  user_id : string;
  appointment_type_id : string
}.

Definition row_of (rowId : string) (d : AppointmentData) : AS.AppointmentRow :=
  {| AS.row_id := rowId;
     AS.row_patient_id := patient_id d;
     AS.row_date := data_date d;
     AS.row_time := data_time d;
     AS.row_value := data_value d;
     AS.row_appointment_type_id := Some (appointment_type_id d);
     AS.row_user_id := user_id d |}.

Definition set_rows (rows : list AS.AppointmentRow) (s : AS.Store) : AS.Store :=
  {| AS.patients := AS.patients s;
     AS.appointment_types := AS.appointment_types s;
     AS.appointment_rows := rows |}.

Definition set_types (types : list AS.AppointmentType) (s : AS.Store) : AS.Store :=
  {| AS.patients := AS.patients s;
     AS.appointment_types := types;
     AS.appointment_rows := AS.appointment_rows s |}.

Definition is_row (rowId : string) (r : AS.AppointmentRow) : bool :=
  String.eqb (AS.row_id r) rowId.

Section Handlers.
Variable faults : Faults.
Variable order_types : list AS.AppointmentType -> list AS.AppointmentType.
Variable order_appointments : list AS.Appointment -> list AS.Appointment.
(** order('name') on patients. *)
Variable order_patients : list AS.Patient -> list AS.Patient.
(** The id the store gives a new row. *)
Variable new_id : string.
(** The error of .single() when the rows are not exactly one. *)
Variable not_single : string.
(** The check of z.string().uuid(). *)
Variable is_uuid : string -> bool.
(** new Date().toISOString().split('T')[0] when the form was set up. *)
Variable today : string.

Definition fetchAppointments : Eff Screen unit :=
  lift (AS.fetchAppointments (fetches faults) order_appointments).

Definition fetchAppointmentTypes : Eff Screen unit :=
  lift (AS.fetchAppointmentTypes (fetches faults) order_types).

Definition handleDeleteAppointmentType (typeId : string) : Eff Screen unit :=
  lift (AS.handleDeleteAppointmentType (fetches faults) order_types
          order_appointments typeId).

(** from('appointments').insert(appointmentData).select().single() *)
Definition insert_appointment (d : AppointmentData) : Eff Screen (option string) :=
  mutate (submit_fault faults)
    (fun s => (None, set_rows (AS.appointment_rows s ++ [row_of new_id d]) s)).

(** from('appointments').update(appointmentData).eq('id', id).select().single():
    when the rows of that id are not exactly one, nothing is changed and the
    answer is an error. *)
Definition update_appointment (rowId : string) (d : AppointmentData)
  : Eff Screen (option string) :=
  mutate (submit_fault faults)
    (fun s =>
       match filter (is_row rowId) (AS.appointment_rows s) with
       | [_] =>
           (None,
            set_rows (map (fun r => if is_row rowId r then row_of rowId d else r)
                          (AS.appointment_rows s)) s)
       | _ => (Some not_single, s)
       end).

(** from('appointments').delete().eq('id', appointmentId) *)
Definition delete_appointment (appointmentId : string) : Eff Screen (option string) :=
  mutate (delete_fault faults)
    (fun s =>
       (None,
        set_rows (filter (fun r => negb (is_row appointmentId r))
                         (AS.appointment_rows s)) s)).

(** from('appointment_types').insert({ name, value, user_id }).select().single() *)
Definition insert_appointment_type (d : AppointmentTypeFormData) (user : string)
  : Eff Screen (option string) :=
  mutate (add_type_fault faults)
    (fun s =>
       (None,
        set_types (AS.appointment_types s
                   ++ [ {| AS.type_id := new_id; AS.type_name := t_name d;
                           AS.type_value := t_value d; AS.type_user_id := user |} ])
                  s)).

(** from('appointment_types').update({ name, value }).eq('id', id).eq('user_id', user) *)
Definition update_appointment_type (typeId : string) (user : string)
    (d : AppointmentTypeFormData) : Eff Screen (option string) :=
  mutate (update_type_fault faults)
    (fun s =>
       (None,
        set_types
          (map (fun t =>
                  if String.eqb (AS.type_id t) typeId
                     && String.eqb (AS.type_user_id t) user
                  then {| AS.type_id := AS.type_id t; AS.type_name := t_name d;
                          AS.type_value := t_value d;
                          AS.type_user_id := AS.type_user_id t |}
                  else t)
               (AS.appointment_types s)) s)).

(** from('patients').select('id, name').order('name') *)
Definition fetchPatients : Eff Screen unit :=
  try_catch
    (s <~ get ;;
     match patients_fault faults with
     | Some e => throw e
     | None => setPatients (order_patients (AS.patients (AS.store (world s))))
     end)
    (fun e =>
       toast {| title := "Erro ao carregar pacientes";
                description := Some e; variant := destructive |}).

(** The default values of the appointment form, to which reset() returns. *)
Definition defaultValues : FormValues :=
  {| v_patient := EmptyString; v_date := today; v_time := EmptyString;
     v_value := zero; v_appointmentType := Some EmptyString |}.

Definition reset : Eff Screen unit := setFormValues defaultValues.

Definition onSubmit (formData : AppointmentFormData) : Eff Screen unit :=
  user <~ currentUser ;;
  match user with
  | None => ret tt
  | Some userId =>
      setIsLoading true >>
      finally
        (try_catch
           (let appointmentData :=
              {| patient_id := patient formData;
                 data_date := date formData;
                 data_time := time formData;
                 data_value := value formData;
                 user_id := userId;
                 appointment_type_id := appointmentType formData |} in
            s <~ get ;;
            let editing := editingAppointment (ui s) in
            error <~
              match editing with
              | Some edited => update_appointment (AS.id edited) appointmentData
              | None => insert_appointment appointmentData
              end ;;
            match error with
            | Some message => throw message
            | None =>
                toast {| title :=
                           match editing with
                           | Some _ => "Consulta atualizada"
                           | None => "Consulta agendada"
                           end;
                         description := Some "A operação foi realizada com sucesso.";
                         variant := None |} >>
                fetchAppointments >>
                reset >>
                setEditingAppointment None >>
                setIsCreatingAppointment false >>
                setIsEditDialogOpen false
            end)
           (fun message =>
              console_error "Erro ao salvar consulta:" >>
              toast {| title := "Erro ao salvar consulta";
                       description := Some message;
                       variant := destructive |}))
        (setIsLoading false)
  end.

Definition handleEdit (appointment : AS.Appointment) : Eff Screen unit :=
  setEditingAppointment (Some appointment) >>
  setFormValues
    {| v_patient := AS.a_patient_id appointment;
       v_date := AS.date appointment;
       v_time := AS.time appointment;
       v_value := AS.value appointment;
       v_appointmentType := AS.appointment_type_id appointment |} >>
  setIsEditDialogOpen true.

Definition handleDelete (appointmentId : string) : Eff Screen unit :=
  try_catch
    (error <~ delete_appointment appointmentId ;;
     match error with
     | Some message => throw message
     | None =>
         toast {| title := "Consulta excluída com sucesso";
                  description := None; variant := None |} >>
         fetchAppointments
     end)
    (fun message =>
       console_error "Erro ao excluir consulta:" >>
       toast {| title := "Erro ao excluir consulta";
                description := Some message;
                variant := destructive |}).

Definition handleAddAppointmentType (data : AppointmentTypeFormData)
  : Eff Screen unit :=
  user <~ currentUser ;;
  match user with
  | None => ret tt
  | Some userId =>
      try_catch
        (error <~ insert_appointment_type data userId ;;
         match error with
         | Some message => throw message
         | None =>
             toast {| title := "Tipo de consulta adicionado com sucesso";
                      description := None; variant := None |} >>
             setIsAddingAppointmentType false >>
             resetAppointmentType None >>
             fetchAppointmentTypes
         end)
        (fun message =>
           console_error "Erro ao adicionar tipo de consulta:" >>
           toast {| title := "Erro ao adicionar tipo de consulta";
                    description := Some (AS.message_or_unknown message);
                    variant := destructive |})
  end.

Definition handleEditAppointmentType (type : AS.AppointmentType) : Eff Screen unit :=
  setEditingAppointmentType (Some type) >>
  resetAppointmentType
    (Some {| t_name := AS.type_name type; t_value := AS.type_value type |}) >>
  setIsEditTypeDialogOpen true.

Definition handleUpdateAppointmentType (data : AppointmentTypeFormData)
  : Eff Screen unit :=
  user <~ currentUser ;;
  s <~ get ;;
  match user, editingAppointmentType (ui s) with
  | Some userId, Some edited =>
      try_catch
        (error <~ update_appointment_type (AS.type_id edited) userId data ;;
         match error with
         | Some message => throw message
         | None =>
             toast {| title := "Tipo de consulta atualizado com sucesso";
                      description := None; variant := None |} >>
             setIsEditTypeDialogOpen false >>
             setEditingAppointmentType None >>
             fetchAppointmentTypes
         end)
        (fun message =>
           console_error "Erro ao atualizar tipo de consulta:" >>
           toast {| title := "Erro ao atualizar tipo de consulta";
                    description := Some (AS.message_or_unknown message);
                    variant := destructive |})
  | _, _ => ret tt
  end.

(** z.number().min(0): a number that is not NaN and not below 0. *)
Definition number_min_0 (v : number) : bool :=
  match Prim2SF v with
  | S754_nan => false
  | _ => negb (PrimFloat.ltb v zero)
  end.

Definition nonempty (s : string) : bool := negb (String.eqb s EmptyString).

(** appointmentSchema on the values of the form. *)
Definition appointmentSchema (v : FormValues) : option AppointmentFormData :=
  match v_appointmentType v with
  | Some type =>
      if is_uuid (v_patient v) && nonempty (v_patient v)
         && nonempty (v_date v) && nonempty (v_time v)
         && number_min_0 (v_value v) && nonempty type
      then Some {| patient := v_patient v; date := v_date v; time := v_time v;
                   value := v_value v; appointmentType := type |}
      else None
  | None => None
  end.

(** appointmentTypeSchema on the values of the type form. *)
Definition appointmentTypeSchema (v : option AppointmentTypeFormData)
  : option AppointmentTypeFormData :=
  match v with
  | Some d => if nonempty (t_name d) && number_min_0 (t_value d) then Some d else None
  | None => None
  end.

(** handleSubmit(onSubmit) *)
Definition handleSubmit : Eff Screen unit :=
  s <~ get ;;
  match appointmentSchema (formValues (ui s)) with
  | Some formData => onSubmit formData
  | None => ret tt
  end.

(** handleSubmitAppointmentType(isEditing ? handleUpdateAppointmentType
    : handleAddAppointmentType) *)
Definition handleSubmitAppointmentType (isEditing : bool) : Eff Screen unit :=
  s <~ get ;;
  match appointmentTypeSchema (typeFormValues (ui s)) with
  | Some data =>
      if isEditing then handleUpdateAppointmentType data
      else handleAddAppointmentType data
  | None => ret tt
  end.
End Handlers.

End SchedulingScreen.

(** ** Vocabulary of the statements about the scheduling screen *)

Module Scheduled.
Import JsNumber SchedulingScreen.

Definition rows (s : Screen) : list AS.AppointmentRow :=
  AS.appointment_rows (AS.store (world s)).

Definition types (s : Screen) : list AS.AppointmentType :=
  AS.appointment_types (AS.store (world s)).

Definition listed (s : Screen) : list AS.Appointment :=
  AS.appointments (AS.view (world s)).

Definition listed_types (s : Screen) : list AS.AppointmentType :=
  AS.appointmentTypes (AS.view (world s)).

Definition notified (s : Screen) : list Toast :=
  AS.toasts (AS.view (world s)).

Definition signed_in (user : string) (s : Screen) : Prop :=
  AS.currentUser (AS.view (world s)) = Some user.

(** The list of a query is the rows it selects, in some order. *)
Definition reorders {A} (order : list A -> list A) : Prop :=
  forall l, Permutation (order l) l.

(** No stored value is NaN or below 0. *)
Definition values_valid (st : AS.Store) : Prop :=
  (forall r, In r (AS.appointment_rows st) -> number_min_0 (AS.row_value r) = true)
  /\ (forall t, In t (AS.appointment_types st) ->
                number_min_0 (AS.type_value t) = true).

End Scheduled.

(** ** Examples on the scheduling screen *)

Module ScheduleExamples.
Import SchedulingScreen.

Definition no_faults : Faults :=
  {| fetches := Examples.no_faults; patients_fault := None; submit_fault := None;
     delete_fault := None; add_type_fault := None; update_type_fault := None |}.

Definition closed : Ui :=
  {| isLoading := false; editingAppointment := None;
     editingAppointmentType := None; isAddingAppointmentType := false;
     isCreatingAppointment := false; isEditDialogOpen := false;
     isEditTypeDialogOpen := false; patients := [];
     formValues := defaultValues "2024-03-01"; typeFormValues := None;
     typeDefaultValues := None |}.

(** Ana's appointment of type Consulta Padrão, nothing open. *)
Definition screen : Screen :=
  {| world := Examples.world_in_use; ui := closed |}.

(** The same with the type Consulta Padrão open in its edit form. *)
Definition editing_type : Screen :=
  snd (handleEditAppointmentType Examples.consulta_padrao screen).

(** The same with a type open that the table does not have. *)
Definition editing_missing_type : Screen :=
  snd (handleEditAppointmentType
         {| AS.type_id := "t9"; AS.type_name := "Avaliação";
            AS.type_value := 90%float; AS.type_user_id := "u1" |} screen).

Definition booking : AppointmentFormData :=
  {| patient := "p1"; date := "2024-03-02"; time := "10:00";
     value := 150%float; appointmentType := "t1" |}.

Definition retorno : AppointmentTypeFormData :=
  {| t_name := "Retorno"; t_value := 80%float |}.

(** An appointment whose type is null. *)
Definition typeless : AS.Appointment :=
  {| AS.id := "a5"; AS.a_patient_id := "p1"; AS.date := "2024-03-03";
     AS.time := "11:00"; AS.value := 100%float; AS.appointment_type_id := None;
     AS.patient := Some {| AS.patient_id := "p1"; AS.patient_name := "Ana" |};
     AS.appointment_type := None |}.

(** The check of the patient's id, on the ids of these examples. *)
Definition is_example_id (s : string) : bool := String.eqb s "p1".

End ScheduleExamples.

(** ** date-fns: format, and the Date it is given *)

Module DateFns.
Import JsNumber JsObject.
Local Open Scope Z_scope.

(** A day of the calendar. *)
Record Day := { year : Z; month : Z; day : Z }.

Definition leap (y : Z) : bool :=
  (y mod 4 =? 0) && (negb (y mod 100 =? 0) || (y mod 400 =? 0)).

Definition days_in_month (y m : Z) : Z :=
  if m =? 2 then (if leap y then 29 else 28)
  else if (m =? 4) || (m =? 6) || (m =? 9) || (m =? 11) then 30
  else 31.

Definition is_day (d : Day) : bool :=
  (1 <=? month d) && (month d <=? 12)
  && (1 <=? day d) && (day d <=? days_in_month (year d) (month d)).

Definition digit_of (c : ascii) : Z := Z.of_nat (nat_of_ascii c - 48).

(** [new Date(s)] on a text of the date-only form YYYY-MM-DD that names a
    day of the calendar: the Date is 00:00 UTC of that day.  The result is
    the day; other texts are not modelled. *)
Definition parse (s : string) : option Day :=
  match s with
  | String y1 (String y2 (String y3 (String y4 (String sep1
      (String m1 (String m2 (String sep2
        (String d1 (String d2 EmptyString))))))))) =>
      if forallb is_digit [y1; y2; y3; y4; m1; m2; d1; d2]
         && Ascii.eqb sep1 "-" && Ascii.eqb sep2 "-"
      then
        let d :=
          {| year := 1000 * digit_of y1 + 100 * digit_of y2
                     + 10 * digit_of y3 + digit_of y4;
             month := 10 * digit_of m1 + digit_of m2;
             day := 10 * digit_of d1 + digit_of d2 |} in
        if is_day d then Some d else None
      else None
  | _ => None
  end.

(** The day before. *)
Definition previous (d : Day) : Day :=
  if 1 <? day d
  then {| year := year d; month := month d; day := day d - 1 |}
  else if 1 <? month d
  then {| year := year d; month := month d - 1;
          day := days_in_month (year d) (month d - 1) |}
  else {| year := year d - 1; month := 12; day := 31 |}.

(** addLeadingZeros(n, 2) *)
Definition pad2 (n : Z) : string :=
  let d := digits n in
  match String.length d with
  | 1%nat => ("0" ++ d)%string
  | _ => d
  end.

(** The pattern 'dd/MM/yyyy' on a day. *)
Definition ddMMyyyy (d : Day) : string :=
  (pad2 (day d) ++ "/" ++ pad2 (month d) ++ "/" ++ FinancialReport.yyyy (year d))%string.

Section Format.
(** The minutes by which local time is ahead of UTC at 00:00 UTC of a day:
    negative behind UTC (-180 in Brasília).  Offsets lie between -12:00
    and +14:00. *)
Variable offset : Day -> Z.
(** [format(new Date(s), 'dd/MM/yyyy')] on the other texts. *)
Variable format_other : string -> string.

(** The day of the local calendar at 00:00 UTC of a day, which format
    reads with getDate, getMonth and getFullYear. *)
Definition local_day (d : Day) : Day :=
  if offset d <? 0 then previous d else d.

(** [format(new Date(s), 'dd/MM/yyyy')] *)
Definition format_ddMMyyyy (s : string) : string :=
  match parse s with
  | Some d => ddMMyyyy (local_day d)
  | None => format_other s
  end.
End Format.

(** The wide month names of the locale ptBR. *)
Definition ptBR_months : list string :=
  [ "janeiro"; "fevereiro"; "março"; "abril"; "maio"; "junho"; "julho";
    "agosto"; "setembro"; "outubro"; "novembro"; "dezembro" ].

(** The pattern 'MMMM' with the locale ptBR, on getMonth (from 0). *)
Definition MMMM (m : nat) : string := nth m ptBR_months EmptyString.

End DateFns.

(** ** Vocabulary of the statements about the cells of the export *)

Module Cells.
Import JsNumber JsObject Decimal.

(** The date of the text, written day/month/year: its last two characters,
    the two of the middle and the first four. *)
Definition day_month_year (s : string) : string :=
  (substring 8 2 s ++ "/" ++ substring 5 2 s ++ "/" ++ substring 0 4 s)%string.

(** The number of a day in the count of the days of the calendar (every
    fourth year is a leap year, but of the years of a century only every
    fourth), with the year taken to begin in March. *)
Definition day_number (d : DateFns.Day) : Z :=
  let y := (if DateFns.month d <=? 2 then DateFns.year d - 1 else DateFns.year d)%Z in
  let m := (if DateFns.month d <=? 2 then DateFns.month d + 9 else DateFns.month d - 3)%Z in
  (365 * y + y / 4 - y / 100 + y / 400 + (153 * m + 2) / 5 + DateFns.day d)%Z.

(** The text YYYY-MM-DD of a day of the years 0 to 9999. *)
Definition iso (d : DateFns.Day) : string :=
  let two (n : Z) : string :=
    String (digit (n / 10)%Z) (String (digit (n mod 10)%Z) EmptyString) in
  (String (digit (DateFns.year d / 1000)%Z)
     (String (digit (DateFns.year d / 100 mod 10)%Z)
        (two (DateFns.year d mod 100)%Z))
   ++ "-" ++ two (DateFns.month d) ++ "-" ++ two (DateFns.day d))%string.

(** The text is [ip.fp]: digits, at least one, a point and two digits; it
    reads as n hundredths. *)
Definition two_decimals (n : Z) (s : string) : Prop :=
  exists ip fp,
    s = (ip ++ "." ++ fp)%string
    /\ all_digits ip = true /\ ip <> EmptyString
    /\ all_digits fp = true /\ String.length fp = 2%nat
    /\ (100 * decimal ip 0 + decimal fp 0)%N = Z.to_N n.

(** n is the integer nearest to a hundred times m * 2^e, the larger one on
    a tie. *)
Definition nearest_hundredth (m : positive) (e : Z) (n : Z) : Prop :=
  if (0 <=? e)%Z then n = (100 * (Z.pos m * 2 ^ e))%Z
  else (2 ^ (- e + 1) * n <= 200 * Z.pos m + 2 ^ (- e) < 2 ^ (- e + 1) * (n + 1))%Z.

(** The cell is the value as a currency text: R$, a space, a minus sign for
    a negative value, and the value to the nearest hundredth with two
    decimals.  (For the values that are finite and below 10^21.) *)
Definition currency (x : number) (cell : string) : Prop :=
  match Prim2SF x with
  | S754_zero _ => cell = "R$ 0.00"
  | S754_finite s m e =>
      (e < 0)%Z \/ (Z.pos m * 2 ^ e < 10 ^ 21)%Z ->
      exists n text,
        cell = ("R$ " ++ (if s then "-" else EmptyString) ++ text)%string
        /\ nearest_hundredth m e n /\ two_decimals n text
  | _ => True
  end.

End Cells.

(** * Properties *)

(** ** Own properties of an object built by successive assignments *)

Section ObjectFacts.
Variable V : Type.
Implicit Types (o : JsObject.t V) (k : string) (v : V).

Lemma own_app o1 o2 k :
  JsObject.own (o1 ++ o2) k =
  match JsObject.own o1 k with
  | Some v => Some v
  | None => JsObject.own o2 k
  end.
Proof.
  induction o1 as [|[k' v'] r IH]; simpl; [reflexivity|].
  destruct (String.eqb k' k); [reflexivity | exact IH].
Qed.

Lemma own_none_iff o k :
  JsObject.own o k = None <-> ~ In k (map fst o).
Proof.
  induction o as [|[k' v'] r IH]; simpl.
  - tauto.
  - destruct (String.eqb k' k) eqn:E.
    + apply String.eqb_eq in E. split; [discriminate | intros H; exfalso; auto].
    + apply String.eqb_neq in E. rewrite IH. tauto.
Qed.

Lemma set_new o k v :
  JsObject.own o k = None -> JsObject.set o k v = o ++ [(k, v)].
Proof.
  induction o as [|[k' v'] r IH]; simpl; [reflexivity|].
  destruct (String.eqb k' k); [discriminate|].
  intros H. now rewrite IH.
Qed.

Lemma set_last o k v v' :
  JsObject.own o k = None ->
  JsObject.set (o ++ [(k, v)]) k v' = o ++ [(k, v')].
Proof.
  induction o as [|[k0 v0] r IH]; simpl.
  - now rewrite String.eqb_refl.
  - destruct (String.eqb k0 k); [discriminate|].
    intros H. now rewrite IH.
Qed.

Lemma set_keys o k v :
  In k (map fst o) -> map fst (JsObject.set o k v) = map fst o.
Proof.
  induction o as [|[k' v'] r IH]; simpl; [tauto|].
  destruct (String.eqb k' k) eqn:E; simpl; [reflexivity|].
  apply String.eqb_neq in E.
  intros [H|H]; [contradiction | now rewrite IH].
Qed.

(** On an object whose values are a function of their keys, an assignment
    to an own key changes that function at the key. *)
Lemma set_tabulated (f : string -> V) (ks : list string) k v :
  NoDup ks -> In k ks ->
  JsObject.set (map (fun x => (x, f x)) ks) k v =
  map (fun x => (x, if String.eqb x k then v else f x)) ks.
Proof.
  induction ks as [|x r IH]; simpl; [tauto|].
  intros ND HIn. inversion ND as [|? ? Hx ND']; subst.
  destruct (String.eqb x k) eqn:E.
  - apply String.eqb_eq in E; subst x. f_equal.
    apply map_ext_in. intros y Hy.
    destruct (String.eqb y k) eqn:E'; [|reflexivity].
    apply String.eqb_eq in E'; subst y. contradiction.
  - apply String.eqb_neq in E. f_equal.
    destruct HIn as [H|H]; [contradiction | now apply IH].
Qed.

Lemma own_tabulated (f : string -> V) (ks : list string) k :
  JsObject.own (map (fun x => (x, f x)) ks) k =
  if existsb (String.eqb k) ks then Some (f k) else None.
Proof.
  induction ks as [|x r IH]; simpl; [reflexivity|].
  rewrite (String.eqb_sym k x).
  destruct (String.eqb x k) eqn:E; simpl; [|exact IH].
  apply String.eqb_eq in E. now subst.
Qed.
End ObjectFacts.

(** ** First appearances *)

Section FirstAppearances.
Import Grouping.

Lemma existsb_eqb_In (k : string) (l : list string) :
  existsb (String.eqb k) l = true <-> In k l.
Proof.
  rewrite existsb_exists. split.
  - intros [x [Hx E]]. apply String.eqb_eq in E. now subst.
  - intros H. exists k. split; [exact H | apply String.eqb_refl].
Qed.

Lemma existsb_eqb_not_In (k : string) (l : list string) :
  existsb (String.eqb k) l = false <-> ~ In k l.
Proof.
  rewrite <- existsb_eqb_In. destruct (existsb _ l); split; congruence.
Qed.

Lemma first_appearances_In (l : list string) (x : string) :
  In x (first_appearances l) <-> In x l.
Proof.
  induction l as [|k l IH]; simpl; [tauto|].
  rewrite filter_In, IH, negb_true_iff, String.eqb_neq.
  destruct (string_dec k x); intuition congruence.
Qed.

Lemma first_appearances_NoDup (l : list string) :
  NoDup (first_appearances l).
Proof.
  induction l as [|k l IH]; simpl; constructor.
  - rewrite filter_In, negb_true_iff, String.eqb_neq. tauto.
  - now apply NoDup_filter.
Qed.

Lemma first_appearances_snoc (l : list string) (k : string) :
  first_appearances (l ++ [k]) =
  if existsb (String.eqb k) l then first_appearances l
  else first_appearances l ++ [k].
Proof.
  induction l as [|z r IH]; simpl; [reflexivity|].
  rewrite IH. destruct (String.eqb k z) eqn:E; simpl.
  - apply String.eqb_eq in E; subst z.
    destruct (existsb (String.eqb k) r); [reflexivity|].
    rewrite filter_app. simpl. rewrite String.eqb_refl. simpl.
    now rewrite app_nil_r.
  - destruct (existsb (String.eqb k) r); [reflexivity|].
    rewrite filter_app. simpl. rewrite E. reflexivity.
Qed.

Lemma existsb_first_appearances (l : list string) (k : string) :
  existsb (String.eqb k) (first_appearances l) = existsb (String.eqb k) l.
Proof.
  destruct (existsb (String.eqb k) l) eqn:E.
  - apply existsb_eqb_In. apply first_appearances_In. now apply existsb_eqb_In.
  - apply existsb_eqb_not_In. rewrite first_appearances_In.
    now apply existsb_eqb_not_In.
Qed.

(** The number of distinct names, counted the standard way. *)
Lemma NoDup_incl_length_eq (l1 l2 : list string) :
  NoDup l1 -> NoDup l2 -> (forall x, In x l1 <-> In x l2) ->
  List.length l1 = List.length l2.
Proof.
  intros N1 N2 H. apply Nat.le_antisymm.
  - apply NoDup_incl_length; [exact N1 | intros x; apply H].
  - apply NoDup_incl_length; [exact N2 | intros x; apply H].
Qed.

Lemma first_appearances_length (l : list string) :
  List.length (first_appearances l) = List.length (nodup string_dec l).
Proof.
  apply NoDup_incl_length_eq.
  - apply first_appearances_NoDup.
  - apply NoDup_nodup.
  - intros x. rewrite first_appearances_In, nodup_In. tauto.
Qed.
End FirstAppearances.

(** ** The reduction of calculateTotals *)

Section Reduction.
Import JsNumber FinancialReport Grouping.

Lemma sum_snoc (l : list number) (v : number) :
  sum (l ++ [v]) = add (sum l) v.
Proof. unfold sum. now rewrite fold_left_app. Qed.

Lemma records_of_snoc k apps a :
  records_of k (apps ++ [a]) =
  if named k a then records_of k apps ++ [a] else records_of k apps.
Proof.
  unfold records_of. rewrite filter_app. simpl.
  destruct (named k a); [reflexivity | apply app_nil_r].
Qed.

Lemma group_snoc apps a k :
  group (apps ++ [a]) k =
  if String.eqb k (app_patientName a)
  then {| patientName := k;
          totalValue := add (totalValue (group apps k)) (app_value a);
          appointments := appointments (group apps k) ++ [a] |}
  else group apps k.
Proof.
  unfold group, subtotal. rewrite records_of_snoc. unfold named.
  rewrite (String.eqb_sym k).
  destruct (String.eqb (app_patientName a) k); [|reflexivity].
  cbn [totalValue appointments]. rewrite map_app. cbn [map].
  now rewrite sum_snoc.
Qed.

Lemma reduce_snoc apps a acc :
  reduce (apps ++ [a]) acc =
  match reduce apps acc with
  | Returned acc' => reducer acc' a
  | Threw e => Threw e
  end.
Proof.
  revert acc. induction apps as [|b r IH]; intros acc; simpl.
  - now destruct (reducer acc a).
  - destruct (reducer acc b); [apply IH | reflexivity].
Qed.

(** One step of the reducer on the object that groups a prefix. *)
Lemma reducer_tabulate apps a :
  JsObject.inherited (app_patientName a) = false ->
  reducer (tabulate apps (first_appearances (names apps))) a =
  Returned (tabulate (apps ++ [a]) (first_appearances (names (apps ++ [a])))).
Proof.
  intros Hplain. unfold names. rewrite map_app. simpl.
  rewrite first_appearances_snoc, <- existsb_first_appearances.
  set (ks := first_appearances (map app_patientName apps)).
  assert (ND : NoDup ks) by apply first_appearances_NoDup.
  unfold reducer, JsObject.get, tabulate.
  rewrite own_tabulated, Hplain.
  set (k := app_patientName a) in *.
  destruct (existsb (String.eqb k) ks) eqn:E.
  - rewrite own_tabulated, E. f_equal.
    rewrite set_tabulated by (trivial; now apply existsb_eqb_In).
    apply map_ext. intros x. rewrite group_snoc. fold k.
    destruct (String.eqb x k) eqn:Ex; [|reflexivity].
    apply String.eqb_eq in Ex. now subst x.
  - assert (Hk : ~ In k ks) by now apply existsb_eqb_not_In.
    rewrite set_new by (rewrite own_tabulated, E; reflexivity).
    rewrite own_app, own_tabulated, E. cbn [JsObject.own].
    rewrite String.eqb_refl. f_equal.
    rewrite set_last by (rewrite own_tabulated, E; reflexivity).
    rewrite map_app. cbn [map]. f_equal.
    + apply map_ext_in. intros x Hx. rewrite group_snoc. fold k.
      destruct (String.eqb x k) eqn:Ex; [|reflexivity].
      apply String.eqb_eq in Ex. subst x. contradiction.
    + rewrite group_snoc. fold k. rewrite String.eqb_refl.
      assert (R : records_of k apps = []).
      { unfold records_of.
        rewrite <- (filter_false apps). apply filter_ext_in.
        intros b Hb. unfold named. apply String.eqb_neq. intros Heq.
        apply Hk. unfold ks. apply first_appearances_In.
        rewrite <- Heq. now apply in_map. }
      unfold group, subtotal. rewrite R. reflexivity.
Qed.

Lemma plain_names_app l1 l2 :
  plain_names (l1 ++ l2) <-> plain_names l1 /\ plain_names l2.
Proof.
  unfold plain_names. split.
  - intros H. split; intros a Ha; apply H; apply in_app_iff; tauto.
  - intros [H1 H2] a Ha. apply in_app_iff in Ha. destruct Ha; auto.
Qed.

(** On plain names the reduction returns the object that holds, for each
    distinct name in order of first appearance, the group of that name. *)
Lemma reduce_plain apps :
  plain_names apps ->
  reduce apps JsObject.empty =
  Returned (tabulate apps (first_appearances (names apps))).
Proof.
  induction apps as [|a apps IH] using rev_ind; intros Hplain.
  - reflexivity.
  - apply plain_names_app in Hplain. destruct Hplain as [H1 H2].
    rewrite reduce_snoc, (IH H1).
    apply reducer_tabulate. apply H2. now left.
Qed.

Lemma reduce_app l1 l2 acc :
  reduce (l1 ++ l2) acc =
  match reduce l1 acc with
  | Returned acc' => reduce l2 acc'
  | Threw e => Threw e
  end.
Proof.
  revert acc. induction l1 as [|b r IH]; intros acc; simpl; [reflexivity|].
  destruct (reducer acc b); [apply IH | reflexivity].
Qed.

(** The first record whose name is inherited splits the input. *)
Lemma first_inherited apps :
  ~ plain_names apps ->
  exists pre a post,
    apps = pre ++ a :: post /\ plain_names pre /\
    JsObject.inherited (app_patientName a) = true.
Proof.
  induction apps as [|b r IH]; intros H.
  - exfalso. apply H. intros a [].
  - destruct (JsObject.inherited (app_patientName b)) eqn:E.
    + exists [], b, r. repeat split; trivial. intros a [].
    + destruct IH as (pre & a & post & -> & Hpre & Ha).
      * intros Hr. apply H. intros a [<-|Ha]; [exact E | now apply Hr].
      * exists (b :: pre), a, post. repeat split; trivial.
        intros c [<-|Hc]; [exact E | now apply Hpre].
Qed.

Lemma reducer_inherited apps a :
  plain_names apps ->
  JsObject.inherited (app_patientName a) = true ->
  reducer (tabulate apps (first_appearances (names apps))) a =
  Threw TypeError_push.
Proof.
  intros Hplain Ha. unfold reducer, JsObject.get, tabulate.
  rewrite own_tabulated, Ha.
  destruct (existsb _ _) eqn:E.
  - exfalso. apply existsb_eqb_In in E. rewrite first_appearances_In in E.
    unfold names in E. rewrite in_map_iff in E. destruct E as (b & Hb & Hin).
    apply Hplain in Hin. congruence.
  - cbv iota. rewrite own_tabulated, E. reflexivity.
Qed.

Lemma reduce_inherited apps :
  ~ plain_names apps ->
  reduce apps JsObject.empty = Threw TypeError_push.
Proof.
  intros H. destruct (first_inherited apps H) as (pre & a & post & -> & Hpre & Ha).
  rewrite reduce_app, (reduce_plain pre Hpre). simpl.
  now rewrite (reducer_inherited pre a Hpre Ha).
Qed.

Lemma plain_names_dec apps : {plain_names apps} + {~ plain_names apps}.
Proof.
  destruct (forallb (fun a => negb (JsObject.inherited (app_patientName a))) apps) eqn:E.
  - left. intros a Ha. rewrite forallb_forall in E.
    apply E in Ha. now apply negb_true_iff in Ha.
  - right. intros H. assert (F : forallb (fun a => negb (JsObject.inherited (app_patientName a))) apps = true).
    { apply forallb_forall. intros a Ha. apply negb_true_iff. now apply H. }
    congruence.
Qed.
End Reduction.

(** ** The order of Object.values *)

Lemma partition_perm (A : Type) (f : A -> bool) (l : list A) :
  Permutation (filter f l ++ filter (fun p => negb (f p)) l) l.
Proof.
  induction l as [|p r IH]; simpl; [reflexivity|].
  destruct (f p); simpl.
  - now apply perm_skip.
  - rewrite <- Permutation_middle. now apply perm_skip.
Qed.

Section Enumeration.
Import Grouping.
Variable V : Type.
Implicit Types (o l : JsObject.t V) (p : string * V).

Lemma insert_by_index_perm p l :
  Permutation (JsObject.insert_by_index p l) (p :: l).
Proof.
  induction l as [|q r IH]; simpl; [reflexivity|].
  destruct (N.leb _ _); [reflexivity|].
  rewrite IH. apply perm_swap.
Qed.

Lemma sort_by_index_perm l : Permutation (JsObject.sort_by_index l) l.
Proof.
  induction l as [|p r IH]; simpl; [reflexivity|].
  rewrite insert_by_index_perm. now apply perm_skip.
Qed.

Lemma entries_perm o : Permutation (JsObject.entries o) o.
Proof.
  unfold JsObject.entries. rewrite sort_by_index_perm. apply partition_perm.
Qed.

Lemma values_perm o : Permutation (JsObject.values o) (map snd o).
Proof. unfold JsObject.values. apply Permutation_map, entries_perm. Qed.

Lemma insert_by_index_sorted p l :
  StronglySorted index_le l ->
  StronglySorted index_le (JsObject.insert_by_index p l).
Proof.
  induction 1 as [|q r Hr IH Hq]; simpl.
  - repeat constructor.
  - destruct (N.leb_spec (JsObject.index_of (fst p)) (JsObject.index_of (fst q))) as [L|L].
    + constructor; [now constructor|].
      constructor; [exact L|].
      rewrite Forall_forall in *. intros x Hx. unfold index_le in *.
      specialize (Hq x Hx). lia.
    + constructor; [exact IH|].
      rewrite Forall_forall in *. intros x Hx.
      apply (Permutation_in _ (insert_by_index_perm p r)) in Hx.
      destruct Hx as [<-|Hx]; [unfold index_le; lia | now apply Hq].
Qed.

Lemma sort_by_index_sorted l :
  StronglySorted index_le (JsObject.sort_by_index l).
Proof.
  induction l as [|p r IH]; simpl; [constructor|].
  now apply insert_by_index_sorted.
Qed.
End Enumeration.

(** ** Order of first occurrences *)

Section Before.
Import Grouping.

Lemma position_None (k : string) (l : list string) :
  position k l = None <-> ~ In k l.
Proof.
  induction l as [|x r IH]; simpl; [tauto|].
  destruct (String.eqb x k) eqn:E.
  - apply String.eqb_eq in E. split; [discriminate | intros H; exfalso; auto].
  - apply String.eqb_neq in E. destruct (position k r); simpl.
    + split; [discriminate|]. intros H. exfalso. apply H. right.
      destruct (in_dec string_dec k r) as [Hi|Hn]; [exact Hi|].
      apply IH in Hn. discriminate.
    + split; [|reflexivity]. intros _ [H|H]; [contradiction|].
      now apply (proj1 IH).
Qed.

Lemma position_Some (k : string) (l : list string) :
  In k l -> exists i, position k l = Some i.
Proof.
  intros H. destruct (position k l) eqn:E; [eauto|].
  apply position_None in E. contradiction.
Qed.

(** The boolean test decides the relation on positions. *)
Lemma before_beforeb (x y : string) (l : list string) :
  before x y l <-> beforeb x y l = true.
Proof.
  unfold before. induction l as [|z r IH]; simpl.
  - split; [intros (i & j & H & _); discriminate | discriminate].
  - destruct (String.eqb z y) eqn:Ey.
    + split; [|discriminate]. intros (i & j & _ & Hj & Hlt).
      inversion Hj; subst. lia.
    + destruct (String.eqb z x) eqn:Ex.
      * rewrite existsb_eqb_In. split.
        -- intros (i & j & _ & Hj & _).
           destruct (position y r) eqn:P; [|discriminate].
           destruct (in_dec string_dec y r) as [Hin|Hn]; [exact Hin|].
           apply position_None in Hn. congruence.
        -- intros Hin. destruct (position_Some y r Hin) as [j Hj].
           exists 0, (S j). rewrite Hj. simpl. repeat split. lia.
      * rewrite <- IH. split.
        -- intros (i & j & Hi & Hj & Hlt).
           destruct (position x r) as [i'|]; [|discriminate].
           destruct (position y r) as [j'|]; [|discriminate].
           simpl in *. inversion Hi; inversion Hj; subst.
           exists i', j'. repeat split. lia.
        -- intros (i & j & Hi & Hj & Hlt). rewrite Hi, Hj. simpl.
           exists (S i), (S j). repeat split. lia.
Qed.

Lemma existsb_filter_kept (p : string -> bool) (y : string) (l : list string) :
  p y = true ->
  existsb (String.eqb y) (filter p l) = existsb (String.eqb y) l.
Proof.
  intros Hy. destruct (existsb (String.eqb y) l) eqn:E.
  - apply existsb_eqb_In. apply filter_In. split; [|exact Hy].
    now apply existsb_eqb_In.
  - apply existsb_eqb_not_In. rewrite filter_In.
    apply existsb_eqb_not_In in E. tauto.
Qed.

(** Dropping other names does not change the order of two names kept. *)
Lemma beforeb_filter (p : string -> bool) (x y : string) (l : list string) :
  p x = true -> p y = true ->
  beforeb x y (filter p l) = beforeb x y l.
Proof.
  intros Hx Hy. induction l as [|z r IH]; simpl; [reflexivity|].
  destruct (p z) eqn:Hz; simpl.
  - destruct (String.eqb z y); [reflexivity|].
    destruct (String.eqb z x); [|exact IH].
    now apply existsb_filter_kept.
  - assert (Ey : String.eqb z y = false).
    { apply String.eqb_neq. intros ->. congruence. }
    assert (Ex : String.eqb z x = false).
    { apply String.eqb_neq. intros ->. congruence. }
    now rewrite Ey, Ex.
Qed.

Lemma beforeb_first_appearances (x y : string) (l : list string) :
  beforeb x y (first_appearances l) = beforeb x y l.
Proof.
  induction l as [|z r IH]; simpl; [reflexivity|].
  destruct (String.eqb z y) eqn:Ey; [reflexivity|].
  destruct (String.eqb z x) eqn:Ex.
  - rewrite existsb_filter_kept.
    + apply existsb_first_appearances.
    + rewrite String.eqb_sym. now rewrite Ey.
  - rewrite beforeb_filter; [exact IH | |].
    + rewrite String.eqb_sym. now rewrite Ex.
    + rewrite String.eqb_sym. now rewrite Ey.
Qed.

Lemma beforeb_skip (pre l : list string) (x y : string) :
  ~ In x pre -> ~ In y pre ->
  beforeb x y (pre ++ l) = beforeb x y l.
Proof.
  induction pre as [|z r IH]; simpl; [reflexivity|].
  intros Hx Hy.
  assert (Ey : String.eqb z y = false) by (apply String.eqb_neq; tauto).
  assert (Ex : String.eqb z x = false) by (apply String.eqb_neq; tauto).
  rewrite Ey, Ex. apply IH; tauto.
Qed.

Lemma beforeb_across (l1 l2 : list string) (x y : string) :
  In x l1 -> ~ In y l1 -> In y l2 ->
  beforeb x y (l1 ++ l2) = true.
Proof.
  induction l1 as [|z r IH]; simpl; [tauto|].
  intros Hx Hy Hy2.
  assert (Ey : String.eqb z y = false) by (apply String.eqb_neq; tauto).
  rewrite Ey. destruct (String.eqb z x) eqn:Ex.
  - apply existsb_eqb_In. apply in_app_iff. now right.
  - apply String.eqb_neq in Ex. apply IH; tauto.
Qed.

Lemma beforeb_within (l1 l2 : list string) (x y : string) :
  In y l1 -> beforeb x y (l1 ++ l2) = beforeb x y l1.
Proof.
  induction l1 as [|z r IH]; simpl; [tauto|].
  intros Hy. destruct (String.eqb z y) eqn:Ey; [reflexivity|].
  apply String.eqb_neq in Ey.
  assert (Hr : In y r) by (destruct Hy; [contradiction | assumption]).
  destruct (String.eqb z x).
  - transitivity true; [|symmetry]; apply existsb_eqb_In;
      [apply in_app_iff; now left | exact Hr].
  - now apply IH.
Qed.

Lemma beforeb_In (x y : string) (l : list string) :
  beforeb x y l = true -> In x l /\ In y l.
Proof.
  induction l as [|z r IH]; simpl; [discriminate|].
  destruct (String.eqb z y) eqn:Ey; [discriminate|].
  destruct (String.eqb z x) eqn:Ex.
  - apply String.eqb_eq in Ex. intros H. apply existsb_eqb_In in H. tauto.
  - intros H. apply IH in H. tauto.
Qed.

(** In a list sorted by a relation on names, a name that comes first is
    related to the one that comes later. *)
Lemma beforeb_sorted (R : string -> string -> Prop) (l : list string) (x y : string) :
  StronglySorted R l -> beforeb x y l = true -> R x y.
Proof.
  induction 1 as [|z r Hr IH Hz]; simpl; [discriminate|].
  destruct (String.eqb z y); [discriminate|].
  destruct (String.eqb z x) eqn:Ex.
  - apply String.eqb_eq in Ex; subst z. intros H.
    apply existsb_eqb_In in H. rewrite Forall_forall in Hz. now apply Hz.
  - exact IH.
Qed.
End Before.

(** ** The groups calculateTotals returns *)

Section Groups.
Import JsNumber FinancialReport Grouping.

Lemma calculateTotals_plain apps :
  plain_names apps ->
  let groups :=
    JsObject.values (tabulate apps (first_appearances (names apps))) in
  calculateTotals apps = Returned (groups, grandTotal groups).
Proof.
  intros H. unfold calculateTotals. now rewrite (reduce_plain apps H).
Qed.

Lemma calculateTotals_throws apps :
  ~ plain_names apps -> calculateTotals apps = Threw TypeError_push.
Proof.
  intros H. unfold calculateTotals. now rewrite (reduce_inherited apps H).
Qed.

(** calculateTotals returns exactly on the inputs with plain names. *)
Lemma calculateTotals_returns_iff apps :
  (exists r, calculateTotals apps = Returned r) <-> plain_names apps.
Proof.
  split.
  - intros [r Hr]. destruct (plain_names_dec apps) as [H|H]; [exact H|].
    rewrite (calculateTotals_throws apps H) in Hr. discriminate.
  - intros H. eexists. apply (calculateTotals_plain apps H).
Qed.

Lemma tabulate_values apps ks :
  map snd (tabulate apps ks) = map (group apps) ks.
Proof. unfold tabulate. rewrite map_map. reflexivity. Qed.

Lemma tabulate_keys apps ks : map fst (tabulate apps ks) = ks.
Proof. unfold tabulate. rewrite map_map. apply map_id. Qed.

Lemma groups_perm apps ks :
  Permutation (JsObject.values (tabulate apps ks)) (map (group apps) ks).
Proof. rewrite <- tabulate_values. apply values_perm. Qed.

Lemma group_in apps ks g :
  In g (JsObject.values (tabulate apps ks)) ->
  exists k, In k ks /\ g = group apps k.
Proof.
  intros H. apply (Permutation_in _ (groups_perm apps ks)) in H.
  apply in_map_iff in H. destruct H as (k & <- & Hk). eauto.
Qed.

(** Each entry is stored under the name it carries. *)
Lemma entries_names apps ks :
  map patientName (JsObject.values (tabulate apps ks)) =
  JsObject.keys (tabulate apps ks).
Proof.
  unfold JsObject.values, JsObject.keys. rewrite map_map.
  apply map_ext_in. intros [k g] H.
  apply (Permutation_in _ (entries_perm _ _)) in H.
  unfold tabulate in H. apply in_map_iff in H.
  destruct H as (k' & E & _). inversion E; subst. reflexivity.
Qed.

Lemma keys_perm apps ks :
  Permutation (JsObject.keys (tabulate apps ks)) ks.
Proof.
  unfold JsObject.keys. rewrite (entries_perm _ (tabulate apps ks)).
  now rewrite tabulate_keys.
Qed.

Lemma filter_tabulate (f : string -> bool) apps ks :
  map fst (filter (fun p => f (fst p)) (tabulate apps ks)) = filter f ks.
Proof.
  induction ks as [|k r IH]; simpl; [reflexivity|].
  destruct (f k); simpl; now rewrite IH.
Qed.

(** The names in the order of Object.values: the array indices, sorted, then
    the other names as they were created. *)
Lemma keys_split apps ks :
  exists sorted,
    JsObject.keys (tabulate apps ks) =
      sorted ++ filter (fun k => negb (JsObject.is_index k)) ks
    /\ Permutation sorted (filter JsObject.is_index ks)
    /\ StronglySorted
         (fun x y => (JsObject.index_of x <= JsObject.index_of y)%N) sorted.
Proof.
  exists (map fst (JsObject.sort_by_index
                     (filter (fun p => JsObject.is_index (fst p)) (tabulate apps ks)))).
  split; [|split].
  - unfold JsObject.keys, JsObject.entries. rewrite map_app. f_equal.
    apply (filter_tabulate (fun k => negb (JsObject.is_index k))).
  - rewrite (sort_by_index_perm _ _). now rewrite filter_tabulate.
  - pose proof (sort_by_index_sorted _
                  (filter (fun p => JsObject.is_index (fst p)) (tabulate apps ks))) as S.
    induction S as [|p r Hr IH Hp]; simpl; constructor; [exact IH|].
    rewrite Forall_forall in *. intros x Hx. apply in_map_iff in Hx.
    destruct Hx as (q & <- & Hq). now apply Hp.
Qed.

(** The records of the groups, group after group, are the input records. *)
Lemma records_elsewhere k k' apps :
  k' <> k ->
  records_of k' (filter (fun a => negb (named k a)) apps) = records_of k' apps.
Proof.
  intros Hne. unfold records_of. induction apps as [|a r IH]; simpl; [reflexivity|].
  destruct (named k a) eqn:E; simpl.
  - assert (F : named k' a = false).
    { unfold named in *. apply String.eqb_eq in E. apply String.eqb_neq. congruence. }
    rewrite F. exact IH.
  - destruct (named k' a); rewrite IH; reflexivity.
Qed.

Lemma records_cover ks apps :
  NoDup ks -> (forall a, In a apps -> In (app_patientName a) ks) ->
  Permutation (List.concat (map (fun k => records_of k apps) ks)) apps.
Proof.
  intros ND. revert apps. induction ND as [|k ks Hk ND IH]; intros apps Hcover.
  - destruct apps as [|a r]; [reflexivity|]. destruct (Hcover a); now left.
  - simpl.
    etransitivity; [|apply (partition_perm _ (named k) apps)].
    apply Permutation_app_head.
    etransitivity; [|apply (IH (filter (fun a => negb (named k a)) apps))].
    + erewrite map_ext_in; [reflexivity|].
      intros k' Hk'. cbv beta. symmetry. apply records_elsewhere.
      intros ->. contradiction.
    + intros a Ha. apply filter_In in Ha. destruct Ha as [Ha Hn].
      destruct (Hcover a Ha) as [E|Hin]; [|exact Hin].
      unfold named in Hn. rewrite <- E, String.eqb_refl in Hn. discriminate.
Qed.
End Groups.

(** ** Array indices name their numbers one to one *)

Section ArrayIndex.
Import JsObject Decimal.
Local Open Scope N_scope.

Lemma width_cons c r : width (String c r) = N.succ (width r).
Proof. unfold width. simpl. lia. Qed.

Lemma decimal_acc s acc :
  decimal s acc = acc * 10 ^ width s + decimal s 0.
Proof.
  revert acc. induction s as [|c r IH]; intros acc.
  - simpl. unfold width. simpl. lia.
  - cbn [decimal].
    rewrite (IH (acc * 10 + N.of_nat (nat_of_ascii c - 48))),
            (IH (0 * 10 + N.of_nat (nat_of_ascii c - 48))).
    rewrite width_cons, N.pow_succ_r'. lia.
Qed.

Lemma decimal_cons c r :
  decimal (String c r) 0 = digit_value c * 10 ^ width r + decimal r 0.
Proof. cbn [decimal]. rewrite decimal_acc. unfold digit_value. lia. Qed.

Lemma digit_value_le c : is_digit c = true -> digit_value c <= 9.
Proof.
  unfold is_digit, digit_value. intros H. apply andb_true_iff in H.
  destruct H as [H1 H2]. apply Nat.leb_le in H1, H2. lia.
Qed.

Lemma digit_value_inj c c' :
  is_digit c = true -> is_digit c' = true ->
  digit_value c = digit_value c' -> c = c'.
Proof.
  unfold is_digit, digit_value. intros H H' E.
  apply andb_true_iff in H, H'. destruct H as [H1 _], H' as [H1' _].
  apply Nat.leb_le in H1, H1'.
  assert (En : nat_of_ascii c = nat_of_ascii c') by lia.
  rewrite <- (ascii_nat_embedding c), <- (ascii_nat_embedding c'). now rewrite En.
Qed.

Lemma digit_value_zero c :
  is_digit c = true -> digit_value c = 0 -> c = "0"%char.
Proof.
  intros H E. apply digit_value_inj; trivial.
Qed.

Lemma decimal_lt s : all_digits s = true -> decimal s 0 < 10 ^ width s.
Proof.
  induction s as [|c r IH]; intros H.
  - simpl. unfold width. simpl. lia.
  - simpl in H. apply andb_true_iff in H. destruct H as [Hc Hr].
    rewrite decimal_cons, width_cons, N.pow_succ_r'.
    pose proof (digit_value_le c Hc). specialize (IH Hr). nia.
Qed.

Lemma decimal_same_width s t :
  width s = width t -> all_digits s = true -> all_digits t = true ->
  decimal s 0 = decimal t 0 -> s = t.
Proof.
  revert t. induction s as [|c r IH]; intros [|c' r'] W Hs Ht E;
    try reflexivity; try (unfold width in W; simpl in W; lia).
  simpl in Hs, Ht. apply andb_true_iff in Hs, Ht.
  destruct Hs as [Hc Hr], Ht as [Hc' Hr'].
  rewrite !width_cons in W. assert (W' : width r = width r') by lia.
  rewrite !decimal_cons, <- W' in E.
  pose proof (decimal_lt r Hr) as B. pose proof (decimal_lt r' Hr') as B'.
  rewrite <- W' in B'.
  assert (Ed : digit_value c = digit_value c') by nia.
  assert (Er : decimal r 0 = decimal r' 0) by nia.
  f_equal; [now apply digit_value_inj | now apply IH].
Qed.

Lemma array_index_spec k n :
  array_index k = Some n ->
  exists c r, k = String c r /\ all_digits k = true /\ decimal k 0 = n
              /\ (c <> "0"%char \/ r = EmptyString).
Proof.
  unfold array_index. destruct k as [|c r]; [discriminate|].
  destruct (all_digits (String c r)) eqn:A; [|discriminate].
  destruct (negb (Ascii.eqb c "0") || _) eqn:C; [|discriminate].
  destruct (N.leb _ _); [|discriminate].
  cbn [andb]. intros E. inversion E; subst. exists c, r. repeat split.
  apply orb_true_iff in C. destruct C as [C|C].
  - left. apply negb_true_iff in C. now apply Ascii.eqb_neq.
  - right. now destruct r.
Qed.

Lemma leading_digit_bound c r :
  all_digits (String c r) = true -> c <> "0"%char ->
  10 ^ width r <= decimal (String c r) 0.
Proof.
  intros A Hc. simpl in A. apply andb_true_iff in A. destruct A as [Dc _].
  rewrite decimal_cons.
  assert (digit_value c <> 0) by (intros Z; now apply Hc, digit_value_zero).
  nia.
Qed.

Lemma array_index_inj k k' n :
  array_index k = Some n -> array_index k' = Some n -> k = k'.
Proof.
  intros H H'.
  destruct (array_index_spec k n H) as (c & r & -> & A & E & C).
  destruct (array_index_spec k' n H') as (c' & r' & -> & A' & E' & C').
  assert (Zero : forall d s, all_digits (String d s) = true ->
            (d <> "0"%char \/ s = EmptyString) ->
            decimal (String d s) 0 = 0 -> String d s = "0"%string).
  { intros d s Ad Cd Ed. destruct Cd as [Cd| ->].
    - pose proof (leading_digit_bound d s Ad Cd) as L.
      assert (0 < 10 ^ width s) by (apply N.neq_0_lt_0, N.pow_nonzero; lia). lia.
    - simpl in Ad. rewrite andb_true_r in Ad. rewrite decimal_cons in Ed.
      simpl in Ed. f_equal. apply digit_value_zero; trivial.
      unfold width in Ed. simpl in Ed. lia. }
  destruct (N.eq_dec n 0) as [Zn|NZ].
  - subst n. rewrite (Zero c r A C Zn). symmetry. apply (Zero c' r' A' C').
    congruence.
  - assert (Lead : forall d s, all_digits (String d s) = true ->
              decimal (String d s) 0 = n -> (d <> "0"%char \/ s = EmptyString) ->
              10 ^ width s <= n).
    { intros d s Ad Ed [Cd| ->].
      - rewrite <- Ed. now apply leading_digit_bound.
      - unfold width. simpl. lia. }
    pose proof (Lead c r A E C) as L. pose proof (Lead c' r' A' E' C') as L'.
    pose proof (decimal_lt _ A) as U. pose proof (decimal_lt _ A') as U'.
    rewrite E in U. rewrite E' in U'. rewrite width_cons in U, U'.
    assert (W : width r = width r').
    { assert (width r < N.succ (width r')).
      { apply (N.pow_lt_mono_r_iff 10); lia. }
      assert (width r' < N.succ (width r)).
      { apply (N.pow_lt_mono_r_iff 10); lia. }
      lia. }
    apply decimal_same_width; trivial; [|congruence].
    rewrite !width_cons. now rewrite W.
Qed.

(** For names that are array indices, equal numbers mean equal names. *)
Lemma index_of_inj k k' :
  is_index k = true -> is_index k' = true ->
  index_of k = index_of k' -> k = k'.
Proof.
  unfold is_index, index_of.
  destruct (array_index k) eqn:E; [|discriminate].
  destruct (array_index k') eqn:E'; [|discriminate].
  intros _ _ ->. now apply (array_index_inj k k' n0).
Qed.
End ArrayIndex.

(** ** toFixed(2): the rounding and the digits *)

Section Printing.
Import JsNumber JsObject Decimal.

(** Below 1 the exponent is negative: the integer printed is the one
    nearest to a hundred times the value m * 2^e, the larger one on a tie,
    that is n <= 100 * m * 2^e + 1/2 < n + 1. *)
Lemma hundredths_nearest (m : positive) (e : Z) :
  (e < 0)%Z ->
  (2 ^ (- e + 1) * hundredths m e <= 200 * Z.pos m + 2 ^ (- e)
   < 2 ^ (- e + 1) * (hundredths m e + 1))%Z.
Proof.
  intros He. unfold hundredths.
  destruct (Z.leb_spec 0 e) as [H|_]; [lia|].
  assert (P : (0 < 2 ^ (- e + 1))%Z) by (apply Z.pow_pos_nonneg; lia).
  replace (Z.pos m * 200)%Z with (200 * Z.pos m)%Z by lia.
  split.
  - apply Z.mul_div_le. exact P.
  - rewrite Z.mul_add_distr_l, Z.mul_1_r.
    pose proof (Z.mod_pos_bound (200 * Z.pos m + 2 ^ (- e)) (2 ^ (- e + 1)) P) as B.
    pose proof (Z.div_mod (200 * Z.pos m + 2 ^ (- e)) (2 ^ (- e + 1))) as D.
    lia.
Qed.

(** From exponent 0 on the value is an integer, printed with two zeros. *)
Lemma hundredths_integer (m : positive) (e : Z) :
  (0 <= e)%Z -> hundredths m e = (100 * (Z.pos m * 2 ^ e))%Z.
Proof.
  intros He. unfold hundredths.
  destruct (Z.leb_spec 0 e) as [_|H]; lia.
Qed.

Lemma digit_is_digit (d : Z) :
  (0 <= d <= 9)%Z -> is_digit (digit d) = true /\ digit_value (digit d) = Z.to_N d.
Proof.
  intros Hd. unfold is_digit, digit_value, digit.
  rewrite nat_ascii_embedding by lia.
  split.
  - apply andb_true_iff. split; apply Nat.leb_le; lia.
  - lia.
Qed.

Lemma digits_fuel_value (fuel : nat) :
  forall (n : Z) (acc : string),
    (0 <= n < 2 ^ Z.of_nat fuel)%Z -> all_digits acc = true ->
    all_digits (digits_fuel fuel n acc) = true
    /\ decimal (digits_fuel fuel n acc) 0
       = (Z.to_N n * 10 ^ width acc + decimal acc 0)%N.
Proof.
  induction fuel as [|f IH]; intros n acc Hn Hacc.
  - simpl in *. assert (n = 0%Z) by lia. subst n. split; [exact Hacc | lia].
  - cbn [digits_fuel].
    assert (Hmod : (0 <= n mod 10 <= 9)%Z)
      by (pose proof (Z.mod_pos_bound n 10); lia).
    destruct (digit_is_digit (n mod 10) Hmod) as [Dd Dv].
    assert (Hacc' : all_digits (String (digit (n mod 10)) acc) = true)
      by (cbn [all_digits]; now rewrite Dd, Hacc).
    assert (Hval : decimal (String (digit (n mod 10)) acc) 0
                   = (Z.to_N (n mod 10) * 10 ^ width acc + decimal acc 0)%N)
      by (rewrite decimal_cons; now rewrite Dv).
    pose proof (Z.div_mod n 10 ltac:(lia)) as Hdm.
    destruct (Z.eqb_spec (n / 10) 0) as [Hq|Hq].
    + split; [exact Hacc'|]. rewrite Hval. f_equal. f_equal. f_equal. lia.
    + assert (Hn' : (0 <= n / 10 < 2 ^ Z.of_nat f)%Z).
      { split; [apply Z.div_pos; lia|].
        apply Z.div_lt_upper_bound; [lia|].
        rewrite Nat2Z.inj_succ, Z.pow_succ_r in Hn by lia. lia. }
      destruct (IH (n / 10)%Z _ Hn' Hacc') as [A V].
      split; [exact A|]. rewrite V, Hval, width_cons, N.pow_succ_r'.
      assert (E : Z.to_N n = (Z.to_N (n / 10) * 10 + Z.to_N (n mod 10))%N) by lia.
      rewrite E. lia.
Qed.

(** The digits printed for a non-negative integer read back as it. *)
Lemma digits_value (n : Z) :
  (0 <= n)%Z ->
  all_digits (digits n) = true /\ decimal (digits n) 0 = Z.to_N n.
Proof.
  intros Hn. unfold digits.
  destruct (digits_fuel_value (S (Z.to_nat (Z.log2 n))) n EmptyString) as [A V].
  - split; [exact Hn|].
    rewrite Nat2Z.inj_succ, Z2Nat.id by apply Z.log2_nonneg.
    destruct (Z.eq_dec n 0) as [->|Hz]; [reflexivity|].
    apply Z.log2_spec. lia.
  - reflexivity.
  - split; [exact A|]. rewrite V. unfold width. simpl. lia.
Qed.
End Printing.

(** ** calculateTotals: what the report holds *)

Section Totals.
Import JsNumber FinancialReport Grouping Examples.

Lemma beforeb_irrefl (x : string) (l : list string) : beforeb x x l = false.
Proof.
  induction l as [|z r IH]; simpl; [reflexivity|].
  destruct (String.eqb z x) eqn:E; [reflexivity | exact IH].
Qed.

Lemma beforeb_total (x y : string) (l : list string) :
  In x l -> In y l -> x <> y ->
  beforeb x y l = true \/ beforeb y x l = true.
Proof.
  induction l as [|z r IH]; simpl; [tauto|].
  intros Hx Hy Hne.
  destruct (String.eqb z y) eqn:Ey; destruct (String.eqb z x) eqn:Ex.
  - apply String.eqb_eq in Ey, Ex. congruence.
  - right. apply String.eqb_eq in Ey. subst z. apply existsb_eqb_In.
    destruct Hx as [Hx|Hx]; [congruence | exact Hx].
  - left. apply String.eqb_eq in Ex. subst z. apply existsb_eqb_In.
    destruct Hy as [Hy|Hy]; [congruence | exact Hy].
  - apply String.eqb_neq in Ey, Ex. apply IH; trivial.
    + destruct Hx; [contradiction | assumption].
    + destruct Hy; [contradiction | assumption].
Qed.

Lemma example_totals :
  calculateTotals example_input =
  Returned
    ([ {| patientName := "Ana"; totalValue := 150.50%float;
          appointments := [ record "a1" "Ana" 100.00; record "a2" "Ana" 50.50 ] |};
       {| patientName := "Bruno"; totalValue := 75.25%float;
          appointments := [ record "a3" "Bruno" 75.25 ] |} ],
     225.75%float).
Proof. reflexivity. Qed.

Lemma example_plain : plain_names example_input.
Proof. intros a [<-|[<-|[<-|[]]]]; reflexivity. Qed.

(** On plain names: one group per distinct name, each holding the sum of
    the values of the records that bear the name. *)
Theorem groups_one_per_name apps :
  plain_names apps ->
  exists groups total,
    calculateTotals apps = Returned (groups, total)
    /\ NoDup (map patientName groups)
    /\ (forall k, In k (map patientName groups) <-> In k (names apps))
    /\ List.length groups = List.length (nodup string_dec (names apps))
    /\ (forall g, In g groups ->
          totalValue g = subtotal (patientName g) apps)
    /\ total = grandTotal groups.
Proof.
  intros H. pose proof (calculateTotals_plain apps H) as E. cbv zeta in E.
  set (ks := first_appearances (names apps)) in *.
  set (groups := JsObject.values (tabulate apps ks)) in *.
  exists groups, (grandTotal groups).
  assert (P : Permutation (map patientName groups) ks).
  { unfold groups. rewrite entries_names. apply keys_perm. }
  split; [exact E|]. split; [|split; [|split; [|split]]].
  - apply (Permutation_NoDup (Permutation_sym P)). apply first_appearances_NoDup.
  - intros k. rewrite <- (first_appearances_In (names apps) k). fold ks.
    split; intros Hk.
    + apply (Permutation_in _ P Hk).
    + apply (Permutation_in _ (Permutation_sym P) Hk).
  - rewrite <- first_appearances_length. fold ks.
    rewrite <- (Permutation_length P). now rewrite length_map.
  - intros g Hg. apply group_in in Hg. destruct Hg as (k & _ & ->). reflexivity.
  - reflexivity.
Qed.

Lemma groups_one_per_name_example :
  exists groups total,
    calculateTotals example_input = Returned (groups, total)
    /\ NoDup (map patientName groups)
    /\ (forall k, In k (map patientName groups) <-> In k (names example_input))
    /\ List.length groups = List.length (nodup string_dec (names example_input))
    /\ (forall g, In g groups ->
          totalValue g = subtotal (patientName g) example_input)
    /\ total = grandTotal groups.
Proof. apply (groups_one_per_name example_input). exact example_plain. Defined.

(** C1 (code_bug).  The claim: for every input there is exactly one
    PatientTotal per distinct patientName.  On a patient named after a
    property that the accumulator object inherits from Object.prototype the
    guard [!acc[name]] is false, no group is created, and the reducer
    throws: whatever the other records are, an input with a record named
    constructor produces nothing. *)
Theorem C1_inherited_name_produces_no_group
    (pre post : list AppointmentWithPatient) (i : string) (v : number) :
  calculateTotals (pre ++ record i "constructor" v :: post) = Threw TypeError_push.
Proof.
  apply calculateTotals_throws. intros H.
  assert (E : JsObject.inherited "constructor" = false).
  { apply (H (record i "constructor" v)). apply in_app_iff. right. now left. }
  discriminate E.
Qed.

Lemma inherited_name_example :
  calculateTotals
    [ record "a1" "Ana" 100.00; record "a2" "constructor" 50.50 ]
  = Threw TypeError_push.
Proof. reflexivity. Qed.

(** C9 (code_bug).  The claim: a record of value 0 still creates a group for
    its patientName, for every input.  A record of value 0 whose name is
    inherited from Object.prototype creates no group, whatever the other
    records are: the reducer throws. *)
Theorem C9_zero_value_inherited_name
    (pre post : list AppointmentWithPatient) (i : string) :
  calculateTotals (pre ++ record i "toString" 0 :: post) = Threw TypeError_push.
Proof.
  apply calculateTotals_throws. intros H.
  assert (E : JsObject.inherited "toString" = false).
  { apply (H (record i "toString" 0)). apply in_app_iff. right. now left. }
  discriminate E.
Qed.

(** Empty input: no group, grand total 0. *)
Theorem empty_input : calculateTotals [] = Returned ([], zero).
Proof. reflexivity. Qed.

(** On plain names every record, whatever its value, is in the group of its
    name. *)
Theorem every_record_grouped apps a :
  plain_names apps -> In a apps ->
  exists groups total g,
    calculateTotals apps = Returned (groups, total)
    /\ In g groups /\ patientName g = app_patientName a
    /\ In a (appointments g).
Proof.
  intros H Ha. pose proof (calculateTotals_plain apps H) as E. cbv zeta in E.
  set (ks := first_appearances (names apps)) in *.
  exists (JsObject.values (tabulate apps ks)), (grandTotal (JsObject.values (tabulate apps ks))),
         (group apps (app_patientName a)).
  split; [exact E|]. split; [|split].
  - apply (Permutation_in _ (Permutation_sym (groups_perm apps ks))).
    apply in_map. unfold ks. apply first_appearances_In. now apply in_map.
  - reflexivity.
  - simpl. unfold records_of. apply filter_In. split; [exact Ha|].
    apply String.eqb_refl.
Qed.

Lemma every_record_grouped_zero :
  exists groups total g,
    calculateTotals [ record "a1" "Ana" 0; record "a2" "Bruno" 75.25 ]
      = Returned (groups, total)
    /\ In g groups /\ patientName g = "Ana"
    /\ In (record "a1" "Ana" 0) (appointments g).
Proof.
  apply (every_record_grouped
           [ record "a1" "Ana" 0; record "a2" "Bruno" 75.25 ] (record "a1" "Ana" 0)).
  - intros a [<-|[<-|[]]]; reflexivity.
  - simpl. now left.
Defined.

(** *** Order of the groups *)

(** C4, the claim as stated fails: Bruno's first record precedes that of the
    patient named 10, and the group of 10 comes out first. *)
Lemma C4_array_index_name_comes_first :
  exists groups total,
    calculateTotals [ record "a1" "Bruno" 100.00; record "a2" "10" 50.50 ]
      = Returned (groups, total)
    /\ before "Bruno" "10" (names [ record "a1" "Bruno" 100.00; record "a2" "10" 50.50 ])
    /\ ~ before "Bruno" "10" (map patientName groups)
    /\ before "10" "Bruno" (map patientName groups).
Proof.
  eexists. eexists. split; [reflexivity|]. split; [|split].
  - apply before_beforeb. reflexivity.
  - rewrite before_beforeb. discriminate.
  - apply before_beforeb. reflexivity.
Qed.

(** C4 (corrected).  On plain names the groups come out as Object.values
    enumerates the accumulator: two groups whose names are not array indices
    are ordered as the first records of their names are in the input; a
    group whose name is an array index precedes every group whose name is
    not; and the groups whose names are array indices are in ascending
    numeric order. *)
Theorem C4_groups_in_enumeration_order apps :
  plain_names apps ->
  exists groups total,
    calculateTotals apps = Returned (groups, total)
    /\ (forall x y,
          JsObject.is_index x = false -> JsObject.is_index y = false ->
          (before x y (map patientName groups) <-> before x y (names apps)))
    /\ (forall x y,
          In x (names apps) -> In y (names apps) ->
          JsObject.is_index x = true -> JsObject.is_index y = false ->
          before x y (map patientName groups))
    /\ (forall x y,
          In x (names apps) -> In y (names apps) ->
          JsObject.is_index x = true -> JsObject.is_index y = true ->
          (before x y (map patientName groups)
           <-> (JsObject.index_of x < JsObject.index_of y)%N)).
Proof.
  intros H. pose proof (calculateTotals_plain apps H) as E. cbv zeta in E.
  set (ks := first_appearances (names apps)) in *.
  exists (JsObject.values (tabulate apps ks)),
         (grandTotal (JsObject.values (tabulate apps ks))).
  split; [exact E|]. rewrite entries_names.
  destruct (keys_split apps ks) as (sorted & -> & P & S).
  assert (InSorted : forall x, In x sorted <-> In x (names apps) /\ JsObject.is_index x = true).
  { intros x. split.
    - intros Hx. apply (Permutation_in _ P) in Hx. apply filter_In in Hx.
      unfold ks in Hx. now rewrite first_appearances_In in Hx.
    - intros [Hx Ix]. apply (Permutation_in _ (Permutation_sym P)).
      apply filter_In. unfold ks. now rewrite first_appearances_In. }
  assert (InRest : forall x, In x (filter (fun k => negb (JsObject.is_index k)) ks)
                             <-> In x (names apps) /\ JsObject.is_index x = false).
  { intros x. rewrite filter_In, negb_true_iff. unfold ks.
    now rewrite first_appearances_In. }
  split; [|split].
  - intros x y Ix Iy. rewrite !before_beforeb.
    rewrite beforeb_skip.
    + rewrite (beforeb_filter (fun k => negb (JsObject.is_index k)))
        by (now rewrite ?Ix, ?Iy).
      unfold ks. now rewrite beforeb_first_appearances.
    + rewrite InSorted. intros [_ C]. congruence.
    + rewrite InSorted. intros [_ C]. congruence.
  - intros x y Hx Hy Ix Iy. apply before_beforeb. apply beforeb_across.
    + now apply InSorted.
    + rewrite InSorted. intros [_ C]. congruence.
    + now apply InRest.
  - intros x y Hx Hy Ix Iy. rewrite before_beforeb.
    rewrite beforeb_within by now apply InSorted.
    split.
    + intros B. pose proof (beforeb_sorted _ _ _ _ S B) as L. cbv beta in L.
      assert (Hne : JsObject.index_of x <> JsObject.index_of y).
      { intros Eq. apply (index_of_inj x y Ix Iy) in Eq. subst y.
        rewrite beforeb_irrefl in B. discriminate. }
      lia.
    + intros L.
      assert (Hne : x <> y) by (intros ->; lia).
      destruct (beforeb_total x y sorted) as [B|B]; trivial;
        try now apply InSorted.
      pose proof (beforeb_sorted _ _ _ _ S B) as L'. cbv beta in L'. lia.
Qed.

Lemma C4_groups_in_enumeration_order_example :
  exists groups total,
    calculateTotals example_input = Returned (groups, total)
    /\ (forall x y,
          JsObject.is_index x = false -> JsObject.is_index y = false ->
          (before x y (map patientName groups) <-> before x y (names example_input)))
    /\ (forall x y,
          In x (names example_input) -> In y (names example_input) ->
          JsObject.is_index x = true -> JsObject.is_index y = false ->
          before x y (map patientName groups))
    /\ (forall x y,
          In x (names example_input) -> In y (names example_input) ->
          JsObject.is_index x = true -> JsObject.is_index y = true ->
          (before x y (map patientName groups)
           <-> (JsObject.index_of x < JsObject.index_of y)%N)).
Proof.
  apply (C4_groups_in_enumeration_order example_input).
  intros a [<-|[<-|[<-|[]]]]; reflexivity.
Defined.

(** *** The records of the groups *)

Lemma grandTotal_sum (l : list PatientTotal) :
  grandTotal l = sum (map totalValue l).
Proof.
  unfold grandTotal, sum. generalize zero.
  induction l as [|p r IH]; intros z; simpl; [reflexivity | apply IH].
Qed.

(** C6, the claim as stated fails on "exact sum": for the values 0.1 and
    0.2 of one patient the total held is not the exact sum of the two
    values. *)
Lemma C6_total_is_not_the_exact_sum :
  exists groups total g,
    calculateTotals [ record "a1" "Ana" 0.1; record "a2" "Ana" 0.2 ]
      = Returned (groups, total)
    /\ In g groups
    /\ exact (totalValue g) <> exact_sum (map app_value (appointments g)).
Proof.
  eexists. eexists. eexists. split; [reflexivity|]. split; [now left|].
  vm_compute. intros H. inversion H.
Qed.

(** C6 (corrected).  On plain names the records of the groups, group after
    group, are a permutation of the input; the records of a group are the
    input records that bear its name, in input order; and the total of a
    group is the binary64 sum, from 0 and left to right, of the values of
    its records. *)
Theorem C6_groups_partition_the_input apps :
  plain_names apps ->
  exists groups total,
    calculateTotals apps = Returned (groups, total)
    /\ Permutation (List.concat (map appointments groups)) apps
    /\ (forall g, In g groups ->
          appointments g = records_of (patientName g) apps
          /\ (forall a, In a (appointments g) -> app_patientName a = patientName g)
          /\ totalValue g = sum (map app_value (appointments g))).
Proof.
  intros H. pose proof (calculateTotals_plain apps H) as E. cbv zeta in E.
  set (ks := first_appearances (names apps)) in *.
  exists (JsObject.values (tabulate apps ks)),
         (grandTotal (JsObject.values (tabulate apps ks))).
  split; [exact E|]. split.
  - rewrite <- flat_map_concat_map.
    rewrite (groups_perm apps ks).
    rewrite flat_map_concat_map, map_map. cbn [group appointments].
    apply records_cover.
    + apply first_appearances_NoDup.
    + intros a Ha. unfold ks. apply first_appearances_In. now apply in_map.
  - intros g Hg. apply group_in in Hg. destruct Hg as (k & _ & ->).
    cbn [group appointments patientName totalValue].
    split; [reflexivity|]. split; [|reflexivity].
    intros a Ha. unfold records_of in Ha. apply filter_In in Ha.
    destruct Ha as [_ Ha]. now apply String.eqb_eq in Ha.
Qed.

Lemma C6_groups_partition_the_input_example :
  exists groups total,
    calculateTotals example_input = Returned (groups, total)
    /\ Permutation (List.concat (map appointments groups)) example_input
    /\ (forall g, In g groups ->
          appointments g = records_of (patientName g) example_input
          /\ (forall a, In a (appointments g) -> app_patientName a = patientName g)
          /\ totalValue g = sum (map app_value (appointments g))).
Proof.
  apply (C6_groups_partition_the_input example_input).
  intros a [<-|[<-|[<-|[]]]]; reflexivity.
Defined.

(** *** Rounding for display *)

(** Adding to 0 does not change what toFixed(2) prints. *)
Lemma toFixed2_parts_add_zero (x : number) :
  toFixed2_parts (add zero x) = toFixed2_parts x.
Proof.
  unfold toFixed2_parts, add. rewrite add_spec.
  change (Prim2SF zero) with (S754_zero false).
  destruct (Prim2SF x) as [s|s| |s m e]; try reflexivity.
  now destruct s.
Qed.

(** C2, the claim as stated fails: two patients with one appointment of
    70368744177664.01 each.  The subtotals display 70368744177664.02 each,
    which add up to 140737488355328.04; the grand total displays
    140737488355328.03. *)
Lemma C2_displayed_subtotals_do_not_add_up :
  exists groups total,
    calculateTotals
      [ record "a1" "Ana" 70368744177664.01; record "a2" "Bruno" 70368744177664.01 ]
      = Returned (groups, total)
    /\ displayed_sum (map totalValue groups) = Some 14073748835532804%Z
    /\ displayed total = Some 14073748835532803%Z.
Proof.
  eexists. eexists. split; [reflexivity|]. split; vm_compute; reflexivity.
Qed.

(** The same with amounts below one cent: 0.005 and 0.005 display 0.01 each,
    their total 0.01. *)
Lemma half_cents_do_not_add_up :
  exists groups total,
    calculateTotals [ record "a1" "Ana" 0.005; record "a2" "Bruno" 0.005 ]
      = Returned (groups, total)
    /\ displayed_sum (map totalValue groups) = Some 2%Z
    /\ displayed total = Some 1%Z.
Proof.
  eexists. eexists. split; [reflexivity|]. split; vm_compute; reflexivity.
Qed.

(** C2 (corrected).  The sums are binary64 sums: on plain names every
    subtotal is the sum, from 0 and left to right, of the values of the
    patient's records, and the grand total is the sum, from 0 and left to
    right, of the subtotals in the order of the groups; with a single group
    the grand total displays as the subtotal does. *)
Theorem C2_totals_are_binary64_sums apps :
  plain_names apps ->
  exists groups total,
    calculateTotals apps = Returned (groups, total)
    /\ (forall g, In g groups ->
          totalValue g = sum (map app_value (records_of (patientName g) apps)))
    /\ total = sum (map totalValue groups)
    /\ (forall g, groups = [g] ->
          toFixed2_parts total = toFixed2_parts (totalValue g)).
Proof.
  intros H. pose proof (calculateTotals_plain apps H) as E. cbv zeta in E.
  set (ks := first_appearances (names apps)) in *.
  exists (JsObject.values (tabulate apps ks)),
         (grandTotal (JsObject.values (tabulate apps ks))).
  split; [exact E|]. split; [|split].
  - intros g Hg. apply group_in in Hg. destruct Hg as (k & _ & ->). reflexivity.
  - apply grandTotal_sum.
  - intros g ->. unfold grandTotal. cbn [fold_left].
    apply toFixed2_parts_add_zero.
Qed.

Lemma C2_totals_are_binary64_sums_example :
  exists groups total,
    calculateTotals example_input = Returned (groups, total)
    /\ (forall g, In g groups ->
          totalValue g = sum (map app_value (records_of (patientName g) example_input)))
    /\ total = sum (map totalValue groups)
    /\ (forall g, groups = [g] ->
          toFixed2_parts total = toFixed2_parts (totalValue g)).
Proof.
  apply (C2_totals_are_binary64_sums example_input).
  intros a [<-|[<-|[<-|[]]]]; reflexivity.
Defined.

(** On the spec's example the displayed amounts do add up. *)
Lemma example_display :
  map (toFixed2 (fun _ => EmptyString)) [150.50; 75.25; 225.75]%float
    = [ "150.50"; "75.25"; "225.75" ]
  /\ displayed_sum [150.50; 75.25]%float = displayed 225.75%float.
Proof. split; vm_compute; reflexivity. Qed.
End Totals.

(** ** The exported sheet *)

Lemma flat_map_map_concat (A B C : Type) (f : B -> C) (g : A -> list B) (l : list A) :
  flat_map (fun x => map f (g x)) l = map f (List.concat (map g l)).
Proof.
  induction l as [|x r IH]; simpl; [reflexivity|].
  now rewrite map_app, IH.
Qed.

Lemma string_append_assoc (a b c : string) :
  ((a ++ b) ++ c = a ++ b ++ c)%string.
Proof. induction a as [|x a IH]; simpl; [reflexivity | now rewrite IH]. Qed.

(** ** The cells of the export *)

Section CellFormats.
Import JsNumber JsObject Decimal FinancialReport DateFns Cells.

Lemma is_digit_digit_of (c : ascii) :
  is_digit c = true ->
  (0 <= digit_of c <= 9)%Z /\ c = digit (digit_of c).
Proof.
  destruct c as [[] [] [] [] [] [] [] []]; intros H;
    try discriminate H; vm_compute; repeat split; congruence.
Qed.

Lemma in_digits (a : Z) :
  (0 <= a <= 9)%Z -> In a [0; 1; 2; 3; 4; 5; 6; 7; 8; 9]%Z.
Proof. intros H. simpl. lia. Qed.

(** Two digits print as themselves. *)
Lemma pad2_two_digits (a b : Z) :
  (0 <= a <= 9)%Z -> (0 <= b <= 9)%Z ->
  pad2 (10 * a + b) = String (digit a) (String (digit b) EmptyString).
Proof.
  intros Ha Hb.
  assert (C : forallb (fun a =>
                forallb (fun b =>
                  String.eqb (pad2 (10 * a + b))
                             (String (digit a) (String (digit b) EmptyString)))
                  [0; 1; 2; 3; 4; 5; 6; 7; 8; 9]%Z)
                [0; 1; 2; 3; 4; 5; 6; 7; 8; 9]%Z = true)
    by (vm_compute; reflexivity).
  rewrite forallb_forall in C. specialize (C a (in_digits a Ha)).
  rewrite forallb_forall in C. specialize (C b (in_digits b Hb)).
  now apply String.eqb_eq.
Qed.

(** Four digits that are not all 0 print as themselves. *)
Lemma yyyy_four_digits (a b c d : Z) :
  (0 <= a <= 9)%Z -> (0 <= b <= 9)%Z -> (0 <= c <= 9)%Z -> (0 <= d <= 9)%Z ->
  (1 <= 1000 * a + 100 * b + 10 * c + d)%Z ->
  yyyy (1000 * a + 100 * b + 10 * c + d)
  = String (digit a) (String (digit b) (String (digit c)
      (String (digit d) EmptyString))).
Proof.
  intros Ha Hb Hc Hd Hy.
  assert (C : forallb (fun a => forallb (fun b => forallb (fun c => forallb (fun d =>
                (1000 * a + 100 * b + 10 * c + d <? 1)%Z
                || String.eqb (yyyy (1000 * a + 100 * b + 10 * c + d))
                     (String (digit a) (String (digit b) (String (digit c)
                        (String (digit d) EmptyString)))))
                [0; 1; 2; 3; 4; 5; 6; 7; 8; 9]%Z)
                [0; 1; 2; 3; 4; 5; 6; 7; 8; 9]%Z)
                [0; 1; 2; 3; 4; 5; 6; 7; 8; 9]%Z)
                [0; 1; 2; 3; 4; 5; 6; 7; 8; 9]%Z = true)
    by (vm_compute; reflexivity).
  rewrite forallb_forall in C. specialize (C a (in_digits a Ha)).
  rewrite forallb_forall in C. specialize (C b (in_digits b Hb)).
  rewrite forallb_forall in C. specialize (C c (in_digits c Hc)).
  rewrite forallb_forall in C. specialize (C d (in_digits d Hd)).
  apply orb_true_iff in C. destruct C as [C|C].
  - apply Z.ltb_lt in C. lia.
  - now apply String.eqb_eq.
Qed.

(** A text that names a day, and the day it names. *)
Lemma parse_spec (s : string) (d : Day) :
  parse s = Some d ->
  exists y1 y2 y3 y4 m1 m2 d1 d2,
    s = String y1 (String y2 (String y3 (String y4 (String "-"
          (String m1 (String m2 (String "-"
            (String d1 (String d2 EmptyString)))))))))
    /\ forallb is_digit [y1; y2; y3; y4; m1; m2; d1; d2] = true
    /\ d = {| year := 1000 * digit_of y1 + 100 * digit_of y2
                      + 10 * digit_of y3 + digit_of y4;
              month := 10 * digit_of m1 + digit_of m2;
              day := 10 * digit_of d1 + digit_of d2 |}
    /\ is_day d = true.
Proof.
  destruct s as [|y1 [|y2 [|y3 [|y4 [|s1 [|m1 [|m2 [|s2 [|d1 [|d2 [|x r]]]]]]]]]]];
    try discriminate.
  unfold parse.
  destruct (forallb is_digit [y1; y2; y3; y4; m1; m2; d1; d2]) eqn:D;
    [|discriminate].
  destruct (Ascii.eqb_spec s1 "-"); [subst|discriminate].
  destruct (Ascii.eqb_spec s2 "-"); [subst|discriminate].
  cbn [andb].
  match goal with
  | |- (if is_day ?x then _ else _) = _ -> _ => destruct (is_day x) eqn:V
  end; [|discriminate].
  intros [= <-]. exists y1, y2, y3, y4, m1, m2, d1, d2. repeat split; assumption.
Qed.

(** The pattern on a day is the text of the day, rearranged. *)
Lemma ddMMyyyy_of_parsed (s : string) (d : Day) :
  parse s = Some d -> (1 <= year d)%Z -> ddMMyyyy d = day_month_year s.
Proof.
  intros P Hy. destruct (parse_spec s d P)
    as (y1 & y2 & y3 & y4 & m1 & m2 & d1 & d2 & -> & D & -> & V).
  cbn [forallb] in D. repeat (apply andb_prop in D; destruct D as [? D]).
  repeat match goal with
         | H : is_digit ?c = true |- _ =>
             let B := fresh "B" in let E := fresh "E" in
             destruct (is_digit_digit_of c H) as [B E]; clear H
         end.
  unfold ddMMyyyy, day_month_year. cbn [year month day] in *.
  rewrite !pad2_two_digits by assumption.
  rewrite yyyy_four_digits by assumption.
  cbn [substring]. congruence.
Qed.

Lemma pad2_of (x : Z) :
  (0 <= x <= 99)%Z ->
  pad2 x = String (digit (x / 10)) (String (digit (x mod 10)) EmptyString).
Proof.
  intros Hx. rewrite (Z.div_mod x 10) at 1 by lia.
  apply pad2_two_digits.
  - assert (x / 10 < 10)%Z by (apply Z.div_lt_upper_bound; lia).
    assert (0 <= x / 10)%Z by (apply Z.div_pos; lia). lia.
  - pose proof (Z.mod_pos_bound x 10). lia.
Qed.

Lemma digit_inj (a b : Z) :
  (0 <= a <= 9)%Z -> (0 <= b <= 9)%Z -> digit a = digit b -> a = b.
Proof.
  intros Ha Hb E.
  destruct (digit_is_digit a Ha) as [_ Va]. destruct (digit_is_digit b Hb) as [_ Vb].
  rewrite E in Va. rewrite Va in Vb. lia.
Qed.

Lemma pad2_inj (x y : Z) (r r' : string) :
  (0 <= x <= 99)%Z -> (0 <= y <= 99)%Z ->
  (pad2 x ++ r = pad2 y ++ r')%string -> x = y.
Proof.
  intros Hx Hy. rewrite (pad2_of x Hx), (pad2_of y Hy). cbn [append].
  intros [= E1 E0 _].
  assert (Bx : (0 <= x / 10 <= 9)%Z).
  { assert (x / 10 < 10)%Z by (apply Z.div_lt_upper_bound; lia).
    assert (0 <= x / 10)%Z by (apply Z.div_pos; lia). lia. }
  assert (By : (0 <= y / 10 <= 9)%Z).
  { assert (y / 10 < 10)%Z by (apply Z.div_lt_upper_bound; lia).
    assert (0 <= y / 10)%Z by (apply Z.div_pos; lia). lia. }
  pose proof (Z.mod_pos_bound x 10). pose proof (Z.mod_pos_bound y 10).
  apply digit_inj in E1; [|assumption|assumption].
  apply digit_inj in E0; [|lia|lia].
  rewrite (Z.div_mod x 10), (Z.div_mod y 10) by lia. lia.
Qed.

Lemma days_in_month_bounds (y m : Z) : (28 <= days_in_month y m <= 31)%Z.
Proof.
  unfold days_in_month. destruct (m =? 2)%Z; [destruct (leap y); lia|].
  destruct ((m =? 4) || (m =? 6) || (m =? 9) || (m =? 11))%Z; lia.
Qed.

Lemma is_day_bounds (d : Day) :
  is_day d = true ->
  (1 <= month d <= 12)%Z /\ (1 <= day d <= days_in_month (year d) (month d))%Z.
Proof.
  unfold is_day. intros H. repeat (apply andb_prop in H; destruct H as [H ?]).
  repeat match goal with
         | H : (_ <=? _)%Z = true |- _ => apply Z.leb_le in H
         end.
  lia.
Qed.

(** The day before is a day, with another number in its month. *)
Lemma previous_day_differs (d : Day) :
  is_day d = true ->
  (1 <= day (previous d) <= 31)%Z /\ day (previous d) <> day d.
Proof.
  intros V. destruct (is_day_bounds d V) as [Hm Hd].
  pose proof (days_in_month_bounds (year d) (month d)).
  pose proof (days_in_month_bounds (year d) (month d - 1)).
  unfold previous. destruct (Z.ltb_spec 1 (day d)); cbn [day]; [lia|].
  destruct (Z.ltb_spec 1 (month d)); cbn [day]; lia.
Qed.

(** The day before does not print as the day. *)
Lemma previous_prints_differently (d : Day) :
  is_day d = true -> ddMMyyyy (previous d) <> ddMMyyyy d.
Proof.
  intros V E. destruct (previous_day_differs d V) as [B N].
  destruct (is_day_bounds d V) as [_ Hd].
  pose proof (days_in_month_bounds (year d) (month d)).
  unfold ddMMyyyy in E. apply pad2_inj in E; [contradiction|lia|lia].
Qed.

Lemma substring_0_0 (s : string) : substring 0 0 s = EmptyString.
Proof. now destruct s. Qed.

Lemma substring_0_length (s : string) : substring 0 (String.length s) s = s.
Proof. induction s as [|c s IH]; simpl; [reflexivity | now rewrite IH]. Qed.

(** A text is its first j characters followed by the others. *)
Lemma substring_split (j : nat) :
  forall s : string,
    (j <= String.length s)%nat ->
    s = (substring 0 j s ++ substring j (String.length s - j) s)%string
    /\ String.length (substring 0 j s) = j.
Proof.
  induction j as [|j IH]; intros s Hj.
  - rewrite substring_0_0, Nat.sub_0_r, substring_0_length. now split.
  - destruct s as [|c s]; simpl in Hj; [lia|].
    destruct (IH s ltac:(lia)) as [E L]. cbn [substring String.length Nat.sub].
    split; [cbn [append]; now rewrite <- E | now rewrite L].
Qed.

Lemma all_digits_app (a b : string) :
  all_digits (a ++ b) = all_digits a && all_digits b.
Proof.
  induction a as [|c a IH]; simpl; [reflexivity|]. now rewrite IH, andb_assoc.
Qed.

Lemma decimal_app (a b : string) :
  decimal (a ++ b) 0 = (decimal a 0 * 10 ^ width b + decimal b 0)%N.
Proof.
  assert (G : forall acc, decimal (a ++ b) acc = decimal b (decimal a acc)).
  { induction a as [|c a IH]; intros acc; simpl; [reflexivity | apply IH]. }
  rewrite G. apply decimal_acc.
Qed.

Lemma length_app (a b : string) :
  String.length (a ++ b) = (String.length a + String.length b)%nat.
Proof. induction a as [|c a IH]; simpl; [reflexivity | now rewrite IH]. Qed.

Lemma pad3_digits (d : string) :
  all_digits d = true ->
  all_digits (pad3 d) = true
  /\ decimal (pad3 d) 0 = decimal d 0
  /\ (3 <= String.length (pad3 d))%nat.
Proof.
  intros H. destruct d as [|a [|b [|c r]]]; unfold pad3; cbn [String.length].
  - repeat split. simpl. lia.
  - split; [|split]; [simpl in *; exact H | reflexivity | simpl; lia].
  - split; [|split]; [simpl in *; exact H | reflexivity | simpl; lia].
  - split; [|split]; [exact H | reflexivity | simpl; lia].
Qed.

(** toFixed(2) writes the hundredths with a point before the last two
    digits. *)
Lemma point2_two_decimals (n : Z) :
  (0 <= n)%Z -> two_decimals n (point2 (pad3 (digits n))).
Proof.
  intros Hn. destruct (digits_value n Hn) as [A V].
  destruct (pad3_digits (digits n) A) as (A3 & V3 & L3).
  set (s := pad3 (digits n)) in *. unfold point2. fold s.
  destruct (substring_split (String.length s - 2) s ltac:(lia)) as [E L].
  replace (String.length s - (String.length s - 2))%nat with 2%nat in E by lia.
  set (ip := substring 0 (String.length s - 2) s) in *.
  set (fp := substring (String.length s - 2) 2 s) in *.
  assert (Lfp : String.length fp = 2%nat).
  { pose proof (f_equal String.length E) as LE. rewrite length_app, L in LE. lia. }
  assert (D : all_digits ip && all_digits fp = true)
    by (rewrite <- all_digits_app, <- E; exact A3).
  apply andb_prop in D. destruct D as [Dip Dfp].
  exists ip, fp. repeat split; trivial.
  - intros Z. rewrite Z in L. simpl in L. lia.
  - pose proof (f_equal (fun t => decimal t 0) E) as DE. cbv beta in DE.
    rewrite decimal_app in DE. unfold width in DE. rewrite Lfp in DE.
    change (10 ^ N.of_nat 2)%N with 100%N in DE.
    rewrite <- V, <- V3, DE. lia.
Qed.

Lemma hundredths_nonneg (m : positive) (e : Z) : (0 <= hundredths m e)%Z.
Proof.
  unfold hundredths. destruct (Z.leb_spec 0 e).
  - apply Z.mul_nonneg_nonneg; [lia|]. apply Z.pow_nonneg. lia.
  - apply Z.div_pos.
    + assert (0 <= 2 ^ (- e))%Z by (apply Z.pow_nonneg; lia). lia.
    + apply Z.pow_pos_nonneg; lia.
Qed.

Lemma hundredths_is_nearest (m : positive) (e : Z) :
  nearest_hundredth m e (hundredths m e).
Proof.
  unfold nearest_hundredth. destruct (Z.leb_spec 0 e) as [H|H].
  - now apply hundredths_integer.
  - now apply hundredths_nearest.
Qed.

(** The cell of a value is the value as a currency text. *)
Lemma money_is_currency (toString_large : number -> string) (x : number) :
  currency x (money toString_large x).
Proof.
  unfold currency, money, toFixed2, toFixed2_parts.
  destruct (Prim2SF x) as [s|s| |s m e]; trivial.
  intros B.
  assert (F : ((0 <=? e)%Z && (10 ^ 21 <=? Z.pos m * 2 ^ e)%Z)%bool = false).
  { destruct (Z.leb_spec 0 e); [|reflexivity]. cbn [andb].
    apply Z.leb_gt. destruct B; lia. }
  rewrite F. exists (hundredths m e), (point2 (pad3 (digits (hundredths m e)))).
  split; [reflexivity|]. split; [apply hundredths_is_nearest|].
  apply point2_two_decimals. apply hundredths_nonneg.
Qed.

(** The day before, on days of 2023 and 2024. *)
Lemma previous_examples :
  map previous
      [ {| year := 2024; month := 3; day := 15 |};
        {| year := 2024; month := 3; day := 1 |};
        {| year := 2023; month := 3; day := 1 |};
        {| year := 2024; month := 5; day := 1 |};
        {| year := 2024; month := 1; day := 1 |} ]
  = [ {| year := 2024; month := 3; day := 14 |};
      {| year := 2024; month := 2; day := 29 |};
      {| year := 2023; month := 2; day := 28 |};
      {| year := 2024; month := 4; day := 30 |};
      {| year := 2023; month := 12; day := 31 |} ].
Proof. reflexivity. Qed.

(** The cell Data of a record whose date is the text of a day: the date
    written day/month/year where local time is at or ahead of UTC, the day
    before where it is behind. *)
Lemma date_cell (offset : Day -> Z) (format_other : string -> string)
    (s : string) (d : Day) :
  parse s = Some d -> (1 <= year d)%Z ->
  ((0 <= offset d)%Z ->
   format_ddMMyyyy offset format_other s = day_month_year s)
  /\ ((offset d < 0)%Z ->
      format_ddMMyyyy offset format_other s = ddMMyyyy (previous d)
      /\ format_ddMMyyyy offset format_other s <> day_month_year s).
Proof.
  intros P Hy. unfold format_ddMMyyyy, local_day. rewrite P.
  pose proof (ddMMyyyy_of_parsed s d P Hy) as E.
  destruct (parse_spec s d P) as (? & ? & ? & ? & ? & ? & ? & ? & _ & _ & _ & V).
  split; intros H.
  - destruct (Z.ltb_spec (offset d) 0); [lia | exact E].
  - destruct (Z.ltb_spec (offset d) 0); [|lia]. split; [reflexivity|].
    rewrite <- E. now apply previous_prints_differently.
Qed.
End CellFormats.

(** ** The day before *)

Section DayBefore.
Import JsNumber JsObject Decimal FinancialReport DateFns Cells.

Lemma leap_step (y : Z) :
  (y / 4 - y / 100 + y / 400
   - ((y - 1) / 4 - (y - 1) / 100 + (y - 1) / 400)
   = if leap y then 1 else 0)%Z.
Proof.
  unfold leap.
  destruct (Z.eqb_spec (y mod 4) 0); destruct (Z.eqb_spec (y mod 100) 0);
    destruct (Z.eqb_spec (y mod 400) 0); cbn [negb andb orb];
    Z.div_mod_to_equations; lia.
Qed.

Lemma previous_is_day (d : Day) : is_day d = true -> is_day (previous d) = true.
Proof.
  intros V. destruct (is_day_bounds d V) as [Hm Hd].
  pose proof (days_in_month_bounds (year d) (month d - 1)).
  unfold previous, is_day.
  destruct (Z.ltb_spec 1 (day d)); cbn [year month day].
  - repeat (apply andb_true_intro; split); apply Z.leb_le; lia.
  - destruct (Z.ltb_spec 1 (month d)); cbn [year month day].
    + repeat (apply andb_true_intro; split); apply Z.leb_le; lia.
    + reflexivity.
Qed.

(** The day before has the number before. *)
Lemma previous_day_number (d : Day) :
  is_day d = true -> day_number (previous d) = (day_number d - 1)%Z.
Proof.
  intros V. destruct (is_day_bounds d V) as [Hm Hd].
  unfold previous. destruct (Z.ltb_spec 1 (day d)).
  - unfold day_number. cbn [year month day]. lia.
  - assert (D1 : day d = 1%Z) by lia.
    destruct (Z.ltb_spec 1 (month d)).
    + unfold day_number. cbn [year month day]. rewrite D1.
      pose proof (leap_step (year d)) as L.
      assert (M : (month d = 2 \/ month d = 3 \/ month d = 4 \/ month d = 5
                   \/ month d = 6 \/ month d = 7 \/ month d = 8 \/ month d = 9
                   \/ month d = 10 \/ month d = 11 \/ month d = 12)%Z) by lia.
      unfold days_in_month.
      destruct (leap (year d));
        repeat (destruct M as [M|M]); rewrite M;
        repeat match goal with
               | |- context [(?a <=? ?b)%Z] =>
                   let v := eval vm_compute in (a <=? b)%Z in
                   change (a <=? b)%Z with v
               | |- context [(?a =? ?b)%Z] =>
                   let v := eval vm_compute in (a =? b)%Z in
                   change (a =? b)%Z with v
               end;
        cbn [orb]; Z.div_mod_to_equations; lia.
    + assert (M1 : month d = 1%Z) by lia.
      unfold day_number. cbn [year month day]. rewrite M1, D1. cbn. lia.
Qed.

Lemma digit_of_digit (x : Z) :
  (0 <= x <= 9)%Z -> is_digit (digit x) = true /\ digit_of (digit x) = x.
Proof.
  intros Hx. destruct (digit_is_digit x Hx) as [D V]. split; [exact D|].
  unfold digit_value in V. unfold digit_of. lia.
Qed.

Lemma parsed_year_bounds (s : string) (d : Day) :
  parse s = Some d -> (0 <= year d <= 9999)%Z.
Proof.
  intros P. destruct (parse_spec s d P)
    as (y1 & y2 & y3 & y4 & m1 & m2 & d1 & d2 & _ & D & -> & _).
  cbn [forallb] in D. repeat (apply andb_prop in D; destruct D as [? D]).
  repeat match goal with
         | H : is_digit ?c = true |- _ =>
             let B := fresh "B" in
             destruct (is_digit_digit_of c H) as [B _]; clear H
         end.
  cbn [year]. lia.
Qed.

(** The text of a day names the day. *)
Lemma parse_iso (d : Day) :
  is_day d = true -> (0 <= year d <= 9999)%Z -> parse (iso d) = Some d.
Proof.
  intros V Hy. destruct (is_day_bounds d V) as [Hm Hd].
  pose proof (days_in_month_bounds (year d) (month d)) as Hdim.
  destruct d as [y m dd]. cbn [year month day] in *.
  assert (A1 : (0 <= y / 1000 <= 9)%Z) by (Z.div_mod_to_equations; lia).
  assert (A2 : (0 <= y / 100 mod 10 <= 9)%Z) by (Z.div_mod_to_equations; lia).
  assert (A3 : (0 <= y mod 100 / 10 <= 9)%Z) by (Z.div_mod_to_equations; lia).
  assert (A4 : (0 <= y mod 100 mod 10 <= 9)%Z) by (Z.div_mod_to_equations; lia).
  assert (M1 : (0 <= m / 10 <= 9)%Z) by (Z.div_mod_to_equations; lia).
  assert (M2 : (0 <= m mod 10 <= 9)%Z) by (Z.div_mod_to_equations; lia).
  assert (D1 : (0 <= dd / 10 <= 9)%Z) by (Z.div_mod_to_equations; lia).
  assert (D2 : (0 <= dd mod 10 <= 9)%Z) by (Z.div_mod_to_equations; lia).
  unfold iso. cbn [year month day append]. unfold parse. cbn [forallb].
  rewrite !(proj1 (digit_of_digit _ A1)), !(proj1 (digit_of_digit _ A2)),
    !(proj1 (digit_of_digit _ A3)), !(proj1 (digit_of_digit _ A4)),
    !(proj1 (digit_of_digit _ M1)), !(proj1 (digit_of_digit _ M2)),
    !(proj1 (digit_of_digit _ D1)), !(proj1 (digit_of_digit _ D2)).
  rewrite !(proj2 (digit_of_digit _ A1)), !(proj2 (digit_of_digit _ A2)),
    !(proj2 (digit_of_digit _ A3)), !(proj2 (digit_of_digit _ A4)),
    !(proj2 (digit_of_digit _ M1)), !(proj2 (digit_of_digit _ M2)),
    !(proj2 (digit_of_digit _ D1)), !(proj2 (digit_of_digit _ D2)).
  cbn [andb Ascii.eqb Bool.eqb].
  replace (1000 * (y / 1000) + 100 * (y / 100 mod 10) + 10 * (y mod 100 / 10)
           + y mod 100 mod 10)%Z with y by (Z.div_mod_to_equations; lia).
  replace (10 * (m / 10) + m mod 10)%Z with m by (Z.div_mod_to_equations; lia).
  replace (10 * (dd / 10) + dd mod 10)%Z with dd by (Z.div_mod_to_equations; lia).
  now rewrite V.
Qed.

(** The cell Data behind UTC: the text of the day before, written
    day/month/year. *)
Lemma date_cell_behind_utc (offset : Day -> Z) (format_other : string -> string)
    (s : string) (d : Day) :
  parse s = Some d -> (2 <= year d)%Z -> (offset d < 0)%Z ->
  exists text before,
    parse text = Some before
    /\ day_number before = (day_number d - 1)%Z
    /\ format_ddMMyyyy offset format_other s = day_month_year text
    /\ format_ddMMyyyy offset format_other s <> day_month_year s.
Proof.
  intros P Hy Ho.
  destruct (parse_spec s d P) as (? & ? & ? & ? & ? & ? & ? & ? & _ & _ & _ & V).
  pose proof (parsed_year_bounds s d P) as By.
  assert (Vp : is_day (previous d) = true) by now apply previous_is_day.
  assert (Yp : (1 <= year (previous d) <= 9999)%Z).
  { unfold previous. destruct (1 <? day d)%Z; [|destruct (1 <? month d)%Z];
      cbn [year]; lia. }
  assert (Pp : parse (iso (previous d)) = Some (previous d))
    by (apply parse_iso; [exact Vp | lia]).
  destruct (proj2 (date_cell offset format_other s d P ltac:(lia)) Ho) as [E N].
  exists (iso (previous d)), (previous d).
  split; [exact Pp|]. split; [now apply previous_day_number|].
  split; [|exact N]. rewrite E. apply ddMMyyyy_of_parsed; [exact Pp | lia].
Qed.
End DayBefore.

Section ExportedCells.
Import JsNumber JsObject Decimal FinancialReport DateFns Cells.
Variable toString_large : number -> string.
Variable offset : Day -> Z.
Variable format_other : string -> string.

(** The sheet and the file name, with the cells as date-fns and toFixed
    write them.  Below its first row (the header when there is a record) the
    sheet has one row per record of the groups, group after group: the
    patient's name, the cell of the date and the value as a currency text;
    then one row Total <name>:, blank, subtotal as a currency text per group;
    then the row Total Geral:, blank, grand total as a currency text.  The
    file is named relatorio-financeiro-<month>-<year>.xlsx with the month's
    name in Portuguese and the four digits of the year. *)
Theorem export_layout (now : Today) (st : State) :
  let e :=
    handleExportExcel toString_large (format_ddMMyyyy offset format_other)
      MMMM now st in
  let records := List.concat (map appointments (st_patientTotals st)) in
  (exists rows totals total,
     worksheet e
     = (match records with [] => [] | _ => [ "Paciente"; "Data"; "Valor" ] end)
       :: rows ++ totals ++ [ total ]
     /\ Forall2
          (fun a row =>
             exists date cell,
               row = [ app_patientName a; date; cell ]
               /\ currency (app_value a) cell
               /\ (forall d, parse (app_date a) = Some d -> (1 <= year d)%Z ->
                             (0 <= offset d)%Z ->
                             date = day_month_year (app_date a)))
          records rows
     /\ Forall2
          (fun p row =>
             exists cell,
               row = [ ("Total " ++ patientName p ++ ":")%string; EmptyString; cell ]
               /\ currency (totalValue p) cell)
          (st_patientTotals st) totals
     /\ exists cell,
          total = [ "Total Geral:"; EmptyString; cell ]
          /\ currency (st_totalValue st) cell)
  /\ (forall a b c d : Z,
        (0 <= a <= 9)%Z -> (0 <= b <= 9)%Z -> (0 <= c <= 9)%Z -> (0 <= d <= 9)%Z ->
        today_year now = (1000 * a + 100 * b + 10 * c + d)%Z ->
        (1 <= today_year now)%Z ->
        filename e
        = ("relatorio-financeiro-"
           ++ nth (today_month now)
                [ "janeiro"; "fevereiro"; "março"; "abril"; "maio"; "junho";
                  "julho"; "agosto"; "setembro"; "outubro"; "novembro";
                  "dezembro" ] EmptyString
           ++ "-"
           ++ String (digit a) (String (digit b) (String (digit c)
                (String (digit d) EmptyString)))
           ++ ".xlsx")%string).
Proof.
  cbv zeta. split.
  - exists (map (appointmentRow toString_large (format_ddMMyyyy offset format_other))
                (List.concat (map appointments (st_patientTotals st)))),
           (map (patientTotalRow toString_large) (st_patientTotals st)),
           (grandTotalRow toString_large (st_totalValue st)).
    split; [|split; [|split]].
    + unfold handleExportExcel. cbn [worksheet]. unfold sheet_add_aoa.
      rewrite flat_map_map_concat. unfold json_to_sheet.
      destruct (List.concat (map appointments (st_patientTotals st)));
        reflexivity.
    + induction (List.concat (map appointments (st_patientTotals st)))
        as [|a l IH]; [constructor|].
      cbn [map]. constructor; [|exact IH].
      eexists. eexists. split; [reflexivity|].
      split; [apply money_is_currency|].
      intros d P Hy Ho. now apply (proj1 (date_cell offset format_other _ d P Hy)).
    + induction (st_patientTotals st) as [|p l IH]; [constructor|].
      cbn [map]. constructor; [|exact IH].
      eexists. split; [reflexivity | apply money_is_currency].
    + eexists. split; [reflexivity | apply money_is_currency].
  - intros a b c d Ha Hb Hc Hd E Hy.
    unfold handleExportExcel. cbn [filename]. unfold format_MMMM_yyyy.
    rewrite E. rewrite yyyy_four_digits by (try assumption; lia).
    unfold MMMM, ptBR_months. now rewrite !string_append_assoc.
Qed.

(** C7 (code_bug).  Behind UTC the cell Data is not the record's date: for
    every report and every record of it whose date is the text YYYY-MM-DD of
    a day (of the years from 2 on), exported where local time is behind UTC
    at 00:00 UTC of that day, the row of the record in the sheet holds, with
    the patient's name and the value as a currency text, the date of the day
    before written day/month/year, which is not the record's date written
    day/month/year. *)
Theorem C7_export_date_is_the_day_before_behind_utc
    (now : Today) (st : State) (p : PatientTotal) (a : AppointmentWithPatient)
    (d : Day) :
  In p (st_patientTotals st) -> In a (appointments p) ->
  parse (app_date a) = Some d -> (2 <= year d)%Z -> (offset d < 0)%Z ->
  let e :=
    handleExportExcel toString_large (format_ddMMyyyy offset format_other)
      MMMM now st in
  exists date cell text before,
    In [ app_patientName a; date; cell ] (worksheet e)
    /\ currency (app_value a) cell
    /\ parse text = Some before
    /\ day_number before = (day_number d - 1)%Z
    /\ date = day_month_year text
    /\ date <> day_month_year (app_date a).
Proof.
  intros Hp Ha P Hy Ho. cbv zeta.
  destruct (date_cell_behind_utc offset format_other _ d P Hy Ho)
    as (text & before & Pb & Nb & E & N).
  exists (format_ddMMyyyy offset format_other (app_date a)),
         (money toString_large (app_value a)), text, before.
  split; [|split; [apply money_is_currency|]]; [|repeat split; assumption].
  unfold handleExportExcel. cbn [worksheet]. unfold sheet_add_aoa.
  apply in_or_app. left.
  assert (R : In (appointmentRow toString_large
                    (format_ddMMyyyy offset format_other) a)
                 (flat_map
                    (fun patient =>
                       map (appointmentRow toString_large
                              (format_ddMMyyyy offset format_other))
                           (appointments patient))
                    (st_patientTotals st))).
  { apply in_flat_map. exists p. split; [exact Hp|]. now apply in_map. }
  unfold json_to_sheet.
  destruct (flat_map _ (st_patientTotals st)); [destruct R | now right].
Qed.
End ExportedCells.

(** The report of one appointment of Ana on 2024-03-01, exported in
    Brasília (three hours behind UTC) in November 2026: the sheet dates the
    appointment 29/02/2024. *)
Lemma export_behind_utc :
  let st :=
    {| FinancialReport.st_appointments := [ Grouping.record "a1" "Ana" 100 ];
       FinancialReport.st_patientTotals :=
         [ {| FinancialReport.patientName := "Ana";
              FinancialReport.totalValue := 100%float;
              FinancialReport.appointments := [ Grouping.record "a1" "Ana" 100 ] |} ];
       FinancialReport.st_totalValue := 100%float;
       FinancialReport.st_isLoading := false |} in
  let e :=
    FinancialReport.handleExportExcel (fun _ => EmptyString)
      (DateFns.format_ddMMyyyy (fun _ => (-180)%Z) (fun s => s)) DateFns.MMMM
      {| FinancialReport.today_month := 10; FinancialReport.today_year := 2026 |}
      st in
  FinancialReport.worksheet e
  = [ [ "Paciente"; "Data"; "Valor" ];
      [ "Ana"; "29/02/2024"; "R$ 100.00" ];
      [ "Total Ana:"; EmptyString; "R$ 100.00" ];
      [ "Total Geral:"; EmptyString; "R$ 100.00" ] ]
  /\ FinancialReport.filename e = "relatorio-financeiro-novembro-2026.xlsx".
Proof. split; vm_compute; reflexivity. Qed.

Lemma C7_export_date_is_the_day_before_behind_utc_example :
  let st :=
    {| FinancialReport.st_appointments := [ Grouping.record "a1" "Ana" 100 ];
       FinancialReport.st_patientTotals :=
         [ {| FinancialReport.patientName := "Ana";
              FinancialReport.totalValue := 100%float;
              FinancialReport.appointments := [ Grouping.record "a1" "Ana" 100 ] |} ];
       FinancialReport.st_totalValue := 100%float;
       FinancialReport.st_isLoading := false |} in
  let e :=
    FinancialReport.handleExportExcel (fun _ => EmptyString)
      (DateFns.format_ddMMyyyy (fun _ => (-180)%Z) (fun s => s)) DateFns.MMMM
      {| FinancialReport.today_month := 10; FinancialReport.today_year := 2026 |}
      st in
  exists date cell text before,
    In [ "Ana"; date; cell ] (FinancialReport.worksheet e)
    /\ Cells.currency 100%float cell
    /\ DateFns.parse text = Some before
    /\ Cells.day_number before
       = (Cells.day_number
            {| DateFns.year := 2024; DateFns.month := 3; DateFns.day := 1 |} - 1)%Z
    /\ date = Cells.day_month_year text
    /\ date <> Cells.day_month_year "2024-03-01".
Proof.
  cbv zeta.
  apply (C7_export_date_is_the_day_before_behind_utc
           (fun _ => EmptyString) (fun _ => (-180)%Z) (fun s => s)
           {| FinancialReport.today_month := 10; FinancialReport.today_year := 2026 |}
           {| FinancialReport.st_appointments := [ Grouping.record "a1" "Ana" 100 ];
              FinancialReport.st_patientTotals :=
                [ {| FinancialReport.patientName := "Ana";
                     FinancialReport.totalValue := 100%float;
                     FinancialReport.appointments :=
                       [ Grouping.record "a1" "Ana" 100 ] |} ];
              FinancialReport.st_totalValue := 100%float;
              FinancialReport.st_isLoading := false |}
           {| FinancialReport.patientName := "Ana";
              FinancialReport.totalValue := 100%float;
              FinancialReport.appointments := [ Grouping.record "a1" "Ana" 100 ] |}
           (Grouping.record "a1" "Ana" 100)
           {| DateFns.year := 2024; DateFns.month := 3; DateFns.day := 1 |}).
  - now left.
  - now left.
  - reflexivity.
  - cbn. lia.
  - lia.
Defined.

(** The export of the spec's example in November 2026, at UTC. *)
Lemma export_example :
  let st :=
    {| FinancialReport.st_appointments := Examples.example_input;
       FinancialReport.st_patientTotals :=
         [ {| FinancialReport.patientName := "Ana";
              FinancialReport.totalValue := 150.50%float;
              FinancialReport.appointments :=
                [ Grouping.record "a1" "Ana" 100.00; Grouping.record "a2" "Ana" 50.50 ] |};
           {| FinancialReport.patientName := "Bruno";
              FinancialReport.totalValue := 75.25%float;
              FinancialReport.appointments := [ Grouping.record "a3" "Bruno" 75.25 ] |} ];
       FinancialReport.st_totalValue := 225.75%float;
       FinancialReport.st_isLoading := false |} in
  let e :=
    FinancialReport.handleExportExcel (fun _ => EmptyString)
      (DateFns.format_ddMMyyyy (fun _ => 0%Z) (fun s => s)) DateFns.MMMM
      {| FinancialReport.today_month := 10; FinancialReport.today_year := 2026 |} st in
  FinancialReport.worksheet e =
    [ [ "Paciente"; "Data"; "Valor" ];
      [ "Ana"; "01/03/2024"; "R$ 100.00" ];
      [ "Ana"; "01/03/2024"; "R$ 50.50" ];
      [ "Bruno"; "01/03/2024"; "R$ 75.25" ];
      [ "Total Ana:"; EmptyString; "R$ 150.50" ];
      [ "Total Bruno:"; EmptyString; "R$ 75.25" ];
      [ "Total Geral:"; EmptyString; "R$ 225.75" ] ]
  /\ FinancialReport.filename e = "relatorio-financeiro-novembro-2026.xlsx".
Proof. split; vm_compute; reflexivity. Qed.

(** ** Orphan filtering *)

Section Orphans.
Import JsNumber FinancialReport.

Lemma formattedAppointments_app d1 d2 :
  formattedAppointments (d1 ++ d2) =
  formattedAppointments d1 ++ formattedAppointments d2.
Proof. unfold formattedAppointments. now rewrite filter_app, map_app. Qed.

Lemma formattedAppointments_dropped d1 app d2 :
  has_patient_name app = false ->
  formattedAppointments (d1 ++ app :: d2) = formattedAppointments (d1 ++ d2).
Proof.
  intros H. rewrite !formattedAppointments_app. f_equal.
  unfold formattedAppointments. simpl. now rewrite H.
Qed.

(** C5, the claim as stated fails: an appointment whose patient is resolved,
    with an empty name, is not retained in the input of the aggregator. *)
Lemma C5_resolved_patient_not_retained :
  let app :=
    {| f_id := "a1"; f_date := "2024-03-01"; f_value := Some 100%float;
       f_patients := Some {| pj_name := EmptyString |} |} in
  f_patients app <> None /\ formattedAppointments [app] = [].
Proof. split; [discriminate | reflexivity]. Qed.

(** C5 (corrected).  The scheduled-consultations list shows exactly the
    appointments whose patient is not null.  In the report an appointment
    whose patient is null adds nothing to the input of the aggregator, and
    the whole state the report and its export are made from is the one of
    the fetch without it.  An appointment whose patient has a non-empty name
    adds one record to the input of the aggregator, in place, under that
    name; when none of the names kept is inherited from Object.prototype the
    report holds that record in the group of that name. *)
Theorem C5_orphans_are_hidden
    (v : AppointmentScheduling.View) (a : AppointmentScheduling.Appointment)
    (d1 d2 : list FetchedAppointment) (app : FetchedAppointment) (st : State) :
  (In a (AppointmentScheduling.scheduledConsultations v)
   <-> In a (AppointmentScheduling.appointments v)
       /\ AppointmentScheduling.patient a <> None)
  /\ match f_patients app with
     | None =>
         formattedAppointments (d1 ++ app :: d2) = formattedAppointments (d1 ++ d2)
         /\ fetchAppointments (inr (d1 ++ app :: d2)) st
            = fetchAppointments (inr (d1 ++ d2)) st
     | Some p =>
         pj_name p <> EmptyString ->
         exists row,
           app_id row = f_id app /\ app_patientName row = pj_name p
           /\ formattedAppointments (d1 ++ app :: d2)
              = formattedAppointments d1 ++ row :: formattedAppointments d2
           /\ (Grouping.plain_names (formattedAppointments (d1 ++ app :: d2)) ->
               let report :=
                 fetched_state (fetchAppointments (inr (d1 ++ app :: d2)) st) in
               In row (st_appointments report)
               /\ exists g,
                    In g (st_patientTotals report)
                    /\ patientName g = pj_name p
                    /\ In row (appointments g))
     end.
Proof.
  split.
  - unfold AppointmentScheduling.scheduledConsultations.
    rewrite filter_In. unfold AppointmentScheduling.has_patient.
    destruct (AppointmentScheduling.patient a); intuition congruence.
  - destruct (f_patients app) as [p|] eqn:P.
    + intros Hn.
      assert (E : String.eqb (pj_name p) EmptyString = false)
        by now apply String.eqb_neq.
      assert (F : formattedAppointments (d1 ++ app :: d2)
                  = formattedAppointments d1
                    ++ format_row app :: formattedAppointments d2).
      { rewrite formattedAppointments_app. f_equal.
        unfold formattedAppointments. cbn [filter].
        unfold has_patient_name. rewrite P, E. reflexivity. }
      assert (N : app_patientName (format_row app) = pj_name p).
      { unfold format_row. rewrite P, E. reflexivity. }
      exists (format_row app).
      split; [reflexivity|]. split; [exact N|]. split; [exact F|].
      intros Plain. cbv zeta.
      assert (Hin : In (format_row app) (formattedAppointments (d1 ++ app :: d2))).
      { rewrite F. apply in_or_app. right. now left. }
      unfold fetchAppointments.
      pose proof (calculateTotals_plain _ Plain) as C. cbv zeta in C.
      rewrite C. cbn. split; [exact Hin|].
      exists (Grouping.group (formattedAppointments (d1 ++ app :: d2))
                (app_patientName (format_row app))).
      split; [|split].
      * apply (Permutation_in _ (Permutation_sym (groups_perm _ _))).
        apply in_map. apply first_appearances_In. now apply in_map.
      * exact N.
      * cbn. unfold Grouping.records_of. apply filter_In. split; [exact Hin|].
        apply String.eqb_refl.
    + assert (D : formattedAppointments (d1 ++ app :: d2)
                  = formattedAppointments (d1 ++ d2)).
      { apply formattedAppointments_dropped. unfold has_patient_name.
        now rewrite P. }
      split; [exact D|]. unfold fetchAppointments. now rewrite D.
Qed.

Lemma C5_orphans_are_hidden_example :
  let named :=
    {| f_id := "a1"; f_date := "2024-03-01"; f_value := Some 100%float;
       f_patients := Some {| pj_name := "Ana" |} |} in
  let orphan :=
    {| f_id := "a2"; f_date := "2024-03-02"; f_value := Some 80%float;
       f_patients := None |} in
  fetchAppointments (inr ([] ++ orphan :: [named])) initial
  = fetchAppointments (inr ([] ++ [named])) initial
  /\ exists row,
       app_id row = "a1" /\ app_patientName row = "Ana"
       /\ formattedAppointments ([orphan] ++ named :: [])
          = formattedAppointments [orphan] ++ row :: formattedAppointments []
       /\ (Grouping.plain_names (formattedAppointments ([orphan] ++ named :: [])) ->
           let report :=
             fetched_state
               (fetchAppointments (inr ([orphan] ++ named :: [])) initial) in
           In row (st_appointments report)
           /\ exists g,
                In g (st_patientTotals report)
                /\ patientName g = "Ana"
                /\ In row (appointments g)).
Proof.
  cbv zeta.
  pose (v := {| AppointmentScheduling.currentUser := None;
                AppointmentScheduling.appointmentTypes := [];
                AppointmentScheduling.appointments := [];
                AppointmentScheduling.toasts := [];
                AppointmentScheduling.console := [] |}).
  pose (a := {| AppointmentScheduling.id := "a2";
                AppointmentScheduling.a_patient_id := "p2";
                AppointmentScheduling.date := "2024-03-02";
                AppointmentScheduling.time := "10:00";
                AppointmentScheduling.value := 80%float;
                AppointmentScheduling.appointment_type_id := None;
                AppointmentScheduling.patient := None;
                AppointmentScheduling.appointment_type := None |}).
  split.
  - exact (proj2 (proj2 (C5_orphans_are_hidden v a [] [ _ ]
                           {| f_id := "a2"; f_date := "2024-03-02";
                              f_value := Some 80%float; f_patients := None |}
                           initial))).
  - apply (proj2 (C5_orphans_are_hidden v a [ _ ] []
                    {| f_id := "a1"; f_date := "2024-03-01";
                       f_value := Some 100%float;
                       f_patients := Some {| pj_name := "Ana" |} |}
                    initial)).
    discriminate.
Defined.

(** C10 (confirmed).  A fetched record whose patient is not null and has
    the empty name is left out of the report: the aggregator's input, and
    the whole state the report and its export are made from, are the same
    as if the record had not been fetched.  The scheduling list shows an
    appointment in the same case. *)
Theorem C10_empty_name_hidden_in_report_only
    (d1 d2 : list FetchedAppointment) (app : FetchedAppointment) (p : PatientJoin)
    (st : State)
    (v : AppointmentScheduling.View) (a : AppointmentScheduling.Appointment)
    (q : AppointmentScheduling.Patient) :
  f_patients app = Some p -> pj_name p = EmptyString ->
  AppointmentScheduling.patient a = Some q ->
  AppointmentScheduling.patient_name q = EmptyString ->
  In a (AppointmentScheduling.appointments v) ->
  formattedAppointments (d1 ++ app :: d2) = formattedAppointments (d1 ++ d2)
  /\ fetchAppointments (inr (d1 ++ app :: d2)) st
     = fetchAppointments (inr (d1 ++ d2)) st
  /\ In a (AppointmentScheduling.scheduledConsultations v).
Proof.
  intros P N Q _ Ha.
  assert (D : formattedAppointments (d1 ++ app :: d2) = formattedAppointments (d1 ++ d2)).
  { apply formattedAppointments_dropped. unfold has_patient_name.
    now rewrite P, N. }
  split; [exact D|]. split.
  - unfold fetchAppointments. now rewrite D.
  - unfold AppointmentScheduling.scheduledConsultations. apply filter_In.
    split; [exact Ha|]. unfold AppointmentScheduling.has_patient. now rewrite Q.
Qed.

(** A patient named after an inherited property: the fetch is rejected
    with the TypeError, the appointments are stored, the totals are not, and
    the component stays in its loading state. *)
Lemma fetch_rejected_on_inherited_name :
  fetchAppointments
    (inr [ {| f_id := "a1"; f_date := "2024-03-01"; f_value := Some 100%float;
              f_patients := Some {| pj_name := "constructor" |} |} ])
    initial
  = {| fetched_state :=
         {| st_appointments :=
              [ {| app_id := "a1"; app_date := "2024-03-01";
                   app_patientName := "constructor"; app_value := 100%float |} ];
            st_patientTotals := [];
            st_totalValue := zero;
            st_isLoading := true |};
       fetched_toasts := [];
       fetched_rejection := Some TypeError_push |}.
Proof. reflexivity. Qed.
End Orphans.

(** ** The password form *)

Section Password.
Import ChangePassword.

(** C8 (confirmed).  Two submissions that pass the schema and agree on the
    new password and its confirmation issue the same single request, which
    carries the new password only, and have the same outcome, whatever the
    current-password fields hold. *)
Theorem C8_current_password_is_not_sent
    (updateUser : UpdateUser -> option string) (d1 d2 : PasswordFormData) (st : State) :
  passwordSchema d1 = true -> passwordSchema d2 = true ->
  newPassword d1 = newPassword d2 ->
  confirmPassword d1 = confirmPassword d2 ->
  issued (handleSubmit updateUser d1 st) = [ {| password := newPassword d1 |} ]
  /\ handleSubmit updateUser d1 st = handleSubmit updateUser d2 st.
Proof.
  intros V1 V2 En _. unfold handleSubmit. rewrite V1, V2.
  unfold onSubmit. rewrite <- En.
  destruct (updateUser {| password := newPassword d1 |}); split; reflexivity.
Qed.
End Password.

Lemma C8_current_password_is_not_sent_example :
  let d1 := {| ChangePassword.currentPassword := "secret-old";
               ChangePassword.newPassword := "secret-new";
               ChangePassword.confirmPassword := "secret-new" |} in
  let d2 := {| ChangePassword.currentPassword := "anything";
               ChangePassword.newPassword := "secret-new";
               ChangePassword.confirmPassword := "secret-new" |} in
  let st := {| ChangePassword.isLoading := false;
               ChangePassword.successMessage := EmptyString;
               ChangePassword.toasts := []; ChangePassword.console := [] |} in
  ChangePassword.issued (ChangePassword.handleSubmit (fun _ => None) d1 st)
    = [ {| ChangePassword.password := "secret-new" |} ]
  /\ ChangePassword.handleSubmit (fun _ => None) d1 st
     = ChangePassword.handleSubmit (fun _ => None) d2 st.
Proof.
  cbv zeta.
  apply (C8_current_password_is_not_sent (fun _ => None)
           {| ChangePassword.currentPassword := "secret-old";
              ChangePassword.newPassword := "secret-new";
              ChangePassword.confirmPassword := "secret-new" |}
           {| ChangePassword.currentPassword := "anything";
              ChangePassword.newPassword := "secret-new";
              ChangePassword.confirmPassword := "secret-new" |});
    reflexivity.
Defined.

Lemma C10_empty_name_hidden_in_report_only_example :
  let app :=
    {| FinancialReport.f_id := "a2"; FinancialReport.f_date := "2024-03-02";
       FinancialReport.f_value := Some 80%float;
       FinancialReport.f_patients :=
         Some {| FinancialReport.pj_name := EmptyString |} |} in
  let other :=
    {| FinancialReport.f_id := "a1"; FinancialReport.f_date := "2024-03-01";
       FinancialReport.f_value := Some 100%float;
       FinancialReport.f_patients := Some {| FinancialReport.pj_name := "Ana" |} |} in
  let a :=
    {| AppointmentScheduling.id := "a2";
       AppointmentScheduling.a_patient_id := "p2";
       AppointmentScheduling.date := "2024-03-02";
       AppointmentScheduling.time := "10:00";
       AppointmentScheduling.value := 80%float;
       AppointmentScheduling.appointment_type_id := None;
       AppointmentScheduling.patient :=
         Some {| AppointmentScheduling.patient_id := "p2";
                 AppointmentScheduling.patient_name := EmptyString |};
       AppointmentScheduling.appointment_type := None |} in
  let v :=
    {| AppointmentScheduling.currentUser := Some "u1";
       AppointmentScheduling.appointmentTypes := [];
       AppointmentScheduling.appointments := [a];
       AppointmentScheduling.toasts := [];
       AppointmentScheduling.console := [] |} in
  FinancialReport.formattedAppointments ([other] ++ app :: [])
    = FinancialReport.formattedAppointments ([other] ++ [])
  /\ FinancialReport.fetchAppointments (inr ([other] ++ app :: [])) FinancialReport.initial
     = FinancialReport.fetchAppointments (inr ([other] ++ [])) FinancialReport.initial
  /\ In a (AppointmentScheduling.scheduledConsultations v).
Proof.
  cbv zeta.
  eapply C10_empty_name_hidden_in_report_only; try reflexivity.
  simpl. now left.
Defined.

(** ** The referential guard *)

Section Guard.
Import AppointmentScheduling Guarding.
Local Arguments select_appointments_using : simpl never.

Lemma check_finds_reference (typeId : string) (s : Store) :
  (0 <? List.length (select_appointments_using typeId s))%nat = true
  <-> referenced typeId s.
Proof.
  unfold select_appointments_using, referenced. rewrite Nat.ltb_lt. split.
  - intros L.
    destruct (filter (references typeId) (appointment_rows s)) as [|r rest] eqn:F.
    + simpl in L. lia.
    + assert (Hr : In r (filter (references typeId) (appointment_rows s)))
        by (rewrite F; now left).
      apply filter_In in Hr. destruct Hr as [Hin Href]. exists r. split; [exact Hin|].
      unfold references in Href.
      destruct (row_appointment_type_id r) as [t|]; [|discriminate].
      apply String.eqb_eq in Href. now subst.
  - intros (r & Hin & Href).
    assert (Hr : In r (filter (references typeId) (appointment_rows s))).
    { apply filter_In. split; [exact Hin|]. unfold references.
      rewrite Href. apply String.eqb_refl. }
    destruct (filter (references typeId) (appointment_rows s)); [destruct Hr|].
    simpl. lia.
Qed.


End Guard.


(** What the component shows after each of the two. *)
Lemma guard_example_outcome :
  let w' :=
    snd (AppointmentScheduling.handleDeleteAppointmentType
           Examples.no_faults (fun l => l) (fun l => l) "t1" Examples.world_in_use) in
  let u' :=
    snd (AppointmentScheduling.handleDeleteAppointmentType
           Examples.no_faults (fun l => l) (fun l => l) "t1" Examples.world_unused) in
  AppointmentScheduling.appointmentTypes (AppointmentScheduling.view w')
    = [ Examples.consulta_padrao ]
  /\ AppointmentScheduling.toasts (AppointmentScheduling.view w')
     = [ AppointmentScheduling.in_use_toast ]
  /\ AppointmentScheduling.appointmentTypes (AppointmentScheduling.view u') = []
  /\ AppointmentScheduling.requests u'
     = [ AppointmentScheduling.SelectAppointmentsUsing "t1";
         AppointmentScheduling.DeleteAppointmentType "t1";
         AppointmentScheduling.SelectAppointmentTypes "u1";
         AppointmentScheduling.SelectAppointments "u1" ].
Proof. repeat split; reflexivity. Qed.

(** * Properties of the other handlers *)

(** ** PatientManagement: the list and the table *)

Section PatientListFacts.
Import Effects PatientManagement PatientList.

Lemma Permutation_filter_both (A : Type) (f : A -> bool) (l l' : list A) :
  Permutation l l' -> Permutation (filter f l) (filter f l').
Proof.
  induction 1 as [|x l l' _ IH|x y l|l l' l'' _ IH1 _ IH2]; simpl.
  - constructor.
  - destruct (f x); [now constructor | exact IH].
  - destruct (f x); destruct (f y); try reflexivity. apply perm_swap.
  - now transitivity (filter f l').
Qed.

Lemma NoDup_ids_filter (f : Patient -> bool) (t : list Patient) :
  NoDup (map id t) -> NoDup (map id (filter f t)).
Proof.
  induction t as [|p r IH]; simpl; intros ND; [constructor|].
  inversion ND as [|? ? Hp ND']; subst.
  destruct (f p); simpl; [|now apply IH].
  constructor; [|now apply IH].
  intros Hin. apply Hp. apply in_map_iff in Hin.
  destruct Hin as (q & Eq & Hq). apply filter_In in Hq.
  apply in_map_iff. exists q. tauto.
Qed.

(** With distinct ids, the rows of one id found in the table are one row. *)
Lemma same_id_same_row (t : list Patient) (p q : Patient) :
  NoDup (map id t) -> In p t -> In q t -> id p = id q -> p = q.
Proof.
  induction t as [|r t IH]; simpl; intros ND Hp Hq E; [contradiction|].
  inversion ND as [|? ? Hr ND']; subst.
  destruct Hp as [->|Hp]; destruct Hq as [->|Hq]; trivial.
  - exfalso. apply Hr. rewrite E. now apply in_map.
  - exfalso. apply Hr. rewrite <- E. now apply in_map.
  - now apply IH.
Qed.

Lemma update_keeps_ids (i : string) (d : PatientData) (t : list Patient) :
  map id (map (fun r => if has_id i r then updated d r else r) t) = map id t.
Proof.
  rewrite map_map. apply map_ext. intros r. now destruct (has_id i r).
Qed.

Lemma patch_follows_update (i : string) (d : PatientData) (p : Patient)
    (l t : list Patient) :
  Permutation l t -> filter (has_id i) t = [p] ->
  Permutation (map (fun q => if has_id i q then updated d p else q) l)
              (map (fun r => if has_id i r then updated d r else r) t).
Proof.
  intros P F.
  rewrite (map_ext_in _ (fun r => if has_id i r then updated d r else r) l).
  - now apply Permutation_map.
  - intros q Hq. destruct (has_id i q) eqn:E; [|reflexivity].
    assert (Hin : In q (filter (has_id i) t)).
    { apply filter_In. split; [|exact E]. now apply (Permutation_in _ P). }
    rewrite F in Hin. destruct Hin as [->|[]]. reflexivity.
Qed.

(** X6.  onSubmit and handleDelete keep the list in step with the table:
    when the ids of the table are distinct, the list holds the rows of the
    table, and the id the store gives a new row is not in use, the same
    holds after either handler, whatever fails and whoever is signed in. *)
Theorem patient_list_stays_in_step
    (faults : Faults) (new_id now not_single : string)
    (inputs_after_reset : State -> PatientData) (data : PatientData) (patientId : string) (w : World) :
  in_step w -> ~ In new_id (map id (table w)) ->
  in_step (snd (onSubmit faults new_id now not_single inputs_after_reset data w))
  /\ in_step (snd (handleDelete faults patientId w)).
Proof.
  intros [ND P] Fresh. destruct faults as [ff sf df].
  destruct w as [t u [l ld ed fm ts cs] lg]. cbn [table ui patients] in *.
  split.
  - unfold onSubmit, finally, try_catch, bind, getUser, call, get, ret, throw,
      modify, update_patient, insert_patient, setPatients, setIsLoading,
      setEditingPatient, reset, setForm, toast, console_error, setTable, with_ui,
      in_step.
    cbn. destruct u as [userId|]; cbn; [|split; assumption].
    destruct ed as [edited|]; cbn.
    + destruct sf as [e|]; cbn; [split; assumption|].
      destruct (filter (has_id (id edited)) t) as [|p [|p' rest]] eqn:F; cbn;
        try (split; assumption).
      split.
      * now rewrite update_keeps_ids.
      * now apply patch_follows_update.
    + destruct sf as [e|]; cbn; [split; assumption|].
      split.
      * rewrite map_app. cbn.
        apply (Permutation_NoDup (Permutation_cons_append (map id t) new_id)).
        now constructor.
      * etransitivity; [|apply Permutation_cons_append]. now constructor.
  - unfold handleDelete, finally, try_catch, bind, delete_patient, call, get, ret,
      throw, modify, setPatients, setIsLoading, toast, console_error, setTable,
      with_ui, in_step.
    cbn. destruct df as [e|]; cbn; [split; assumption|].
    split; [now apply NoDup_ids_filter | now apply Permutation_filter_both].
Qed.

Lemma filter_other_ids (i : string) (l : list Patient) (p : Patient) :
  In p (filter (fun q => negb (has_id i q)) l) <-> In p l /\ id p <> i.
Proof.
  rewrite filter_In, negb_true_iff. unfold has_id. now rewrite String.eqb_neq.
Qed.

Ltac run_patient_handler :=
  unfold handleSubmit, handleEdit, onSubmit, handleDelete, fetchPatients,
    select_patients, finally, try_catch, bind, getUser, call, get, ret, throw,
    modify, update_patient, insert_patient, delete_patient, setPatients,
    setIsLoading, setEditingPatient, reset, setForm, toast, console_error,
    setTable, with_ui;
  cbn.

Lemma patient_list_stays_in_step_example :
  let w :=
    {| table := [ {| id := "p1"; name := "Ana"; phone := "11999990000";
                     email := "ana@example.org"; created_at := "2024-03-01";
                     created_by := "u1" |} ];
       session := Some "u1";
       ui := {| patients := [ {| id := "p1"; name := "Ana"; phone := "11999990000";
                                 email := "ana@example.org";
                                 created_at := "2024-03-01"; created_by := "u1" |} ];
                isLoading := false; editingPatient := None; form := blank;
                toasts := []; console := [] |};
       log := [] |} in
  let faults := {| fetch_fault := None; save_fault := None; delete_fault := None |} in
  let data := {| d_name := "Bruno"; d_phone := "11888880000";
                 d_email := "bruno@example.org" |} in
  in_step (snd (onSubmit faults "p2" "2024-03-02" "no single row" (fun _ => blank) data w))
  /\ in_step (snd (handleDelete faults "p1" w)).
Proof.
  cbv zeta. apply patient_list_stays_in_step.
  - split; [repeat constructor; simpl; tauto | reflexivity].
  - simpl. intros [H|[]]. discriminate H.
Defined.

(** X7.  handleDelete removes exactly the patient of that id: when the call
    succeeds, the table and the list hold afterwards the rows they held
    whose id is another; when it fails both are as before and a destructive
    notification carries the message.  One delete is issued and the loading
    flag is down at the end either way. *)
Theorem delete_removes_exactly_that_patient
    (faults : Faults) (patientId : string) (w : World) :
  let w' := snd (handleDelete faults patientId w) in
  match delete_fault faults with
  | None =>
      (forall p, In p (table w') <-> In p (table w) /\ id p <> patientId)
      /\ (forall p, In p (patients (ui w'))
                    <-> In p (patients (ui w)) /\ id p <> patientId)
  | Some message =>
      table w' = table w /\ patients (ui w') = patients (ui w)
      /\ failed_with message (toasts (ui w)) (toasts (ui w'))
  end
  /\ log w' = log w ++ [DeletePatient patientId]
  /\ isLoading (ui w') = false.
Proof.
  destruct faults as [ff sf df]. destruct w as [t u [l ld ed fm ts cs] lg].
  run_patient_handler. destruct df as [e|]; cbn.
  - repeat split. eexists. repeat split.
  - split; [split; intros p; apply filter_other_ids | split; reflexivity].
Qed.

(** X8.  A save that cannot go through changes nothing: when nobody is
    signed in no write is issued at all, and when the store refuses the
    write, the table, the list, the patient being edited and the values of
    the form are as before; a destructive notification carries the message
    and the loading flag is down. *)
Theorem failed_save_changes_nothing
    (faults : Faults) (new_id now not_single : string)
    (inputs_after_reset : State -> PatientData) (data : PatientData) (message : string) (w : World) :
  (session w = None /\ message = "Usuário não autenticado")
  \/ (session w <> None /\ save_fault faults = Some message) ->
  let w' := snd (onSubmit faults new_id now not_single inputs_after_reset data w) in
  table w' = table w
  /\ patients (ui w') = patients (ui w)
  /\ editingPatient (ui w') = editingPatient (ui w)
  /\ form (ui w') = form (ui w)
  /\ failed_with message (toasts (ui w)) (toasts (ui w'))
  /\ isLoading (ui w') = false
  /\ (session w = None -> log w' = log w ++ [GetUser]).
Proof.
  destruct faults as [ff sf df]. destruct w as [t u [l ld ed fm ts cs] lg].
  cbn [session save_fault]. intros [[-> ->]|[Hu ->]].
  - run_patient_handler. repeat split. eexists. repeat split.
  - destruct u as [userId|]; [|contradiction]. run_patient_handler.
    destruct ed as [edited|]; cbn; repeat split;
      try discriminate; eexists; repeat split.
Qed.

Lemma failed_save_changes_nothing_example :
  let w :=
    {| table := []; session := None;
       ui := {| patients := []; isLoading := false; editingPatient := None;
                form := blank; toasts := []; console := [] |};
       log := [] |} in
  let faults := {| fetch_fault := None; save_fault := None; delete_fault := None |} in
  let data := {| d_name := "Bruno"; d_phone := "11888880000";
                 d_email := "bruno@example.org" |} in
  let w' := snd (onSubmit faults "p2" "2024-03-02" "no single row" (fun _ => blank) data w) in
  table w' = table w
  /\ patients (ui w') = patients (ui w)
  /\ editingPatient (ui w') = editingPatient (ui w)
  /\ form (ui w') = form (ui w)
  /\ failed_with "Usuário não autenticado" (toasts (ui w)) (toasts (ui w'))
  /\ isLoading (ui w') = false
  /\ (session w = None -> log w' = log w ++ [GetUser]).
Proof.
  cbv zeta. apply failed_save_changes_nothing. left. split; reflexivity.
Defined.

Lemma only_row_of_its_id (t : list Patient) (p : Patient) :
  NoDup (map id t) -> In p t -> filter (has_id (id p)) t = [p].
Proof.
  induction t as [|r t IH]; simpl; intros ND Hp; [contradiction|].
  inversion ND as [|? ? Hr ND']; subst.
  assert (Rest : forall q, In q t -> id q <> id r).
  { intros q Hq E. apply Hr. rewrite <- E. now apply in_map. }
  destruct Hp as [->|Hp].
  - unfold has_id at 1. rewrite String.eqb_refl. f_equal.
    rewrite <- (filter_false t). apply filter_ext_in.
    intros q Hq. apply String.eqb_neq. now apply Rest.
  - assert (E : has_id (id p) r = false).
    { apply String.eqb_neq. intros E. now apply (Rest p Hp). }
    rewrite E. now apply IH.
Qed.

Lemma updated_as_data (p : Patient) : updated (as_data p) p = p.
Proof. now destruct p. Qed.

(** X9.  An update touches one patient: while a patient is being edited, a
    submission, whatever it meets, leaves the ids of the table and of the
    list as they were, in the same order, and every row of another id in
    place.  When a user is signed in, the ids of the table are distinct and
    the call succeeds, the row of the edited id carries the submitted name,
    phone and e-mail and keeps its id, creation time and creator: it is in
    the table, every row of that id in the table and in the list is that
    row, and the list has it when it had a row of that id. *)
Theorem update_touches_one_patient
    (faults : Faults) (new_id now not_single : string)
    (inputs_after_reset : State -> PatientData) (data : PatientData)
    (edited : Patient) (w : World) :
  editingPatient (ui w) = Some edited ->
  let w' := snd (onSubmit faults new_id now not_single inputs_after_reset data w) in
  let written (old q : Patient) :=
    id q = id old /\ name q = d_name data /\ phone q = d_phone data
    /\ email q = d_email data
    /\ created_at q = created_at old /\ created_by q = created_by old in
  map id (table w') = map id (table w)
  /\ map id (patients (ui w')) = map id (patients (ui w))
  /\ (forall p, id p <> id edited ->
        (In p (table w') <-> In p (table w))
        /\ (In p (patients (ui w')) <-> In p (patients (ui w))))
  /\ (forall old,
        session w <> None -> save_fault faults = None ->
        NoDup (map id (table w)) -> In old (table w) -> id old = id edited ->
        (exists q, In q (table w') /\ written old q)
        /\ (forall q, In q (table w') -> id q = id edited -> written old q)
        /\ (forall q, In q (patients (ui w')) -> id q = id edited ->
                      written old q)
        /\ (In (id edited) (map id (patients (ui w))) ->
            exists q, In q (patients (ui w')) /\ written old q)).
Proof.
  destruct faults as [ff sf df]. destruct w as [t u [l ld ed fm ts cs] lg].
  cbn [ui editingPatient]. intros ->. cbv zeta.
  assert (Other : forall (f : Patient -> Patient) (rows : list Patient) (p : Patient),
            id p <> id edited ->
            (forall r, has_id (id edited) r = true -> id (f r) = id edited) ->
            (In p (map (fun r => if has_id (id edited) r then f r else r) rows)
             <-> In p rows)).
  { intros f rows p Hp Hf. rewrite in_map_iff. split.
    - intros (r & E & Hr). destruct (has_id (id edited) r) eqn:Hid.
      + exfalso. apply Hp. rewrite <- E. now apply Hf.
      + now subst.
    - intros Hr. exists p. split; [|exact Hr].
      assert (E : has_id (id edited) p = false) by now apply String.eqb_neq.
      now rewrite E. }
  split; [|split; [|split]].
  - run_patient_handler. destruct u as [userId|]; cbn; [|reflexivity].
    destruct sf as [e|]; cbn; [reflexivity|].
    destruct (filter (has_id (id edited)) t) as [|p0 [|p' rest]] eqn:F; cbn;
      try reflexivity.
    apply update_keeps_ids.
  - run_patient_handler. destruct u as [userId|]; cbn; [|reflexivity].
    destruct sf as [e|]; cbn; [reflexivity|].
    destruct (filter (has_id (id edited)) t) as [|p0 [|p' rest]] eqn:F; cbn;
      try reflexivity.
    assert (Hp0 : id p0 = id edited).
    { assert (Hin : In p0 (filter (has_id (id edited)) t)) by (rewrite F; now left).
      apply filter_In in Hin. now apply String.eqb_eq. }
    rewrite map_map. apply map_ext. intros r.
    destruct (has_id (id edited) r) eqn:E; [|reflexivity].
    cbn. rewrite Hp0. symmetry. now apply String.eqb_eq.
  - intros p Hp. run_patient_handler.
    destruct u as [userId|]; cbn; [|tauto].
    destruct sf as [e|]; cbn; [tauto|].
    destruct (filter (has_id (id edited)) t) as [|p0 [|p' rest]] eqn:F; cbn;
      try tauto.
    assert (Hp0 : id p0 = id edited).
    { assert (Hin : In p0 (filter (has_id (id edited)) t)) by (rewrite F; now left).
      apply filter_In in Hin. now apply String.eqb_eq. }
    split.
    + apply (Other (updated data)); trivial. intros r Hr. cbn.
      now apply String.eqb_eq.
    + apply (Other (fun _ => updated data p0)); trivial.
  - cbn [session save_fault table]. intros old Hs -> ND Hold Eid.
    destruct u as [userId|]; [|contradiction].
    assert (W : forall q, q = updated data old ->
              id q = id old /\ name q = d_name data /\ phone q = d_phone data
              /\ email q = d_email data
              /\ created_at q = created_at old /\ created_by q = created_by old).
    { intros q ->. repeat split. }
    run_patient_handler. rewrite <- Eid.
    rewrite (only_row_of_its_id t old ND Hold). cbn.
    assert (T : forall q,
              In q (map (fun r => if has_id (id old) r then updated data r else r) t) ->
              id q = id old -> q = updated data old).
    { intros q Hq Eq. apply in_map_iff in Hq. destruct Hq as (r & <- & Hr).
      destruct (has_id (id old) r) eqn:E.
      - apply String.eqb_eq in E.
        now rewrite (same_id_same_row t r old ND Hr Hold E).
      - apply String.eqb_neq in E. contradiction. }
    assert (L : forall q,
              In q (map (fun r => if has_id (id old) r then updated data old else r) l) ->
              id q = id old -> q = updated data old).
    { intros q Hq Eq. apply in_map_iff in Hq. destruct Hq as (r & <- & Hr).
      destruct (has_id (id old) r) eqn:E; [reflexivity|].
      apply String.eqb_neq in E. contradiction. }
    split; [|split; [|split]].
    + exists (updated data old). split; [|now apply W].
      apply in_map_iff. exists old. split; [|exact Hold].
      unfold has_id. now rewrite String.eqb_refl.
    + intros q Hq Eq. apply W. now apply T.
    + intros q Hq Eq. apply W. now apply L.
    + intros Hl. apply in_map_iff in Hl. destruct Hl as (r & Er & Hr).
      exists (updated data old). split; [|now apply W].
      apply in_map_iff. exists r. split; [|exact Hr].
      unfold has_id. rewrite Er. now rewrite String.eqb_refl.
Qed.

Lemma update_touches_one_patient_example :
  let ana := {| id := "p1"; name := "Ana"; phone := "11999990000";
                email := "ana@example.org"; created_at := "2024-03-01";
                created_by := "u1" |} in
  let w :=
    {| table := [ ana ]; session := Some "u1";
       ui := {| patients := [ ana ]; isLoading := false;
                editingPatient := Some ana; form := as_data ana;
                toasts := []; console := [] |};
       log := [] |} in
  let faults := {| fetch_fault := None; save_fault := None; delete_fault := None |} in
  let data := {| d_name := "Ana Lima"; d_phone := "11999990000";
                 d_email := "ana@example.org" |} in
  let w' :=
    snd (onSubmit faults "p2" "2024-03-02" "no single row" (fun _ => blank)
           data w) in
  exists q,
    In q (table w')
    /\ (id q = "p1" /\ name q = "Ana Lima" /\ phone q = "11999990000"
        /\ email q = "ana@example.org"
        /\ created_at q = "2024-03-01" /\ created_by q = "u1").
Proof.
  cbv zeta.
  pose proof
    (update_touches_one_patient
       {| fetch_fault := None; save_fault := None; delete_fault := None |}
       "p2" "2024-03-02" "no single row" (fun _ => blank)
       {| d_name := "Ana Lima"; d_phone := "11999990000";
          d_email := "ana@example.org" |}
       {| id := "p1"; name := "Ana"; phone := "11999990000";
          email := "ana@example.org"; created_at := "2024-03-01";
          created_by := "u1" |}
       {| table := [ {| id := "p1"; name := "Ana"; phone := "11999990000";
                        email := "ana@example.org"; created_at := "2024-03-01";
                        created_by := "u1" |} ];
          session := Some "u1";
          ui := {| patients := [ {| id := "p1"; name := "Ana";
                                    phone := "11999990000";
                                    email := "ana@example.org";
                                    created_at := "2024-03-01";
                                    created_by := "u1" |} ];
                   isLoading := false;
                   editingPatient :=
                     Some {| id := "p1"; name := "Ana"; phone := "11999990000";
                             email := "ana@example.org";
                             created_at := "2024-03-01"; created_by := "u1" |};
                   form := {| d_name := "Ana"; d_phone := "11999990000";
                              d_email := "ana@example.org" |};
                   toasts := []; console := [] |};
          log := [] |}
       eq_refl) as H.
  cbv zeta in H. destruct H as (_ & _ & _ & H).
  refine (proj1 (H {| id := "p1"; name := "Ana"; phone := "11999990000";
                      email := "ana@example.org"; created_at := "2024-03-01";
                      created_by := "u1" |} _ _ _ _ _)).
  - discriminate.
  - reflexivity.
  - repeat constructor. simpl. tauto.
  - now left.
  - reflexivity.
Defined.

(** X10.  Editing a patient and submitting the form as handleEdit filled it
    writes the row back as it was: with the list in step with the table, a
    user signed in, no failure and values the schema accepts, one update is
    issued with the patient's own values, the table and the list are
    unchanged, the update is notified, the edit is over and nothing is
    loading. *)
Theorem edit_without_change_is_identity
    (faults : Faults) (new_id now not_single : string) (is_email : string -> bool)
    (inputs_after_reset : State -> PatientData) (p : Patient) (w : World) :
  in_step w -> In p (patients (ui w)) -> session w <> None ->
  save_fault faults = None ->
  patientSchema is_email (as_data p) = true ->
  let w' :=
    snd (bind (handleEdit p)
              (fun _ => handleSubmit faults new_id now not_single is_email
                          inputs_after_reset) w) in
  table w' = table w
  /\ patients (ui w') = patients (ui w)
  /\ editingPatient (ui w') = None
  /\ isLoading (ui w') = false
  /\ log w' = log w ++ [ GetUser; UpdatePatient (id p) (as_data p) ]
  /\ toasts (ui w')
     = toasts (ui w)
       ++ [ {| title := "Paciente atualizado com sucesso";
               description := Some "Os dados do paciente foram atualizados";
               variant := None |} ].
Proof.
  intros [ND P] Hp Hs Hf Hv. destruct faults as [ff sf df].
  destruct w as [t u [l ld ed fm ts cs] lg]. cbn [session save_fault] in *.
  cbn [table ui patients] in *. subst sf.
  destruct u as [userId|]; [|contradiction].
  assert (Hpt : In p t) by now apply (Permutation_in _ P).
  unfold handleSubmit, handleEdit, bind, get, setEditingPatient, setForm, with_ui,
    modify. cbn. fold (as_data p). rewrite Hv.
  run_patient_handler. rewrite (only_row_of_its_id t p ND Hpt). cbn.
  rewrite updated_as_data. repeat split.
  - rewrite <- (map_id t) at 2. apply map_ext_in. intros r Hr.
    destruct (has_id (id p) r) eqn:E; [|reflexivity].
    apply String.eqb_eq in E.
    rewrite (same_id_same_row t r p ND Hr Hpt E). apply updated_as_data.
  - rewrite <- (map_id l) at 2. apply map_ext_in. intros r Hr.
    destruct (has_id (id p) r) eqn:E; [|reflexivity].
    apply String.eqb_eq in E. symmetry.
    apply (same_id_same_row t r p ND); trivial. now apply (Permutation_in _ P).
  - now rewrite <- app_assoc.
Qed.

Lemma edit_without_change_is_identity_example :
  let ana := {| id := "p1"; name := "Ana"; phone := "11999990000";
                email := "ana@example.org"; created_at := "2024-03-01";
                created_by := "u1" |} in
  let w :=
    {| table := [ ana ]; session := Some "u1";
       ui := {| patients := [ ana ]; isLoading := false;
                editingPatient := None; form := blank;
                toasts := []; console := [] |};
       log := [] |} in
  let faults := {| fetch_fault := None; save_fault := None; delete_fault := None |} in
  let w' :=
    snd (bind (handleEdit ana)
              (fun _ => handleSubmit faults "p2" "2024-03-02" "no single row"
                          (fun _ => true) (fun s => form s)) w) in
  table w' = table w
  /\ patients (ui w') = patients (ui w)
  /\ editingPatient (ui w') = None
  /\ isLoading (ui w') = false
  /\ log w' = log w ++ [ GetUser; UpdatePatient (id ana) (as_data ana) ]
  /\ toasts (ui w')
     = toasts (ui w)
       ++ [ {| title := "Paciente atualizado com sucesso";
               description := Some "Os dados do paciente foram atualizados";
               variant := None |} ].
Proof.
  cbv zeta. apply edit_without_change_is_identity.
  - split; [repeat constructor; simpl; tauto | reflexivity].
  - simpl. now left.
  - discriminate.
  - reflexivity.
  - reflexivity.
Defined.

(** X11.  fetchPatients shows the table: when the store orders rows without
    adding or losing any and the call succeeds, the list holds the rows of
    the table, so a table with distinct ids has its list in step from then
    on, and nothing is notified or logged to the console; when the call
    fails the list is as before and a destructive notification carries the
    message.  The table is read only, one select is issued and the loading
    flag is down at the end. *)
Theorem fetch_shows_the_table
    (faults : Faults) (order_patients : list Patient -> list Patient) (w : World) :
  (forall l, Permutation (order_patients l) l) ->
  let w' := snd (fetchPatients faults order_patients w) in
  table w' = table w
  /\ isLoading (ui w') = false
  /\ log w' = log w ++ [ SelectPatients ]
  /\ match fetch_fault faults with
     | None =>
         Permutation (patients (ui w')) (table w')
         /\ (NoDup (map id (table w)) -> in_step w')
         /\ toasts (ui w') = toasts (ui w)
         /\ console (ui w') = console (ui w)
     | Some message =>
         patients (ui w') = patients (ui w)
         /\ failed_with message (toasts (ui w)) (toasts (ui w'))
     end.
Proof.
  intros Hord. destruct faults as [ff sf df].
  destruct w as [t u [l ld ed fm ts cs] lg].
  run_patient_handler. destruct ff as [e|]; cbn.
  - repeat split. eexists. repeat split.
  - split; [reflexivity|]. split; [reflexivity|]. split; [reflexivity|].
    split; [apply Hord|]. split; [|split; reflexivity].
    intros ND. split; [exact ND | apply Hord].
Qed.

Lemma fetch_shows_the_table_example :
  let ana := {| id := "p1"; name := "Ana"; phone := "11999990000";
                email := "ana@example.org"; created_at := "2024-03-01";
                created_by := "u1" |} in
  let w :=
    {| table := [ ana ]; session := Some "u1";
       ui := {| patients := []; isLoading := true;
                editingPatient := None; form := blank;
                toasts := []; console := [] |};
       log := [] |} in
  let faults := {| fetch_fault := None; save_fault := None; delete_fault := None |} in
  let w' := snd (fetchPatients faults (fun l => l) w) in
  table w' = table w
  /\ isLoading (ui w') = false
  /\ log w' = log w ++ [ SelectPatients ]
  /\ (Permutation (patients (ui w')) (table w')
      /\ (NoDup (map id (table w)) -> in_step w')
      /\ toasts (ui w') = toasts (ui w)
      /\ console (ui w') = console (ui w)).
Proof.
  cbv zeta.
  apply (fetch_shows_the_table
           {| fetch_fault := None; save_fault := None; delete_fault := None |}
           (fun l => l)).
  reflexivity.
Defined.
End PatientListFacts.

(** ** Auth: messages, requests and navigation *)

Section AuthProperties.
Import Effects Auth AuthFacts.

Lemma own_in (V : Type) (o : JsObject.t V) (k : string) (v : V) :
  JsObject.own o k = Some v -> In (k, v) o.
Proof.
  induction o as [|[k' v'] r IH]; simpl; [discriminate|].
  destruct (String.eqb k' k) eqn:E.
  - apply String.eqb_eq in E. intros [= ->]. left. now subst.
  - intros H. right. now apply IH.
Qed.

(** A message that is not a name inherited from Object.prototype is shown
    as a text. *)
Lemma getErrorMessage_text (message : string) :
  JsObject.inherited message = false ->
  exists s, getErrorMessage message = Text s.
Proof.
  intros Hinh. unfold getErrorMessage, JsObject.get.
  destruct (JsObject.own errorMessages message) as [v|].
  - destruct (String.eqb v EmptyString); [|eauto].
    destruct (String.eqb message EmptyString); eauto.
  - rewrite Hinh. destruct (String.eqb message EmptyString); eauto.
Qed.

(** X12.  getErrorMessage never shows a blank: each of the six messages of
    its table is shown as its translation, the empty message as the generic
    text, and every other message that is not a name inherited from
    Object.prototype as it is; in each of these cases the result is a text
    that is not empty. *)
Theorem error_message_is_never_blank :
  (forall message translated,
     In (message, translated)
        [ ("Invalid login credentials", "E-mail ou senha incorretos");
          ("User already registered", "E-mail já cadastrado");
          ("Password should be at least 6 characters",
           "A senha deve ter pelo menos 6 caracteres");
          ("Invalid email", "E-mail inválido");
          ("Email not confirmed",
           "E-mail não confirmado. Por favor, verifique sua caixa de entrada.");
          ("Missing Supabase environment variables",
           "Erro de configuração. Por favor, contate o suporte.") ] ->
     known message = true /\ getErrorMessage message = Text translated)
  /\ getErrorMessage EmptyString = Text "Ocorreu um erro. Tente novamente."
  /\ (forall message,
        JsObject.inherited message = false -> known message = false ->
        message <> EmptyString ->
        getErrorMessage message = Text message)
  /\ (forall message,
        JsObject.inherited message = false ->
        exists s, getErrorMessage message = Text s /\ s <> EmptyString).
Proof.
  split; [|split; [reflexivity|split]].
  - intros message translated H. simpl in H.
    repeat (destruct H as [H|H];
            [ inversion H; subst; split; reflexivity | ]).
    destruct H.
  - intros message Hinh Hk Hne. unfold known in Hk.
    unfold getErrorMessage, JsObject.get.
    destruct (JsObject.own errorMessages message); [discriminate|].
    rewrite Hinh. apply String.eqb_neq in Hne. now rewrite Hne.
  - intros message Hinh.
    destruct (JsObject.own errorMessages message) as [v|] eqn:O.
    + apply own_in in O. simpl in O.
      repeat (destruct O as [O|O];
              [ inversion O; subst; eexists; split; [reflexivity|discriminate] | ]).
      destruct O.
    + unfold getErrorMessage, JsObject.get. rewrite O, Hinh.
      destruct (String.eqb message EmptyString) eqn:Em.
      * eexists. split; [reflexivity|discriminate].
      * exists message. split; [reflexivity|]. now apply String.eqb_neq.
Qed.

Lemma error_message_is_never_blank_example :
  getErrorMessage "Invalid login credentials" = Text "E-mail ou senha incorretos"
  /\ getErrorMessage "Network request failed" = Text "Network request failed".
Proof.
  split.
  - apply (proj1 error_message_is_never_blank). simpl. now left.
  - apply (proj1 (proj2 (proj2 error_message_is_never_blank)));
      [reflexivity | reflexivity | discriminate].
Defined.

Ltac run_auth_handler :=
  unfold handleSubmit, onSubmit, send, finally, try_catch, bind, get, ret, throw,
    modify, setIsLoading, setErrorMessage, form_reset, toast, console_error, push;
  cbn.

(** X13.  The recovery tab shares the schema of the other two: in reset
    mode a submission whose password field holds fewer than six characters
    does nothing at all, although the request, when one is made, carries the
    e-mail alone. *)
Theorem recovery_needs_the_password_it_does_not_send
    (service : AuthRequest -> AuthAnswer) (is_email : string -> bool) (st : State) :
  authMode st = reset ->
  (String.length (password (form st)) < 6 ->
   snd (handleSubmit service is_email st) = st)
  /\ (authSchema is_email (form st) = true ->
      issued (snd (handleSubmit service is_email st))
      = issued st ++ [ ResetPasswordForEmail (email (form st)) ]).
Proof.
  destruct st as [ld md em [e p] ts cs ps iss]. cbn [authMode form password email].
  intros ->. split.
  - intros Short. unfold handleSubmit, bind, get, authSchema.
    cbn [form password email].
    assert (E : (6 <=? String.length p)%nat = false) by (apply Nat.leb_gt; lia).
    rewrite E, andb_false_r. reflexivity.
  - intros V. unfold handleSubmit, bind, get. cbn [form fst snd]. rewrite V.
    run_auth_handler. destruct (error (service (ResetPasswordForEmail e))); reflexivity.
Qed.

Lemma recovery_needs_the_password_it_does_not_send_example :
  let st :=
    {| isLoading := false; authMode := reset; errorMessage := None;
       form := {| email := "ana@example.org"; password := EmptyString |};
       toasts := []; console := []; pushed := []; issued := [] |} in
  let service := fun _ : AuthRequest => {| error := None; user := None |} in
  (String.length (password (form st)) < 6 ->
   snd (handleSubmit service (fun _ => true) st) = st)
  /\ (authSchema (fun _ => true) (form st) = true ->
      issued (snd (handleSubmit service (fun _ => true) st))
      = issued st ++ [ ResetPasswordForEmail (email (form st)) ]).
Proof.
  cbv zeta. apply recovery_needs_the_password_it_does_not_send. reflexivity.
Defined.

(** X14.  A submission makes exactly one request, the one of its mode, and
    goes to the dashboard only after a login that is answered without error
    and with a user: in every other case nothing is pushed.  The loading
    flag is down at the end. *)
Theorem dashboard_only_after_login
    (service : AuthRequest -> AuthAnswer) (data : AuthFormData) (st : State) :
  let st' := snd (onSubmit service data st) in
  let answer := service (request_for (authMode st) data) in
  issued st' = issued st ++ [ request_for (authMode st) data ]
  /\ isLoading st' = false
  /\ pushed st' =
     match authMode st, error answer, user answer with
     | login, None, Some _ => pushed st ++ [ "/dashboard" ]
     | _, _, _ => pushed st
     end.
Proof.
  destruct st as [ld md em fm ts cs ps iss]. cbn [authMode issued pushed].
  run_auth_handler. destruct md; cbn;
    match goal with
    | |- context [service ?r] => destruct (service r) as [[e|] [[[|n]|]|]]
    end; cbn; repeat split.
Qed.

(** X15.  A call the service answers with an error whose message is not a
    name inherited from Object.prototype shows the message as
    getErrorMessage gives it, a text, and nothing else: no notification, no
    navigation, and the form keeps its values for another try. *)
Theorem failed_call_shows_its_message
    (service : AuthRequest -> AuthAnswer) (data : AuthFormData)
    (message : string) (st : State) :
  error (service (request_for (authMode st) data)) = Some message ->
  JsObject.inherited message = false ->
  let st' := snd (onSubmit service data st) in
  errorMessage st' = Some (getErrorMessage message)
  /\ (exists s, errorMessage st' = Some (Text s))
  /\ toasts st' = toasts st
  /\ pushed st' = pushed st
  /\ form st' = form st
  /\ authMode st' = authMode st
  /\ isLoading st' = false.
Proof.
  destruct st as [ld md em fm ts cs ps iss]. cbn [authMode].
  intros E Hinh. destruct (getErrorMessage_text message Hinh) as [s Hs].
  run_auth_handler. destruct md; cbn in *; rewrite E; cbn; rewrite Hs;
    repeat split; eauto.
Qed.

Lemma failed_call_shows_its_message_example :
  let st :=
    {| isLoading := false; authMode := login; errorMessage := None;
       form := {| email := "ana@example.org"; password := "secret-1" |};
       toasts := []; console := []; pushed := []; issued := [] |} in
  let service :=
    fun _ : AuthRequest =>
      {| error := Some "Invalid login credentials"; user := None |} in
  let st' := snd (onSubmit service (form st) st) in
  errorMessage st' = Some (Text "E-mail ou senha incorretos")
  /\ (exists s, errorMessage st' = Some (Text s))
  /\ toasts st' = toasts st
  /\ pushed st' = pushed st
  /\ form st' = form st
  /\ authMode st' = authMode st
  /\ isLoading st' = false.
Proof.
  cbv zeta.
  apply (failed_call_shows_its_message
           (fun _ => {| error := Some "Invalid login credentials"; user := None |})
           {| email := "ana@example.org"; password := "secret-1" |}
           "Invalid login credentials"
           {| isLoading := false; authMode := login; errorMessage := None;
              form := {| email := "ana@example.org"; password := "secret-1" |};
              toasts := []; console := []; pushed := []; issued := [] |}).
  - reflexivity.
  - reflexivity.
Defined.

(** A message named after an inherited function: the setter takes the
    function for an updater, and the state is what it returns for null. *)
Lemma inherited_message_runs_as_updater :
  let st :=
    {| isLoading := false; authMode := login; errorMessage := None;
       form := {| email := "ana@example.org"; password := "secret-1" |};
       toasts := []; console := []; pushed := []; issued := [] |} in
  let service :=
    fun _ : AuthRequest => {| error := Some "toString"; user := None |} in
  errorMessage (snd (onSubmit service (form st) st))
  = Some (UpdaterResult "toString" None).
Proof. reflexivity. Qed.
End AuthProperties.

(** ** The pages: where a visit ends *)

Section Routing.
Import Pages.

(** X16.  The pages never send a visitor back and forth: for one answer of
    the auth service, a visit of the landing page, of the dashboard page or
    of the callback page has come to rest after at most two redirects, on a
    page that redirects no further.  A callback visit that getSession
    answers with neither an error nor a session stays on the callback page
    and its message.  Every other visit ends on the dashboard page when
    getUser answers a user, showing the dashboard for the user's e-mail, or
    nothing when the e-mail is missing or empty, and on the landing page
    with the auth form when getUser answers none. *)
Theorem routing_settles (s : Session) (route : string) :
  route = "/" \/ route = "/dashboard" \/ route = "/auth/callback" ->
  let final := lands (lands route s) s in
  lands final s = final
  /\ (route = "/auth/callback" ->
      getSession_error s = None -> getSession s = false ->
      final = "/auth/callback"
      /\ page final s = Some {| rendered := Authenticating; redirect := None |})
  /\ (route <> "/auth/callback" \/ getSession_error s <> None
      \/ getSession s = true ->
      match getUser s with
      | Some u =>
          final = "/dashboard"
          /\ exists shown,
               page final s = Some {| rendered := shown; redirect := None |}
               /\ (forall e, user_email u = Some e -> e <> EmptyString ->
                             shown = DashboardFor e)
               /\ (user_email u = None \/ user_email u = Some EmptyString ->
                   shown = Nothing)
      | None =>
          final = "/"
          /\ page final s = Some {| rendered := AuthForm; redirect := None |}
      end).
Proof.
  intros Hroute. destruct s as [u err sess].
  assert (Dash : forall em : option string,
            exists shown,
              Some {| rendered :=
                        match em with
                        | Some e =>
                            if String.eqb e EmptyString then Nothing
                            else DashboardFor e
                        | None => Nothing
                        end;
                      redirect := None |}
              = Some {| rendered := shown; redirect := None |}
              /\ (forall e, em = Some e -> e <> EmptyString -> shown = DashboardFor e)
              /\ (em = None \/ em = Some EmptyString -> shown = Nothing)).
  { intros em. eexists. split; [reflexivity|]. split.
    - intros e -> Hne. apply String.eqb_neq in Hne. now rewrite Hne.
    - intros [->| ->]; reflexivity. }
  destruct Hroute as [-> | [-> | ->]].
  - destruct u as [[i em]|]; cbn; (split; [reflexivity|]);
      (split; [discriminate|]); intros _; (split; [reflexivity|]);
      [apply Dash | reflexivity].
  - destruct u as [[i em]|]; cbn; (split; [reflexivity|]);
      (split; [discriminate|]); intros _; (split; [reflexivity|]);
      [apply Dash | reflexivity].
  - destruct err as [e|]; [|destruct sess]; destruct u as [[i em]|]; cbn;
      (split; [reflexivity|]);
      (split;
       [ try discriminate; intros _ _ _; split; reflexivity
       | intros H;
         try (destruct H as [H|[H|H]];
              [now contradiction H | now contradiction H | discriminate H]);
         (split; [reflexivity|]); try apply Dash; reflexivity ]).
Qed.

Lemma routing_settles_example :
  let s :=
    {| getUser := Some {| user_id := "u1"; user_email := Some "ana@example.org" |};
       getSession_error := None; getSession := true |} in
  let final := lands (lands "/auth/callback" s) s in
  final = "/dashboard"
  /\ exists shown,
       page final s = Some {| rendered := shown; redirect := None |}
       /\ (forall e, Some "ana@example.org" = Some e -> e <> EmptyString ->
                     shown = DashboardFor e)
       /\ (Some "ana@example.org" = None
           \/ Some "ana@example.org" = Some EmptyString ->
           shown = Nothing).
Proof.
  cbv zeta.
  apply (proj2 (proj2 (routing_settles
                         {| getUser := Some {| user_id := "u1";
                                               user_email := Some "ana@example.org" |};
                            getSession_error := None; getSession := true |}
                         "/auth/callback"
                         (or_intror (or_intror eq_refl))))).
  right. right. reflexivity.
Defined.

(** A callback visit with a session that getUser does not confirm is sent to
    the dashboard page and from there to the landing page. *)
Lemma callback_without_user_ends_on_the_landing_page :
  let s := {| getUser := None; getSession_error := None; getSession := true |} in
  lands "/auth/callback" s = "/dashboard"
  /\ lands (lands "/auth/callback" s) s = "/".
Proof. split; reflexivity. Qed.
End Routing.

(** ** FinancialReport: from the fetch to the sheet *)

Section ReportPipeline.
Import JsNumber FinancialReport Grouping.

(** X17.  What reaches the aggregator is clean.  The records keep the
    order of the fetched rows: the records of two lists of rows one after
    the other are the records of the first followed by those of the second.
    A row whose patient is null or has the empty name gives no record.  A
    row whose patient has a name gives one record, with the row's id and
    date, under that name, whose value is the row's, or 0 when the row's is
    null, NaN or zero.  So every record has a name that is not empty (the
    fallback name is never used) and a value that is not NaN. *)
Theorem report_input_is_clean
    (d1 d2 : list FetchedAppointment) (row : FetchedAppointment) :
  formattedAppointments (d1 ++ d2)
  = formattedAppointments d1 ++ formattedAppointments d2
  /\ (f_patients row = None -> formattedAppointments [row] = [])
  /\ (forall p, f_patients row = Some p -> pj_name p = EmptyString ->
                formattedAppointments [row] = [])
  /\ (forall p, f_patients row = Some p -> pj_name p <> EmptyString ->
        exists v,
          formattedAppointments [row]
          = [ {| app_id := f_id row; app_date := f_date row;
                 app_patientName := pj_name p; app_value := v |} ]
          /\ (f_value row = None -> v = zero)
          /\ (forall x, f_value row = Some x ->
                match Prim2SF x with
                | S754_nan | S754_zero _ => v = zero
                | _ => v = x
                end))
  /\ (forall a, In a (formattedAppointments (d1 ++ row :: d2)) ->
        app_patientName a <> EmptyString
        /\ Prim2SF (app_value a) <> S754_nan
        /\ exists r p,
             In r (d1 ++ row :: d2) /\ f_patients r = Some p
             /\ app_patientName a = pj_name p
             /\ app_id a = f_id r /\ app_date a = f_date r).
Proof.
  split; [apply formattedAppointments_app|].
  split; [|split; [|split]].
  - intros P. unfold formattedAppointments, has_patient_name. cbn. now rewrite P.
  - intros p P N. unfold formattedAppointments, has_patient_name. cbn.
    rewrite P, N. reflexivity.
  - intros p P N. apply String.eqb_neq in N.
    unfold formattedAppointments, has_patient_name. cbn [filter].
    rewrite P, N. cbn [negb map]. unfold format_row. rewrite P, N.
    eexists. split; [reflexivity|]. split.
    + intros ->. reflexivity.
    + intros x ->. unfold or_zero, truthy. destruct (Prim2SF x); reflexivity.
  - intros a Ha. unfold formattedAppointments in Ha. apply in_map_iff in Ha.
    destruct Ha as (r & <- & Hr). apply filter_In in Hr.
    destruct Hr as [Hin Hname]. unfold has_patient_name in Hname.
    destruct (f_patients r) as [p|] eqn:P; [|discriminate].
    apply negb_true_iff in Hname.
    unfold format_row. rewrite P, Hname.
    cbn [app_patientName app_value app_id app_date].
    split; [now apply String.eqb_neq|]. split.
    + destruct (f_value r) as [v|]; [|vm_compute; discriminate].
      unfold or_zero. destruct (truthy v) eqn:T; [|vm_compute; discriminate].
      unfold truthy in T. intros Nan. rewrite Nan in T. discriminate.
    + exists r, p. repeat split; trivial.
Qed.

Lemma report_input_is_clean_example :
  formattedAppointments
    [ {| f_id := "a1"; f_date := "2024-03-01"; f_value := None;
         f_patients := Some {| pj_name := "Ana" |} |} ]
  = [ {| app_id := "a1"; app_date := "2024-03-01"; app_patientName := "Ana";
         app_value := zero |} ].
Proof.
  destruct (proj1 (proj2 (proj2 (proj2
              (report_input_is_clean [] []
                 {| f_id := "a1"; f_date := "2024-03-01"; f_value := None;
                    f_patients := Some {| pj_name := "Ana" |} |}))))
              {| pj_name := "Ana" |} eq_refl) as (v & E & Z & _).
  - discriminate.
  - rewrite E. cbn [f_id f_date pj_name]. now rewrite (Z eq_refl).
Defined.

(** X18.  The report stays on its loading spinner exactly when a fetched
    patient bears a name inherited from Object.prototype: fetchAppointments
    ends with isLoading true, and rejected, if and only if the store
    answered with rows and one of the records kept has such a name. *)
Theorem report_keeps_loading_iff (response : Response) (st : State) :
  (st_isLoading (fetched_state (fetchAppointments response st)) = true
   <-> exists data,
         response = inr data /\ ~ plain_names (formattedAppointments data))
  /\ (fetched_rejection (fetchAppointments response st) <> None
      <-> st_isLoading (fetched_state (fetchAppointments response st)) = true).
Proof.
  destruct response as [message|data]; cbn.
  - split; split; try discriminate.
    + intros (d & E & _). discriminate.
    + intros H. now contradiction H.
  - destruct (plain_names_dec (formattedAppointments data)) as [Hp|Hn].
    + pose proof (calculateTotals_plain _ Hp) as E. cbv zeta in E. rewrite E. cbn.
      split; split; try discriminate.
      * intros (d & [= <-] & Hd). contradiction.
      * intros H. now contradiction H.
    + rewrite (calculateTotals_throws _ Hn). cbn.
      split; split; trivial; try discriminate.
      intros _. exists data. now split.
Qed.



End ReportPipeline.

(** ** AppointmentScheduling: what the handlers do to the store and the lists *)

Section SchedulingFacts.
Import Effects SchedulingScreen References Scheduled.
Variable faults : Faults.
Variable order_types : list AS.AppointmentType -> list AS.AppointmentType.
Variable order_appointments : list AS.Appointment -> list AS.Appointment.
Variables new_id not_single today : string.
Variable is_uuid : string -> bool.

Ltac run_screen :=
  unfold handleDelete, onSubmit, handleAddAppointmentType,
    handleUpdateAppointmentType, handleDeleteAppointmentType, handleEdit,
    handleEditAppointmentType, fetchAppointments, fetchAppointmentTypes,
    insert_appointment, update_appointment, delete_appointment,
    insert_appointment_type, update_appointment_type, mutate, reset,
    setIsLoading, setEditingAppointment, setEditingAppointmentType,
    setIsAddingAppointmentType, setIsCreatingAppointment, setIsEditDialogOpen,
    setIsEditTypeDialogOpen, setPatients, setFormValues, resetAppointmentType,
    with_ui, toast, console_error, currentUser, lift,
    AS.fetchAppointments, AS.fetchAppointmentTypes, AS.getCurrentUser,
    AS.setAppointments, AS.setAppointmentTypes, AS.toast, AS.console_error,
    AS.with_view, AS.remote, AS.try_catch, AS.bind, AS.ret, AS.throw,
    try_catch, finally, bind, ret, throw, get, modify.

(** X20.  Deleting an appointment: when the call succeeds the rows of that
    id, and no others, leave the table, patients and types stay, and for the
    signed-in user whose list arrives no appointment of that id is listed
    any more.  When the call fails the store and the lists are as before and
    the failure is notified with its message. *)
Theorem deleted_appointment_is_gone (appointmentId : string) (s : Screen) :
  let s' := snd (handleDelete faults order_appointments appointmentId s) in
  (delete_fault faults = None ->
     (forall r, In r (rows s') <-> In r (rows s) /\ AS.row_id r <> appointmentId)
     /\ types s' = types s
     /\ AS.patients (AS.store (world s')) = AS.patients (AS.store (world s))
     /\ (forall user,
           signed_in user s ->
           AS.appointments_fault (fetches faults) = None ->
           reorders order_appointments ->
           forall a, In a (listed s') -> AS.id a <> appointmentId))
  /\ (forall e,
        delete_fault faults = Some e ->
        AS.store (world s') = AS.store (world s)
        /\ listed s' = listed s
        /\ listed_types s' = listed_types s
        /\ notified s'
           = notified s ++ [ {| title := "Erro ao excluir consulta";
                                description := Some e;
                                variant := destructive |} ]).
Proof.
  destruct s as [[st [u tys aps tl cl] rq] uirec].
  destruct faults as [[cf df tf af] pf sf dlf atf utf].
  cbv zeta. unfold rows, types, listed, listed_types, notified, signed_in.
  split.
  - cbn [delete_fault]. intros ->. run_screen. cbn.
    assert (R : forall r,
      In r (filter (fun r => negb (is_row appointmentId r)) (AS.appointment_rows st))
      <-> In r (AS.appointment_rows st) /\ AS.row_id r <> appointmentId).
    { intros r. rewrite filter_In. unfold is_row.
      destruct (String.eqb_spec (AS.row_id r) appointmentId); cbn; split;
        intros [? ?]; try split; try assumption; try discriminate; congruence. }
    destruct u as [user|]; cbn; [destruct af as [e|]; cbn|];
      (split; [exact R|]); (split; [reflexivity|]); (split; [reflexivity|]);
      intros user' E; try discriminate E; intros F; try discriminate F.
    intros P a Ha. apply (Permutation_in _ (P _)) in Ha.
    apply in_map_iff in Ha. destruct Ha as (r & <- & Hr).
    apply filter_In in Hr. destruct Hr as [Hr _]. apply R in Hr. exact (proj2 Hr).
  - intros e. cbn [delete_fault]. intros ->. run_screen. cbn.
    repeat split; reflexivity.
Qed.

(** X21.  Scheduling a new appointment for the signed-in user, the call
    succeeding: one row is appended to the table, with the submitted fields,
    the id the store gives and the user as owner; patients and types stay;
    when the list arrives the new appointment is in it; the form is back at
    its default values and closed, and nothing is loading. *)
Theorem new_appointment_is_listed
    (d : AppointmentFormData) (user : string) (s : Screen) :
  signed_in user s ->
  editingAppointment (ui s) = None ->
  submit_fault faults = None ->
  let s' := snd (onSubmit faults order_appointments new_id not_single today d s) in
  let row :=
    {| AS.row_id := new_id; AS.row_patient_id := patient d;
       AS.row_date := date d; AS.row_time := time d; AS.row_value := value d;
       AS.row_appointment_type_id := Some (appointmentType d);
       AS.row_user_id := user |} in
  rows s' = rows s ++ [row]
  /\ types s' = types s
  /\ AS.patients (AS.store (world s')) = AS.patients (AS.store (world s))
  /\ (AS.appointments_fault (fetches faults) = None ->
      reorders order_appointments ->
      In (AS.join (AS.store (world s')) row) (listed s'))
  /\ formValues (ui s') = defaultValues today
  /\ editingAppointment (ui s') = None
  /\ isLoading (ui s') = false
  /\ isCreatingAppointment (ui s') = false
  /\ isEditDialogOpen (ui s') = false.
Proof.
  destruct s as [[st [u tys aps tl cl] rq] uirec].
  destruct faults as [[cf df tf af] pf sf dlf atf utf].
  unfold rows, types, listed, listed_types, notified, signed_in.
  cbn [world ui AS.view AS.currentUser submit_fault fetches AS.appointments_fault].
  intros -> E ->. cbv zeta. run_screen. cbn. rewrite E. cbn.
  destruct af as [e|]; cbn; repeat split; try reflexivity; try discriminate.
  intros _ P. apply (Permutation_in _ (Permutation_sym (P _))).
  apply in_map. apply filter_In. split.
  - apply in_or_app. right. now left.
  - cbn. apply String.eqb_refl.
Qed.

(** X22.  Saving an appointment: without a signed-in user nothing happens;
    with one, nothing is loading afterwards, whatever failed.  When the call
    fails, or when the appointment being edited is no longer in the table,
    the store and the list are as before, the form keeps its values and the
    appointment it edits, and the failure is notified with its message. *)
Theorem failed_submit_keeps_the_form (d : AppointmentFormData) (s : Screen) :
  let s' := snd (onSubmit faults order_appointments new_id not_single today d s) in
  let kept message :=
    AS.store (world s') = AS.store (world s)
    /\ listed s' = listed s
    /\ formValues (ui s') = formValues (ui s)
    /\ editingAppointment (ui s') = editingAppointment (ui s)
    /\ isEditDialogOpen (ui s') = isEditDialogOpen (ui s)
    /\ isCreatingAppointment (ui s') = isCreatingAppointment (ui s)
    /\ notified s'
       = notified s ++ [ {| title := "Erro ao salvar consulta";
                            description := Some message;
                            variant := destructive |} ] in
  (AS.currentUser (AS.view (world s)) = None -> s' = s)
  /\ (forall user, signed_in user s -> isLoading (ui s') = false)
  /\ (forall user e, signed_in user s -> submit_fault faults = Some e -> kept e)
  /\ (forall user edited,
        signed_in user s ->
        submit_fault faults = None ->
        editingAppointment (ui s) = Some edited ->
        ~ In (AS.id edited) (map AS.row_id (rows s)) ->
        kept not_single).
Proof.
  destruct s as [[st [u tys aps tl cl] rq] uirec].
  destruct faults as [[cf df tf af] pf sf dlf atf utf].
  unfold rows, types, listed, listed_types, notified, signed_in.
  cbn [world ui AS.view AS.currentUser submit_fault fetches AS.appointments_fault].
  cbv zeta. split; [|split; [|split]].
  - intros ->. run_screen. reflexivity.
  - intros user ->. run_screen. cbn.
    destruct (editingAppointment uirec) as [edited|]; destruct sf as [e|]; cbn;
      try reflexivity.
    + destruct (filter (is_row (AS.id edited)) (AS.appointment_rows st))
        as [|r [|r' rest]]; cbn; destruct af; reflexivity.
    + destruct af; reflexivity.
  - intros user e -> ->. run_screen. cbn.
    destruct (editingAppointment uirec) as [edited|]; cbn; repeat split; reflexivity.
  - intros user edited -> -> E Hid. run_screen. cbn. rewrite E. cbn.
    assert (F : filter (is_row (AS.id edited)) (AS.appointment_rows st) = []).
    { rewrite <- (filter_false (AS.appointment_rows st)). apply filter_ext_in.
      intros r Hr. unfold is_row. destruct (String.eqb_spec (AS.row_id r) (AS.id edited));
        [|reflexivity].
      exfalso. apply Hid. cbn. apply in_map_iff. exists r. now split. }
    rewrite F. cbn. rewrite ?E. repeat split; reflexivity.
Qed.

Lemma filter_all_kept (A : Type) (f : A -> bool) (l : list A) :
  (forall x, In x l -> f x = true) -> filter f l = l.
Proof.
  induction l as [|x l IH]; simpl; intros H; [reflexivity|].
  rewrite (H x (or_introl eq_refl)). f_equal. apply IH. intros y Hy. apply H. now right.
Qed.

Lemma unreferenced_check_is_empty (typeId : string) (st : AS.Store) :
  (forall r, In r (AS.appointment_rows st) ->
             AS.row_appointment_type_id r <> Some typeId) ->
  AS.select_appointments_using typeId st = [].
Proof.
  intros H. unfold AS.select_appointments_using.
  rewrite (filter_ext_in (AS.references typeId) (fun _ => false)).
  - rewrite filter_false. reflexivity.
  - intros r Hr. unfold AS.references.
    destruct (AS.row_appointment_type_id r) as [t|] eqn:E; [|reflexivity].
    destruct (String.eqb_spec t typeId); [|reflexivity].
    subst. exfalso. exact (H r Hr E).
Qed.

(** X23.  Adding an appointment type and deleting it again: for the
    signed-in user, the calls succeeding, the id given by the store being
    new to the table of types and referenced by no appointment, the added
    type is the last row of the table after the first step, and after the
    second the store is what it was; the list of types that then arrives is
    the one the store had for the user before. *)
Theorem added_type_can_be_deleted_again
    (d : AppointmentTypeFormData) (user : string) (s : Screen) :
  signed_in user s ->
  add_type_fault faults = None ->
  AS.check_fault (fetches faults) = None ->
  AS.delete_fault (fetches faults) = None ->
  ~ In new_id (map AS.type_id (types s)) ->
  (forall r, In r (rows s) -> AS.row_appointment_type_id r <> Some new_id) ->
  let s1 := snd (handleAddAppointmentType faults order_types new_id d s) in
  let s2 :=
    snd (handleDeleteAppointmentType faults order_types order_appointments
           new_id s1) in
  types s1
    = types s ++ [ {| AS.type_id := new_id; AS.type_name := t_name d;
                      AS.type_value := t_value d; AS.type_user_id := user |} ]
  /\ rows s1 = rows s
  /\ AS.store (world s2) = AS.store (world s)
  /\ (AS.types_fault (fetches faults) = None ->
      listed_types s2
      = order_types
          (filter (fun t => String.eqb (AS.type_user_id t) user) (types s))).
Proof.
  destruct s as [[[ps ts rs] [u tys aps tl cl] rq] uirec].
  destruct faults as [[cf df tf af] pf sf dlf atf utf].
  unfold rows, types, listed, listed_types, notified, signed_in.
  cbn [world ui AS.view AS.store AS.currentUser add_type_fault fetches
       AS.check_fault AS.delete_fault AS.types_fault AS.appointment_types
       AS.appointment_rows].
  intros -> -> -> -> Fresh Unref. cbv zeta.
  assert (K : filter (fun t => negb (String.eqb (AS.type_id t) new_id)) ts = ts).
  { apply filter_all_kept. intros t Ht.
    destruct (String.eqb_spec (AS.type_id t) new_id) as [E|]; [|reflexivity].
    exfalso. apply Fresh. rewrite <- E. now apply in_map. }
  run_screen. unfold AS.handleDeleteAppointmentType. run_screen.
  unfold AS.delete_appointment_type. cbn -[AS.select_appointments_using].
  split; [destruct tf; reflexivity|]. split; [destruct tf; reflexivity|].
  destruct tf as [e|]; cbn -[AS.select_appointments_using];
    rewrite unreferenced_check_is_empty by exact Unref;
    cbn; rewrite filter_app, K; cbn; rewrite String.eqb_refl; cbn;
    rewrite ?app_nil_r.
  - split; [destruct af; reflexivity|]. discriminate.
  - split; [destruct af; reflexivity|]. intros _.
    destruct af; reflexivity.
Qed.

(** What appointmentSchema hands to onSubmit is what the form holds. *)
Lemma appointmentSchema_fields (v : FormValues) (d : AppointmentFormData) :
  appointmentSchema is_uuid v = Some d ->
  patient d = v_patient v /\ date d = v_date v /\ time d = v_time v
  /\ value d = v_value v /\ v_appointmentType v = Some (appointmentType d)
  /\ number_min_0 (value d) = true.
Proof.
  unfold appointmentSchema. destruct (v_appointmentType v) as [type|]; [|discriminate].
  destruct (is_uuid (v_patient v) && nonempty (v_patient v) && nonempty (v_date v)
            && nonempty (v_time v) && number_min_0 (v_value v) && nonempty type)
    eqn:E; [|discriminate].
  intros [= <-]. cbn. repeat apply andb_prop in E as [E ?]. auto 10.
Qed.

Lemma appointmentTypeSchema_fields (v : option AppointmentTypeFormData)
    (d : AppointmentTypeFormData) :
  appointmentTypeSchema v = Some d ->
  v = Some d /\ number_min_0 (t_value d) = true /\ t_name d <> EmptyString.
Proof.
  unfold appointmentTypeSchema. destruct v as [d'|]; [|discriminate].
  destruct (nonempty (t_name d')) eqn:N; [|discriminate].
  destruct (number_min_0 (t_value d')) eqn:V; [|discriminate].
  cbn. intros [= <-]. repeat split; [exact V|].
  unfold nonempty in N. intros E. rewrite E in N. discriminate N.
Qed.

(** X24.  An appointment without a type opens in the edit form and cannot be
    saved from it as it is: the form is rejected, no call is made, and the
    dialog stays open on that appointment. *)
Theorem typeless_appointment_cannot_be_resaved (a : AS.Appointment) (s : Screen) :
  AS.appointment_type_id a = None ->
  let opened := snd (handleEdit a s) in
  let s' :=
    snd (handleSubmit faults order_appointments new_id not_single is_uuid today
           opened) in
  s' = opened
  /\ world s' = world s
  /\ editingAppointment (ui s') = Some a
  /\ isEditDialogOpen (ui s') = true.
Proof.
  intros E. cbv zeta. unfold handleSubmit, appointmentSchema. run_screen.
  cbn. rewrite E. cbn. repeat split; reflexivity.
Qed.

Lemma same_id_same_appointment_row (l : list AS.AppointmentRow)
    (r r' : AS.AppointmentRow) :
  NoDup (map AS.row_id l) -> In r l -> In r' l -> AS.row_id r' = AS.row_id r ->
  r' = r.
Proof.
  induction l as [|x l IH]; simpl; intros ND Hr Hr' E; [contradiction|].
  inversion ND as [|? ? Hx ND']; subst.
  destruct Hr as [->|Hr]; destruct Hr' as [->|Hr'].
  - reflexivity.
  - exfalso. apply Hx. rewrite <- E. now apply in_map.
  - exfalso. apply Hx. rewrite E. now apply in_map.
  - now apply IH.
Qed.

Lemma only_appointment_row_of_its_id (l : list AS.AppointmentRow)
    (r : AS.AppointmentRow) :
  NoDup (map AS.row_id l) -> In r l -> filter (is_row (AS.row_id r)) l = [r].
Proof.
  induction l as [|x l IH]; simpl; intros ND Hr; [contradiction|].
  inversion ND as [|? ? Hx ND']; subst. unfold is_row at 1.
  destruct (String.eqb_spec (AS.row_id x) (AS.row_id r)) as [E|NE].
  - assert (x = r).
    { apply (same_id_same_appointment_row (x :: l)); simpl; auto. }
    subst x. f_equal.
    rewrite <- (filter_false l). apply filter_ext_in. intros y Hy. unfold is_row.
    destruct (String.eqb_spec (AS.row_id y) (AS.row_id r)) as [E'|]; [|reflexivity].
    exfalso. apply Hx. rewrite <- E'. now apply in_map.
  - destruct Hr as [->|Hr]; [congruence|]. now apply IH.
Qed.

Lemma rewriting_a_row_with_itself (l : list AS.AppointmentRow)
    (r : AS.AppointmentRow) :
  NoDup (map AS.row_id l) -> In r l ->
  map (fun r' => if is_row (AS.row_id r) r' then r else r') l = l.
Proof.
  intros ND Hr. rewrite <- (map_id l) at 2. apply map_ext_in. intros r' Hr'.
  unfold is_row. destruct (String.eqb_spec (AS.row_id r') (AS.row_id r)) as [E|];
    [|reflexivity].
  symmetry. now apply (same_id_same_appointment_row l).
Qed.

(** X25.  Opening an appointment in the edit form and saving it untouched
    writes what the form was filled with over the row of its id.  For an
    appointment, as the list holds it or not, whose id is the id of a row of
    the table, a user signed in, the ids of the table distinct, the fields
    passing the form's schema and the call succeeding: the table keeps its
    ids and order, the row of that id now has the appointment's patient,
    date, time, value and type and the user as owner, every other row is as
    it was, patients and types stay, the update is notified and the form is
    closed and back at its default values.  When the appointment is the row
    as the store joins it now and the user owns the row, the store is what
    it was. *)
Theorem resaving_an_appointment_changes_nothing
    (a : AS.Appointment) (r : AS.AppointmentRow) (user : string) (s : Screen) :
  signed_in user s ->
  submit_fault faults = None ->
  NoDup (map AS.row_id (rows s)) ->
  In r (rows s) ->
  AS.row_id r = AS.id a ->
  appointmentSchema is_uuid
    {| v_patient := AS.a_patient_id a; v_date := AS.date a;
       v_time := AS.time a; v_value := AS.value a;
       v_appointmentType := AS.appointment_type_id a |} <> None ->
  let s' :=
    snd (handleSubmit faults order_appointments new_id not_single is_uuid today
           (snd (handleEdit a s))) in
  let written :=
    {| AS.row_id := AS.id a; AS.row_patient_id := AS.a_patient_id a;
       AS.row_date := AS.date a; AS.row_time := AS.time a;
       AS.row_value := AS.value a;
       AS.row_appointment_type_id := AS.appointment_type_id a;
       AS.row_user_id := user |} in
  map AS.row_id (rows s') = map AS.row_id (rows s)
  /\ (forall r', In r' (rows s')
                 <-> (In r' (rows s) /\ AS.row_id r' <> AS.id a) \/ r' = written)
  /\ types s' = types s
  /\ AS.patients (AS.store (world s')) = AS.patients (AS.store (world s))
  /\ (AS.join (AS.store (world s)) r = a -> AS.row_user_id r = user ->
      AS.store (world s') = AS.store (world s))
  /\ In {| title := "Consulta atualizada";
           description := Some "A operação foi realizada com sucesso.";
           variant := None |} (notified s')
  /\ editingAppointment (ui s') = None
  /\ isEditDialogOpen (ui s') = false
  /\ formValues (ui s') = defaultValues today.
Proof.
  destruct s as [[[ps ts rs] [u tys aps tl cl] rq] uirec].
  destruct faults as [[cf df tf af] pf sf dlf atf utf].
  unfold rows, types, listed, listed_types, notified, signed_in.
  cbn [world ui AS.view AS.store AS.currentUser submit_fault fetches
       AS.appointment_rows AS.appointment_types AS.patients].
  intros -> -> ND Hr Hid V. cbv zeta.
  destruct (appointmentSchema is_uuid _) as [d|] eqn:S in V; [clear V|congruence].
  destruct (appointmentSchema_fields _ _ S) as (Hp & Hd & Ht & Hv & Hty & _).
  cbn in Hp, Hd, Ht, Hv, Hty.
  unfold handleSubmit. run_screen. cbn. rewrite S. cbn.
  rewrite <- Hid. rewrite (only_appointment_row_of_its_id rs r ND Hr). cbn.
  unfold row_of. cbn. rewrite Hp, Hd, Ht, Hv, <- Hty.
  set (written := {| AS.row_id := AS.row_id r;
                     AS.row_patient_id := AS.a_patient_id a;
                     AS.row_date := AS.date a; AS.row_time := AS.time a;
                     AS.row_value := AS.value a;
                     AS.row_appointment_type_id := AS.appointment_type_id a;
                     AS.row_user_id := user |}).
  set (rs' := map (fun r0 => if is_row (AS.row_id r) r0 then written else r0) rs).
  assert (Ids : map AS.row_id rs' = map AS.row_id rs).
  { unfold rs'. rewrite map_map. apply map_ext. intros r0. unfold is_row.
    destruct (String.eqb_spec (AS.row_id r0) (AS.row_id r)) as [E|];
      [symmetry; exact E | reflexivity]. }
  assert (Mem : forall r', In r' rs'
                  <-> (In r' rs /\ AS.row_id r' <> AS.row_id r) \/ r' = written).
  { intros r'. unfold rs'. rewrite in_map_iff. split.
    - intros (r0 & E & H0). unfold is_row in E.
      destruct (String.eqb_spec (AS.row_id r0) (AS.row_id r)) as [E0|N0].
      + right. now symmetry.
      + left. subst r0. now split.
    - intros [[H0 N0] | ->].
      + exists r'. split; [|exact H0]. unfold is_row.
        destruct (String.eqb_spec (AS.row_id r') (AS.row_id r)); [contradiction|].
        reflexivity.
      + exists r. split; [|exact Hr]. unfold is_row. now rewrite String.eqb_refl. }
  assert (Same : AS.join {| AS.patients := ps; AS.appointment_types := ts;
                            AS.appointment_rows := rs |} r = a ->
                 AS.row_user_id r = user -> rs' = rs).
  { intros J U. assert (W : written = r).
    { unfold written. rewrite <- J, <- U. destruct r; reflexivity. }
    unfold rs'. rewrite W. now apply rewriting_a_row_with_itself. }
  destruct af as [e|]; cbn; fold written; fold rs';
    (split; [exact Ids|]); (split; [exact Mem|]);
    (split; [reflexivity|]); (split; [reflexivity|]);
    (split; [intros J U; unfold set_rows; cbn; now rewrite (Same J U)|]);
    repeat split; try reflexivity; rewrite ?in_app_iff; cbn; auto 6.
Qed.

(** X26.  Renaming or repricing an appointment type, for the signed-in user
    and the call succeeding: the table of types keeps its ids, owners and
    order, the rows of that id owned by the user carry the new name and
    value and every other type is as it was, no appointment is touched, and
    the dialog is closed.  The appointments are not fetched again: the list
    shown keeps the name and value the type had. *)
Theorem updated_type_keeps_its_place
    (d : AppointmentTypeFormData) (user : string) (edited : AS.AppointmentType)
    (s : Screen) :
  signed_in user s ->
  editingAppointmentType (ui s) = Some edited ->
  update_type_fault faults = None ->
  let s' := snd (handleUpdateAppointmentType faults order_types d s) in
  map AS.type_id (types s') = map AS.type_id (types s)
  /\ map AS.type_user_id (types s') = map AS.type_user_id (types s)
  /\ (forall t, In t (types s) ->
        AS.type_id t <> AS.type_id edited \/ AS.type_user_id t <> user ->
        In t (types s'))
  /\ (forall t, In t (types s') ->
        AS.type_id t = AS.type_id edited -> AS.type_user_id t = user ->
        AS.type_name t = t_name d /\ AS.type_value t = t_value d)
  /\ rows s' = rows s
  /\ listed s' = listed s
  /\ editingAppointmentType (ui s') = None
  /\ isEditTypeDialogOpen (ui s') = false.
Proof.
  destruct s as [[[ps ts rs] [u tys aps tl cl] rq] uirec].
  destruct faults as [[cf df tf af] pf sf dlf atf utf].
  unfold rows, types, listed, listed_types, notified, signed_in.
  cbn [world ui AS.view AS.store AS.currentUser update_type_fault fetches
       AS.appointment_rows AS.appointment_types].
  intros -> E ->. cbv zeta. run_screen. cbn. rewrite E. cbn.
  set (patch := fun t : AS.AppointmentType =>
                  if (String.eqb (AS.type_id t) (AS.type_id edited)
                      && String.eqb (AS.type_user_id t) user)%bool
                  then {| AS.type_id := AS.type_id t; AS.type_name := t_name d;
                          AS.type_value := t_value d;
                          AS.type_user_id := AS.type_user_id t |}
                  else t).
  assert (Ids : map AS.type_id (map patch ts) = map AS.type_id ts).
  { rewrite map_map. apply map_ext. intros t. unfold patch.
    destruct (_ && _)%bool; reflexivity. }
  assert (Owners : map AS.type_user_id (map patch ts) = map AS.type_user_id ts).
  { rewrite map_map. apply map_ext. intros t. unfold patch.
    destruct (_ && _)%bool; reflexivity. }
  assert (Others : forall t, In t ts ->
            AS.type_id t <> AS.type_id edited \/ AS.type_user_id t <> user ->
            In t (map patch ts)).
  { intros t Ht H. apply in_map_iff. exists t. split; [|exact Ht]. unfold patch.
    destruct (String.eqb_spec (AS.type_id t) (AS.type_id edited));
      destruct (String.eqb_spec (AS.type_user_id t) user); cbn; try reflexivity.
    destruct H; contradiction. }
  assert (Patched : forall t, In t (map patch ts) ->
            AS.type_id t = AS.type_id edited -> AS.type_user_id t = user ->
            AS.type_name t = t_name d /\ AS.type_value t = t_value d).
  { intros t Ht. apply in_map_iff in Ht. destruct Ht as (t0 & <- & _).
    unfold patch.
    destruct (String.eqb_spec (AS.type_id t0) (AS.type_id edited));
      destruct (String.eqb_spec (AS.type_user_id t0) user); cbn;
      intros; try contradiction; split; reflexivity. }
  destruct tf as [e|]; cbn; repeat split; try reflexivity;
    try exact Ids; try exact Owners; try (now apply Others);
    try (now apply Patched).
Qed.

(** The store after each handler that writes to it. *)
Lemma store_after_handleDelete (appointmentId : string) (s : Screen) :
  let st := AS.store (world s) in
  let st' := AS.store (world (snd (handleDelete faults order_appointments
                                     appointmentId s))) in
  st' = st
  \/ st' = set_rows (filter (fun r => negb (is_row appointmentId r))
                            (AS.appointment_rows st)) st.
Proof.
  destruct s as [[st [u tys aps tl cl] rq] uirec]. cbv zeta. run_screen.
  destruct (delete_fault faults); cbn; [now left|]. right.
  destruct u; cbn; [destruct (AS.appointments_fault (fetches faults))|];
    reflexivity.
Qed.

Lemma store_after_onSubmit (d : AppointmentFormData) (s : Screen) :
  let st := AS.store (world s) in
  let st' := AS.store (world (snd (onSubmit faults order_appointments new_id
                                     not_single today d s))) in
  st' = st
  \/ exists data,
       appointment_type_id data = appointmentType d
       /\ data_value data = value d
       /\ (st' = set_rows (AS.appointment_rows st ++ [row_of new_id data]) st
           \/ exists rowId,
                st' = set_rows
                        (map (fun r => if is_row rowId r then row_of rowId data
                                       else r)
                             (AS.appointment_rows st)) st).
Proof.
  destruct s as [[st [u tys aps tl cl] rq] uirec]. cbv zeta. run_screen. cbn.
  destruct u as [user|]; cbn; [|now left].
  destruct (submit_fault faults) as [e|];
    destruct (editingAppointment uirec) as [edited|]; cbn; try (now left).
  - destruct (filter (is_row (AS.id edited)) (AS.appointment_rows st))
      as [|r [|r' rest]]; cbn; try (now left).
    right.
    exists {| patient_id := patient d; data_date := date d; data_time := time d;
              data_value := value d; user_id := user;
              appointment_type_id := appointmentType d |}.
    split; [|split]; [| |right; exists (AS.id edited)];
      [reflexivity|reflexivity|].
    destruct (AS.appointments_fault (fetches faults)); reflexivity.
  - right.
    exists {| patient_id := patient d; data_date := date d; data_time := time d;
              data_value := value d; user_id := user;
              appointment_type_id := appointmentType d |}.
    split; [|split]; [| |left]; [reflexivity|reflexivity|].
    destruct (AS.appointments_fault (fetches faults)); reflexivity.
Qed.

Lemma store_after_handleAddAppointmentType (d : AppointmentTypeFormData)
    (s : Screen) :
  let st := AS.store (world s) in
  let st' := AS.store (world (snd (handleAddAppointmentType faults order_types
                                     new_id d s))) in
  st' = st
  \/ exists user,
       st' = set_types
               (AS.appointment_types st
                ++ [ {| AS.type_id := new_id; AS.type_name := t_name d;
                        AS.type_value := t_value d; AS.type_user_id := user |} ])
               st.
Proof.
  destruct s as [[st [u tys aps tl cl] rq] uirec]. cbv zeta. run_screen. cbn.
  destruct u as [user|]; cbn; [|now left].
  destruct (add_type_fault faults) as [e|]; cbn; [now left|].
  right. exists user. destruct (AS.types_fault (fetches faults)); reflexivity.
Qed.

Lemma store_after_handleUpdateAppointmentType (d : AppointmentTypeFormData)
    (s : Screen) :
  let st := AS.store (world s) in
  let st' := AS.store (world (snd (handleUpdateAppointmentType faults order_types
                                     d s))) in
  st' = st
  \/ exists (keep : AS.AppointmentType -> bool),
       st' = set_types
               (map (fun t =>
                       if keep t then t
                       else {| AS.type_id := AS.type_id t; AS.type_name := t_name d;
                               AS.type_value := t_value d;
                               AS.type_user_id := AS.type_user_id t |})
                    (AS.appointment_types st)) st.
Proof.
  destruct s as [[st [u tys aps tl cl] rq] uirec]. cbv zeta. run_screen. cbn.
  destruct u as [user|]; cbn; [|now left].
  destruct (editingAppointmentType uirec) as [edited|]; cbn; [|now left].
  destruct (update_type_fault faults) as [e|]; cbn; [now left|].
  right.
  exists (fun t => negb (String.eqb (AS.type_id t) (AS.type_id edited)
                         && String.eqb (AS.type_user_id t) user)).
  assert (M : forall l : list AS.AppointmentType,
            map (fun t =>
                   if (String.eqb (AS.type_id t) (AS.type_id edited)
                       && String.eqb (AS.type_user_id t) user)%bool
                   then {| AS.type_id := AS.type_id t; AS.type_name := t_name d;
                           AS.type_value := t_value d;
                           AS.type_user_id := AS.type_user_id t |}
                   else t) l
            = map (fun t =>
                     if negb (String.eqb (AS.type_id t) (AS.type_id edited)
                              && String.eqb (AS.type_user_id t) user)
                     then t
                     else {| AS.type_id := AS.type_id t; AS.type_name := t_name d;
                             AS.type_value := t_value d;
                             AS.type_user_id := AS.type_user_id t |}) l).
  { intros l. apply map_ext. intros t. destruct (_ && _)%bool; reflexivity. }
  destruct (AS.types_fault (fetches faults)); cbn; unfold set_types; cbn;
    rewrite M; reflexivity.
Qed.

Lemma store_after_handleDeleteAppointmentType (typeId : string) (s : Screen) :
  let st := AS.store (world s) in
  let st' := AS.store (world (snd (handleDeleteAppointmentType faults order_types
                                     order_appointments typeId s))) in
  st' = st
  \/ (~ Guarding.referenced typeId st /\ st' = AS.delete_appointment_type typeId st).
Proof.
  destruct s as [[st [u tys aps tl cl] rq] uirec]. cbv zeta. run_screen.
  unfold AS.handleDeleteAppointmentType. run_screen.
  cbn -[AS.select_appointments_using].
  destruct (AS.check_fault (fetches faults)) as [e|];
    cbn -[AS.select_appointments_using]; [now left|].
  destruct (AS.select_appointments_using typeId st) as [|i rest] eqn:L;
    cbn; [|now left].
  destruct (AS.delete_fault (fetches faults)) as [e|]; cbn; [now left|].
  right. split.
  - intros R. apply check_finds_reference in R. rewrite L in R. discriminate R.
  - destruct u as [user|]; cbn;
      [destruct (AS.types_fault (fetches faults));
       destruct (AS.appointments_fault (fetches faults))|]; reflexivity.
Qed.

(** X27.  Referential integrity is kept by every handler that writes to the
    store, whatever fails: when every appointment that names a type names
    one of the table, this is still so after deleting an appointment, after
    adding, changing or deleting a type, and after saving an appointment
    whose chosen type is in the table. *)
Theorem references_survive_every_handler (s : Screen) :
  references_resolve (AS.store (world s)) ->
  (forall appointmentId,
     references_resolve
       (AS.store (world (snd (handleDelete faults order_appointments
                                appointmentId s)))))
  /\ (forall d,
        references_resolve
          (AS.store (world (snd (handleAddAppointmentType faults order_types
                                   new_id d s)))))
  /\ (forall d,
        references_resolve
          (AS.store (world (snd (handleUpdateAppointmentType faults order_types
                                   d s)))))
  /\ (forall typeId,
        references_resolve
          (AS.store (world (snd (handleDeleteAppointmentType faults order_types
                                   order_appointments typeId s)))))
  /\ (forall d,
        (exists ty, In ty (types s) /\ AS.type_id ty = appointmentType d) ->
        references_resolve
          (AS.store (world (snd (onSubmit faults order_appointments new_id
                                   not_single today d s))))).
Proof.
  intros RR. unfold types. repeat split.
  - intros appointmentId.
    destruct (store_after_handleDelete appointmentId s) as [-> | ->];
      [exact RR|].
    intros r t Hr Ht. cbn in Hr. apply filter_In in Hr. apply (RR r t (proj1 Hr) Ht).
  - intros d.
    destruct (store_after_handleAddAppointmentType d s) as [-> | [user ->]];
      [exact RR|].
    intros r t Hr Ht. destruct (RR r t Hr Ht) as (ty & Hty & E).
    exists ty. split; [|exact E]. cbn. apply in_or_app. now left.
  - intros d.
    destruct (store_after_handleUpdateAppointmentType d s) as [-> | [keep ->]];
      [exact RR|].
    intros r t Hr Ht. destruct (RR r t Hr Ht) as (ty & Hty & E). cbn.
    eexists. split; [apply in_map; exact Hty|].
    destruct (keep ty); cbn; exact E.
  - intros typeId.
    destruct (store_after_handleDeleteAppointmentType typeId s)
      as [-> | [NR ->]]; [exact RR|].
    intros r t Hr Ht. cbn in Hr. destruct (RR r t Hr Ht) as (ty & Hty & E).
    exists ty. split; [|exact E]. cbn. apply filter_In. split; [exact Hty|].
    destruct (String.eqb_spec (AS.type_id ty) typeId) as [E'|]; [|reflexivity].
    exfalso. apply NR. exists r. split; [exact Hr|]. congruence.
  - intros d (ty & Hty & Ety).
    destruct (store_after_onSubmit d s)
      as [-> | (data & Edata & _ & [-> | [rowId ->]])]; [exact RR| |].
    + intros r t Hr Ht. cbn in Hr. apply in_app_or in Hr. destruct Hr as [Hr|[<-|[]]].
      * exact (RR r t Hr Ht).
      * cbn in Ht. exists ty. split; [exact Hty|]. congruence.
    + intros r t Hr Ht. cbn in Hr. apply in_map_iff in Hr.
      destruct Hr as (r0 & E0 & Hr0). destruct (is_row rowId r0).
      * subst r. cbn in Ht. exists ty. split; [exact Hty|]. congruence.
      * subst r0. exact (RR r t Hr0 Ht).
Qed.

(** X28.  No handler stores a value that is NaN or below 0: when no value
    of the tables of appointments and of types is, none is after a
    submission of the appointment form or of the type form, adding or
    changing a type, nor after either deletion, whatever fails. *)
Theorem stored_values_stay_valid (s : Screen) :
  values_valid (AS.store (world s)) ->
  values_valid
    (AS.store (world (snd (handleSubmit faults order_appointments new_id
                             not_single is_uuid today s))))
  /\ (forall isEditing,
        values_valid
          (AS.store (world (snd (handleSubmitAppointmentType faults order_types
                                   new_id isEditing s)))))
  /\ (forall appointmentId,
        values_valid
          (AS.store (world (snd (handleDelete faults order_appointments
                                   appointmentId s)))))
  /\ (forall typeId,
        values_valid
          (AS.store (world (snd (handleDeleteAppointmentType faults order_types
                                   order_appointments typeId s))))).
Proof.
  intros [VR VT]. repeat split.
  - unfold handleSubmit, bind, get.
    destruct (appointmentSchema is_uuid (formValues (ui s))) as [d|] eqn:S;
      [|exact VR].
    apply appointmentSchema_fields in S. destruct S as (_ & _ & _ & _ & _ & V).
    destruct (store_after_onSubmit d s)
      as [-> | (data & _ & Edata & [-> | [rowId ->]])]; [exact VR| |].
    + intros r Hr. cbn in Hr. apply in_app_or in Hr. destruct Hr as [Hr|[<-|[]]].
      * exact (VR r Hr).
      * cbn. congruence.
    + intros r Hr. cbn in Hr. apply in_map_iff in Hr.
      destruct Hr as (r0 & E0 & Hr0). destruct (is_row rowId r0).
      * subst r. cbn. congruence.
      * subst r0. exact (VR r Hr0).
  - unfold handleSubmit, bind, get.
    destruct (appointmentSchema is_uuid (formValues (ui s))) as [d|] eqn:S;
      [|exact VT].
    destruct (store_after_onSubmit d s)
      as [-> | (data & _ & _ & [-> | [rowId ->]])]; exact VT.
  - unfold handleSubmitAppointmentType, bind, get.
    destruct (appointmentTypeSchema (typeFormValues (ui s))) as [d|] eqn:S;
      [|exact VR].
    destruct isEditing.
    + destruct (store_after_handleUpdateAppointmentType d s) as [-> | [keep ->]];
        exact VR.
    + destruct (store_after_handleAddAppointmentType d s) as [-> | [user ->]];
        exact VR.
  - unfold handleSubmitAppointmentType, bind, get.
    destruct (appointmentTypeSchema (typeFormValues (ui s))) as [d|] eqn:S;
      [|exact VT].
    apply appointmentTypeSchema_fields in S. destruct S as (_ & V & _).
    destruct isEditing.
    + destruct (store_after_handleUpdateAppointmentType d s) as [-> | [keep ->]];
        [exact VT|].
      intros t Ht. cbn in Ht. apply in_map_iff in Ht.
      destruct Ht as (t0 & E0 & Ht0). destruct (keep t0).
      * subst t0. exact (VT t Ht0).
      * subst t. cbn. exact V.
    + destruct (store_after_handleAddAppointmentType d s) as [-> | [user ->]];
        [exact VT|].
      intros t Ht. cbn in Ht. apply in_app_or in Ht. destruct Ht as [Ht|[<-|[]]].
      * exact (VT t Ht).
      * cbn. exact V.
  - destruct (store_after_handleDelete appointmentId s) as [-> | ->]; [exact VR|].
    intros r Hr. cbn in Hr. apply filter_In in Hr. exact (VR r (proj1 Hr)).
  - destruct (store_after_handleDelete appointmentId s) as [-> | ->]; exact VT.
  - destruct (store_after_handleDeleteAppointmentType typeId s)
      as [-> | [_ ->]]; exact VR.
  - destruct (store_after_handleDeleteAppointmentType typeId s)
      as [-> | [_ ->]]; [exact VT|].
    intros t Ht. cbn in Ht. apply filter_In in Ht. exact (VT t (proj1 Ht)).
Qed.

(** X29.  Changing a type that is no longer in the table for the user: the
    update matches no row and asks for none back, so when the call succeeds
    the store is what it was and the change is notified as done, the dialog
    closed.  (Saving an appointment that is no longer in the table is
    notified as a failure.) *)
Theorem update_of_a_missing_type_reports_success
    (d : AppointmentTypeFormData) (user : string) (edited : AS.AppointmentType)
    (s : Screen) :
  signed_in user s ->
  editingAppointmentType (ui s) = Some edited ->
  update_type_fault faults = None ->
  (forall t, In t (types s) -> AS.type_id t = AS.type_id edited ->
             AS.type_user_id t <> user) ->
  let s' := snd (handleUpdateAppointmentType faults order_types d s) in
  AS.store (world s') = AS.store (world s)
  /\ In {| title := "Tipo de consulta atualizado com sucesso";
           description := None; variant := None |} (notified s')
  /\ editingAppointmentType (ui s') = None
  /\ isEditTypeDialogOpen (ui s') = false.
Proof.
  destruct s as [[[ps ts rs] [u tys aps tl cl] rq] uirec].
  destruct faults as [[cf df tf af] pf sf dlf atf utf].
  unfold rows, types, listed, listed_types, notified, signed_in.
  cbn [world ui AS.view AS.store AS.currentUser update_type_fault fetches
       AS.appointment_rows AS.appointment_types].
  intros -> E -> Missing. cbv zeta. run_screen. cbn. rewrite E. cbn.
  match goal with
  | |- context [map ?f ts] =>
      assert (M : map f ts = ts);
        [rewrite <- (map_id ts) at 2; apply map_ext_in; intros t Ht; cbn|]
  end.
  { destruct (String.eqb_spec (AS.type_id t) (AS.type_id edited)) as [Ei|];
      [|reflexivity].
    destruct (String.eqb_spec (AS.type_user_id t) user) as [Eu|]; [|reflexivity].
    exfalso. exact (Missing t Ht Ei Eu). }
  destruct tf as [e|]; cbn; rewrite M; repeat split; try reflexivity;
    rewrite ?in_app_iff; cbn; auto 6.
Qed.

Lemma same_id_same_type (l : list AS.AppointmentType) (t t' : AS.AppointmentType) :
  NoDup (map AS.type_id l) -> In t l -> In t' l -> AS.type_id t' = AS.type_id t ->
  t' = t.
Proof.
  induction l as [|x l IH]; simpl; intros ND Ht Ht' E; [contradiction|].
  inversion ND as [|? ? Hx ND']; subst.
  destruct Ht as [->|Ht]; destruct Ht' as [->|Ht'].
  - reflexivity.
  - exfalso. apply Hx. rewrite <- E. now apply in_map.
  - exfalso. apply Hx. rewrite E. now apply in_map.
  - now apply IH.
Qed.

(** X30.  Opening a type of the table in its edit form and saving it
    untouched: when its name and value pass the form's schema, the ids of
    the table are distinct and the call succeeds, the store is what it was
    and the dialog is closed. *)
Theorem resaving_a_type_changes_nothing
    (t : AS.AppointmentType) (user : string) (s : Screen) :
  signed_in user s ->
  update_type_fault faults = None ->
  NoDup (map AS.type_id (types s)) ->
  In t (types s) ->
  appointmentTypeSchema
    (Some {| t_name := AS.type_name t; t_value := AS.type_value t |}) <> None ->
  let s' :=
    snd (handleSubmitAppointmentType faults order_types new_id true
           (snd (handleEditAppointmentType t s))) in
  AS.store (world s') = AS.store (world s)
  /\ editingAppointmentType (ui s') = None
  /\ isEditTypeDialogOpen (ui s') = false.
Proof.
  destruct s as [[[ps ts rs] [u tys aps tl cl] rq] uirec].
  destruct faults as [[cf df tf af] pf sf dlf atf utf].
  unfold rows, types, listed, listed_types, notified, signed_in.
  cbn [world ui AS.view AS.store AS.currentUser update_type_fault fetches
       AS.appointment_rows AS.appointment_types].
  intros -> -> ND Ht V. cbv zeta.
  destruct (appointmentTypeSchema _) as [d|] eqn:S in V; [clear V|congruence].
  destruct (appointmentTypeSchema_fields _ _ S) as (Ed & _ & _).
  injection Ed as Ed. subst d.
  unfold handleSubmitAppointmentType. run_screen. cbn [snd ui typeFormValues].
  rewrite S. cbn.
  match goal with
  | |- context [map ?f ts] =>
      assert (M : map f ts = ts);
        [rewrite <- (map_id ts) at 2; apply map_ext_in; intros t0 Ht0; cbn|]
  end.
  { destruct (String.eqb_spec (AS.type_id t0) (AS.type_id t)) as [Ei|];
      [|reflexivity].
    destruct (String.eqb (AS.type_user_id t0) user); [|reflexivity].
    rewrite (same_id_same_type ts t t0 ND Ht Ht0 Ei). destruct t; reflexivity. }
  destruct tf as [e|]; cbn; rewrite M; repeat split; reflexivity.
Qed.

End SchedulingFacts.

(** Ana's appointment a1 is deleted: its row is not in the table any more. *)
Lemma deleted_appointment_is_gone_example :
  In Examples.appointment_row
     (Scheduled.rows
        (snd (SchedulingScreen.handleDelete ScheduleExamples.no_faults
                (fun l => l) "a1" ScheduleExamples.screen)))
  <-> In Examples.appointment_row (Scheduled.rows ScheduleExamples.screen)
      /\ AppointmentScheduling.row_id Examples.appointment_row <> "a1".
Proof.
  apply (proj1 (deleted_appointment_is_gone ScheduleExamples.no_faults
                  (fun l => l) "a1" ScheduleExamples.screen)).
  reflexivity.
Defined.

(** A second appointment for Ana is scheduled and listed. *)
Lemma new_appointment_is_listed_example :
  let s' :=
    snd (SchedulingScreen.onSubmit ScheduleExamples.no_faults (fun l => l)
           "a2" "not one row" "2024-03-01" ScheduleExamples.booking
           ScheduleExamples.screen) in
  map AppointmentScheduling.row_id (Scheduled.rows s') = [ "a1"; "a2" ]
  /\ map AppointmentScheduling.id (Scheduled.listed s') = [ "a1"; "a2" ].
Proof.
  destruct (new_appointment_is_listed ScheduleExamples.no_faults (fun l => l)
              "a2" "not one row" "2024-03-01" ScheduleExamples.booking "u1"
              ScheduleExamples.screen)
    as (R & _); try reflexivity.
  cbv zeta. rewrite R. split; reflexivity.
Defined.

(** The call fails: the table still has Ana's appointment only, and nothing
    is loading. *)
Lemma failed_submit_keeps_the_form_example :
  let faults :=
    {| SchedulingScreen.fetches := Examples.no_faults;
       SchedulingScreen.patients_fault := None;
       SchedulingScreen.submit_fault := Some "permission denied";
       SchedulingScreen.delete_fault := None;
       SchedulingScreen.add_type_fault := None;
       SchedulingScreen.update_type_fault := None |} in
  SchedulingScreen.isLoading
    (SchedulingScreen.ui
       (snd (SchedulingScreen.onSubmit faults (fun l => l) "a2" "not one row"
               "2024-03-01" ScheduleExamples.booking ScheduleExamples.screen)))
  = false.
Proof.
  cbv zeta.
  apply (proj1 (proj2 (failed_submit_keeps_the_form _ (fun l => l) "a2"
                         "not one row" "2024-03-01" ScheduleExamples.booking
                         ScheduleExamples.screen)) "u1").
  reflexivity.
Defined.

(** The type Retorno is added under the id t2 and deleted again. *)
Lemma added_type_can_be_deleted_again_example :
  AppointmentScheduling.store
    (SchedulingScreen.world
       (snd (SchedulingScreen.handleDeleteAppointmentType
               ScheduleExamples.no_faults (fun l => l) (fun l => l) "t2"
               (snd (SchedulingScreen.handleAddAppointmentType
                       ScheduleExamples.no_faults (fun l => l) "t2"
                       ScheduleExamples.retorno ScheduleExamples.screen)))))
  = AppointmentScheduling.store (SchedulingScreen.world ScheduleExamples.screen).
Proof.
  apply (added_type_can_be_deleted_again ScheduleExamples.no_faults (fun l => l)
           (fun l => l) "t2" ScheduleExamples.retorno "u1"
           ScheduleExamples.screen); try reflexivity.
  - cbn. intros [E|[]]. discriminate E.
  - cbn. intros r [<-|[]]. discriminate.
Defined.

(** An appointment without a type is opened and submitted: the dialog is
    still open. *)
Lemma typeless_appointment_cannot_be_resaved_example :
  SchedulingScreen.isEditDialogOpen
    (SchedulingScreen.ui
       (snd (SchedulingScreen.handleSubmit ScheduleExamples.no_faults
               (fun l => l) "a2" "not one row" ScheduleExamples.is_example_id
               "2024-03-01"
               (snd (SchedulingScreen.handleEdit ScheduleExamples.typeless
                       ScheduleExamples.screen)))))
  = true.
Proof.
  apply (typeless_appointment_cannot_be_resaved ScheduleExamples.no_faults
           (fun l => l) "a2" "not one row" "2024-03-01"
           ScheduleExamples.is_example_id ScheduleExamples.typeless
           ScheduleExamples.screen).
  reflexivity.
Defined.

(** Ana's appointment is opened and saved as it is. *)
Lemma resaving_an_appointment_changes_nothing_example :
  AppointmentScheduling.store
    (SchedulingScreen.world
       (snd (SchedulingScreen.handleSubmit ScheduleExamples.no_faults
               (fun l => l) "a2" "not one row" ScheduleExamples.is_example_id
               "2024-03-01"
               (snd (SchedulingScreen.handleEdit
                       (AppointmentScheduling.join
                          (AppointmentScheduling.store Examples.world_in_use)
                          Examples.appointment_row)
                       ScheduleExamples.screen)))))
  = AppointmentScheduling.store Examples.world_in_use.
Proof.
  pose proof
    (resaving_an_appointment_changes_nothing ScheduleExamples.no_faults
       (fun l => l) "a2" "not one row" "2024-03-01"
       ScheduleExamples.is_example_id
       (AppointmentScheduling.join
          (AppointmentScheduling.store Examples.world_in_use)
          Examples.appointment_row)
       Examples.appointment_row "u1" ScheduleExamples.screen) as H.
  cbv zeta in H.
  refine (proj1 (proj2 (proj2 (proj2 (proj2 (H _ _ _ _ _ _))))) _ _);
    try reflexivity.
  - cbn. constructor; [intros []|constructor].
  - now left.
  - discriminate.
Defined.

(** Consulta Padrão becomes Retorno at 80: the appointment shown is the one
    shown before. *)
Lemma updated_type_keeps_its_place_example :
  let s' :=
    snd (SchedulingScreen.handleUpdateAppointmentType ScheduleExamples.no_faults
           (fun l => l) ScheduleExamples.retorno ScheduleExamples.editing_type) in
  map AppointmentScheduling.type_id (Scheduled.types s') = [ "t1" ]
  /\ map AppointmentScheduling.type_name (Scheduled.types s') = [ "Retorno" ]
  /\ Scheduled.listed s' = Scheduled.listed ScheduleExamples.editing_type.
Proof.
  destruct (updated_type_keeps_its_place ScheduleExamples.no_faults (fun l => l)
              ScheduleExamples.retorno "u1" Examples.consulta_padrao
              ScheduleExamples.editing_type)
    as (I & _ & _ & _ & _ & L & _); try reflexivity.
  cbv zeta. split; [exact I|]. split; [reflexivity|exact L].
Defined.

(** The references of the example store resolve, and still do after the
    refused deletion of its type. *)
Lemma references_survive_every_handler_example :
  References.references_resolve
    (AppointmentScheduling.store
       (SchedulingScreen.world
          (snd (SchedulingScreen.handleDeleteAppointmentType
                  ScheduleExamples.no_faults (fun l => l) (fun l => l) "t1"
                  ScheduleExamples.screen)))).
Proof.
  apply (references_survive_every_handler ScheduleExamples.no_faults (fun l => l)
           (fun l => l) "a2" "not one row" "2024-03-01" ScheduleExamples.screen).
  intros r t [<-|[]] [= <-]. exists Examples.consulta_padrao.
  split; [now left | reflexivity].
Defined.

(** The values of the example store are valid, and still are after a
    submission of the appointment form. *)
Lemma stored_values_stay_valid_example :
  Scheduled.values_valid
    (AppointmentScheduling.store
       (SchedulingScreen.world
          (snd (SchedulingScreen.handleSubmit ScheduleExamples.no_faults
                  (fun l => l) "a2" "not one row" ScheduleExamples.is_example_id
                  "2024-03-01" ScheduleExamples.screen)))).
Proof.
  apply (stored_values_stay_valid ScheduleExamples.no_faults (fun l => l)
           (fun l => l) "a2" "not one row" "2024-03-01"
           ScheduleExamples.is_example_id ScheduleExamples.screen).
  split.
  - intros r [<-|[]]. reflexivity.
  - intros t [<-|[]]. reflexivity.
Defined.

(** A type the table does not have is changed: the table is as it was. *)
Lemma update_of_a_missing_type_reports_success_example :
  let s' :=
    snd (SchedulingScreen.handleUpdateAppointmentType ScheduleExamples.no_faults
           (fun l => l) ScheduleExamples.retorno
           ScheduleExamples.editing_missing_type) in
  AppointmentScheduling.store (SchedulingScreen.world s')
  = AppointmentScheduling.store Examples.world_in_use
  /\ In {| title := "Tipo de consulta atualizado com sucesso";
           description := None; variant := None |} (Scheduled.notified s').
Proof.
  destruct (update_of_a_missing_type_reports_success ScheduleExamples.no_faults
              (fun l => l) ScheduleExamples.retorno "u1"
              {| AppointmentScheduling.type_id := "t9";
                 AppointmentScheduling.type_name := "Avaliação";
                 AppointmentScheduling.type_value := 90%float;
                 AppointmentScheduling.type_user_id := "u1" |}
              ScheduleExamples.editing_missing_type)
    as (S & T & _); try reflexivity.
  - cbn. intros t [<-|[]]. discriminate.
  - cbv zeta. split; [exact S | exact T].
Defined.

(** Consulta Padrão is opened and saved as it is. *)
Lemma resaving_a_type_changes_nothing_example :
  AppointmentScheduling.store
    (SchedulingScreen.world
       (snd (SchedulingScreen.handleSubmitAppointmentType
               ScheduleExamples.no_faults (fun l => l) "t2" true
               ScheduleExamples.editing_type)))
  = AppointmentScheduling.store Examples.world_in_use.
Proof.
  apply (resaving_a_type_changes_nothing ScheduleExamples.no_faults (fun l => l)
           "t2" Examples.consulta_padrao "u1" ScheduleExamples.screen);
    try reflexivity.
  - cbn. constructor; [intros []|constructor].
  - now left.
  - discriminate.
Defined.
